(** * TCC seckill prototypes: shallow embedding and verified properties

    The repository holds several Try-Confirm-Cancel prototypes that talk to
    MySQL through database/sql.  Each prototype is embedded in a module of
    its own, named after the source file:

    - [SeckillTCC]    : trans/tcc/seckill_tcc.go (freeze records, slice of
                        resources);
    - [ImprovedSeata] : trans/tcc_seckill2/improved_seata_style.go (freeze
                        table keyed by (tx_id, item_id), map of resources);
    - [SeckillOrder]  : the order resource of seckill_tcc.go, on one store
                        with the inventory resource;
    - [Direct]        : the direct-deduction prototype (deduct log, slice of
                        resources, transaction log);
    - [DirectRecovery]: its order resource and the recovery functions
                        (resource marks, [recoverFromTryPhase] and the
                        like);
    - [Standard]      : trans/tcc_seckill2/seckill_standard.go (version
                        columns, recovery loop [Compensate]);
    - [DesignScript]  : the SQL design script (sweep query, timeout update).

    Database model.  A table with a PRIMARY or UNIQUE key is a finite map
    from the key to the remaining columns; a table without one is the list
    of its rows in insertion order, and QueryRow scans the first matching
    row.  Integer columns are mathematical integers: the arithmetic of an
    UPDATE is done by the server, not by Go, and range errors of the
    server are not part of the model.  Statements fail only where the Go
    code distinguishes it: no row found (sql.ErrNoRows), zero RowsAffected
    (counted as matched rows) and an INSERT that repeats a primary key.
    The driver counts the rows an UPDATE changed; the two counts differ
    only for an UPDATE that writes what the row already holds, which for
    the UPDATE of a Try (it also writes updated_at) needs quantity 0, so
    the theorems that conclude that such a Try succeeds take a positive
    quantity.  The columns that improved_mysql.sql declares unsigned
    refuse a negative value on a strict server; the theorems that
    conclude that its managers succeed take quantities within these
    bounds.
    Connection and commit failures are left out, except as a resource of
    the sample data whose Confirm fails.  Timestamps are stored only in
    tcc_transaction, where queries read them.  A function that opens its
    own transaction with [defer tx.Rollback()] returns the database
    unchanged on every error path. *)

From stdpp Require Import base gmap strings list fin_maps sorting.

Open Scope Z_scope.

(** ** Go run-time behaviour shared by the prototypes *)

Module Go.

(** A panic (index out of range, failed type assertion) ends the run. *)
Inductive outcome (A : Type) :=
| Done (a : A)
| Panic.
Arguments Done {A} a.
Arguments Panic {A}.

#[global] Instance outcome_bind : MBind outcome :=
  fun A B (k : A → outcome B) (m : outcome A) =>
    match m with
    | Done a => k a
    | Panic => Panic
    end.

(** A value stored in a map[string]interface{}: int, string, or float64
    (the finite float mantissa * 2 ^ exponent). *)
Inductive value :=
| VInt (n : Z)
| VString (s : string)
| VFloat64 (mantissa exponent : Z).

(** [args[k].(int)]: panics when the key is missing (nil interface) or
    holds another dynamic type. *)
Definition assert_int (args : gmap string value) (k : string) : outcome Z :=
  match args !! k with
  | Some (VInt n) => Done n
  | _ => Panic
  end.

End Go.

(** ** trans/tcc/seckill_tcc.go *)

Module SeckillTCC.

(** [SeckillTCCContext]; Price (float64), CreatedAt and Timeout only feed
    the account and order resources and the timestamps. *)
Record SeckillTCCContext := {
  TransactionID : string;
  UserID : Z;
  ProductID : Z;
  Quantity : Z
}.

(** Errors built with fmt.Errorf, one constructor per message. *)
Inductive error :=
| ErrQueryStock                    (* 查询商品库存失败 *)
| ErrInsufficient (left need : Z)  (* 库存不足: 剩余%d, 需要%d *)
| ErrNoRowUpdated                  (* 库存不足或商品不存在 *)
| ErrFreezeNotFound                (* 未找到冻结记录 *)
| ErrCommit                        (* 提交事务失败 *)
| ErrTryPhase (e : error)          (* 秒杀TCC Try阶段失败: %v *)
| ErrConfirmPhase (e : error).     (* 秒杀TCC Confirm阶段失败: %v *)

(** Row of seckill_inventory (product_id is UNIQUE and is the map key). *)
Record InventoryRow := {
  stock : Z;
  frozen_stock : Z;
  sold_stock : Z
}.

(** ENUM('FROZEN', 'CONFIRMED', 'CANCELLED') *)
Inductive FreezeStatus := FROZEN | CONFIRMED | CANCELLED.

Definition status_eqb (a b : FreezeStatus) : bool :=
  match a, b with
  | FROZEN, FROZEN | CONFIRMED, CONFIRMED | CANCELLED, CANCELLED => true
  | _, _ => false
  end.

(** Row of seckill_inventory_freeze (no unique key on the table). *)
Record FreezeRow := {
  transaction_id : string;
  product_id : Z;
  quantity : Z;
  status : FreezeStatus
}.

Record DB := {
  seckill_inventory : gmap Z InventoryRow;
  seckill_inventory_freeze : list FreezeRow
}.

Definition set_status (st : FreezeStatus) (r : FreezeRow) : FreezeRow :=
  {| transaction_id := transaction_id r; product_id := product_id r;
     quantity := quantity r; status := st |}.

(** WHERE transaction_id = ? AND product_id = ? *)
Definition same_branch (tx : string) (pid : Z) (r : FreezeRow) : bool :=
  String.eqb (transaction_id r) tx && (product_id r =? pid).

(** UPDATE seckill_inventory_freeze SET status = ? WHERE transaction_id = ?
    AND product_id = ? *)
Definition update_freeze_status (tx : string) (pid : Z) (st : FreezeStatus)
    (rows : list FreezeRow) : list FreezeRow :=
  map (fun r => if same_branch tx pid r then set_status st r else r) rows.

(** UPDATE seckill_inventory SET stock = stock - ?, frozen_stock =
    frozen_stock + ? WHERE product_id = ? AND stock >= ?; the second
    component is RowsAffected. *)
Definition exec_freeze_stock (pid q : Z) (inv : gmap Z InventoryRow)
    : gmap Z InventoryRow * Z :=
  match inv !! pid with
  | Some r =>
      if q <=? stock r
      then (<[pid := {| stock := stock r - q;
                        frozen_stock := frozen_stock r + q;
                        sold_stock := sold_stock r |}]> inv, 1)
      else (inv, 0)
  | None => (inv, 0)
  end.

(** [SeckillInventoryResource.Try] *)
Definition Try (ctx : SeckillTCCContext) (db : DB) : DB * option error :=
  match seckill_inventory db !! ProductID ctx with
  | None => (db, Some ErrQueryStock)
  | Some row =>
      let currentStock := stock row in
      if currentStock <? Quantity ctx
      then (db, Some (ErrInsufficient currentStock (Quantity ctx)))
      else
        let '(inv, rowsAffected) :=
          exec_freeze_stock (ProductID ctx) (Quantity ctx) (seckill_inventory db) in
        if rowsAffected =? 0
        then (db, Some ErrNoRowUpdated)
        else
          ({| seckill_inventory := inv;
              seckill_inventory_freeze :=
                seckill_inventory_freeze db ++
                [{| transaction_id := TransactionID ctx;
                    product_id := ProductID ctx;
                    quantity := Quantity ctx;
                    status := FROZEN |}] |}, None)
  end.

(** [SeckillInventoryResource.Confirm] *)
Definition Confirm (ctx : SeckillTCCContext) (db : DB) : DB * option error :=
  match find (fun r => same_branch (TransactionID ctx) (ProductID ctx) r
                       && status_eqb (status r) FROZEN)
             (seckill_inventory_freeze db) with
  | None => (db, Some ErrFreezeNotFound)
  | Some r =>
      let frozenQuantity := quantity r in
      ({| seckill_inventory :=
            alter (fun row => {| stock := stock row;
                                 frozen_stock := frozen_stock row - frozenQuantity;
                                 sold_stock := sold_stock row + frozenQuantity |})
                  (ProductID ctx) (seckill_inventory db);
          seckill_inventory_freeze :=
            update_freeze_status (TransactionID ctx) (ProductID ctx) CONFIRMED
                                 (seckill_inventory_freeze db) |}, None)
  end.

(** [SeckillInventoryResource.Cancel] *)
Definition Cancel (ctx : SeckillTCCContext) (db : DB) : DB * option error :=
  match find (fun r => same_branch (TransactionID ctx) (ProductID ctx) r
                       && (status_eqb (status r) FROZEN
                           || status_eqb (status r) CONFIRMED))
             (seckill_inventory_freeze db) with
  | None => (db, None)
  | Some r =>
      let frozenQuantity := quantity r in
      let inv :=
        match status r with
        | FROZEN =>
            alter (fun row => {| stock := stock row + frozenQuantity;
                                 frozen_stock := frozen_stock row - frozenQuantity;
                                 sold_stock := sold_stock row |})
                  (ProductID ctx) (seckill_inventory db)
        | CONFIRMED =>
            alter (fun row => {| stock := stock row + frozenQuantity;
                                 frozen_stock := frozen_stock row;
                                 sold_stock := sold_stock row - frozenQuantity |})
                  (ProductID ctx) (seckill_inventory db)
        | CANCELLED => seckill_inventory db
        end in
      ({| seckill_inventory := inv;
          seckill_inventory_freeze :=
            update_freeze_status (TransactionID ctx) (ProductID ctx) CANCELLED
                                 (seckill_inventory_freeze db) |}, None)
  end.

(** *** The manager

    [SeckillTCCResource] is an interface and [AddResource] accepts any
    implementation; all resources share one *sql.DB, the state [S]. *)
Section Manager.
Context {S : Type}.

Record SeckillTCCResource := {
  rTry : SeckillTCCContext → S → S * option error;
  rConfirm : SeckillTCCContext → S → S * option error;
  rCancel : SeckillTCCContext → S → S * option error
}.

Inductive op := OpTry | OpConfirm | OpCancel.

(** What an observer sees of a run: the calls on the resources, by index
    in [stm.resources], and the failures written with log.Printf. *)
Inductive event :=
| Call (o : op) (i : nat)
| LogFailure (o : op) (i : nat) (e : error).

(** [cancelResources]: the loop, from index [i] on. *)
Fixpoint cancelFrom (rs : list SeckillTCCResource) (i : nat)
    (ctx : SeckillTCCContext) (s : S) : S * list event :=
  match rs with
  | [] => (s, [])
  | r :: rs' =>
      let '(s1, res) := rCancel r ctx s in
      let '(s2, evs) := cancelFrom rs' (Datatypes.S i) ctx s1 in
      (s2, Call OpCancel i ::
           match res with
           | Some e => LogFailure OpCancel i e :: evs
           | None => evs
           end)
  end.

Definition cancelResources (rs : list SeckillTCCResource)
    (ctx : SeckillTCCContext) (s : S) : S * list event :=
  cancelFrom rs 0%nat ctx s.

(** Phase 1 of [ExecuteSeckillTCC], from index [i] on; stops at the
    first failure. *)
Fixpoint tryFrom (rs : list SeckillTCCResource) (i : nat)
    (ctx : SeckillTCCContext) (s : S) : S * list event * option error :=
  match rs with
  | [] => (s, [], None)
  | r :: rs' =>
      match rTry r ctx s with
      | (s1, Some e) => (s1, [Call OpTry i; LogFailure OpTry i e], Some e)
      | (s1, None) =>
          let '(s2, evs, res) := tryFrom rs' (Datatypes.S i) ctx s1 in
          (s2, Call OpTry i :: evs, res)
      end
  end.

(** Phase 2 of [ExecuteSeckillTCC], from index [i] on. *)
Fixpoint confirmFrom (rs : list SeckillTCCResource) (i : nat)
    (ctx : SeckillTCCContext) (s : S) : S * list event * option error :=
  match rs with
  | [] => (s, [], None)
  | r :: rs' =>
      match rConfirm r ctx s with
      | (s1, Some e) => (s1, [Call OpConfirm i; LogFailure OpConfirm i e], Some e)
      | (s1, None) =>
          let '(s2, evs, res) := confirmFrom rs' (Datatypes.S i) ctx s1 in
          (s2, Call OpConfirm i :: evs, res)
      end
  end.

(** [ExecuteSeckillTCC] *)
Definition ExecuteSeckillTCC (rs : list SeckillTCCResource)
    (ctx : SeckillTCCContext) (s : S) : S * list event * option error :=
  let '(s1, ev1, r1) := tryFrom rs 0%nat ctx s in
  match r1 with
  | Some e =>
      let '(s2, ev2) := cancelResources rs ctx s1 in
      (s2, ev1 ++ ev2, Some (ErrTryPhase e))
  | None =>
      let '(s2, ev2, r2) := confirmFrom rs 0%nat ctx s1 in
      match r2 with
      | Some e =>
          let '(s3, ev3) := cancelResources rs ctx s2 in
          (s3, ev1 ++ ev2 ++ ev3, Some (ErrConfirmPhase e))
      | None => (s2, ev1 ++ ev2, None)
      end
  end.
End Manager.

Arguments SeckillTCCResource : clear implicits.

(** [NewSeckillInventoryResource] *)
Definition SeckillInventoryResource : SeckillTCCResource DB :=
  {| rTry := Try; rConfirm := Confirm; rCancel := Cancel |}.

End SeckillTCC.

(** ** Status of a global transaction

    tcc_transaction.status, ENUM('TRYING','TRIED','CONFIRMING','CONFIRMED',
    'CANCELLING','CANCELLED','FAILED'), shared by the coordinators below. *)

Module Tx.
Inductive status :=
  TRYING | TRIED | CONFIRMING | CONFIRMED | CANCELLING | CANCELLED | FAILED.

Definition eqb (a b : status) : bool :=
  match a, b with
  | TRYING, TRYING | TRIED, TRIED | CONFIRMING, CONFIRMING
  | CONFIRMED, CONFIRMED | CANCELLING, CANCELLING | CANCELLED, CANCELLED
  | FAILED, FAILED => true
  | _, _ => false
  end.

(** status IN ('TRYING','TRIED','CONFIRMING','CANCELLING') *)
Definition non_terminal (s : status) : bool :=
  match s with
  | TRYING | TRIED | CONFIRMING | CANCELLING => true
  | CONFIRMED | CANCELLED | FAILED => false
  end.
End Tx.

(** ** trans/tcc_seckill2/improved_seata_style.go *)

Module ImprovedSeata.

(** The argument bundle map[string]interface{}, with the keys the
    modelled resource managers assert, at their asserted types; "amount"
    (float64) is only read by the account and order managers. *)
Record Args := {
  tx_id : string;
  order_id : string;
  user_id : Z;
  item_id : Z;
  quantity : Z
}.

Definition with_tx_id (txID : string) (args : Args) : Args :=
  {| tx_id := txID; order_id := order_id args; user_id := user_id args;
     item_id := item_id args; quantity := quantity args |}.

Inductive error :=
| ErrQueryInventory                 (* 查询库存失败 *)
| ErrInsufficient (avail need : Z)  (* 库存不足，可用: %d, 需要: %d *)
| ErrCreateTransaction              (* 创建全局事务失败 *)
| ErrBadStatus.                     (* 事务状态不正确，无法确认 *)

(** seckill_inventory: item_id is the PRIMARY KEY. *)
Record InventoryRow := { total : Z; available : Z }.

(** inventory_freeze.state *)
Inductive FreezeState := TRIED | CONFIRMED | CANCELLED.

(** inventory_freeze: UNIQUE KEY (tx_id, item_id). *)
Record FreezeRow := { freeze_quantity : Z; state : FreezeState }.

(** seckill_orders.status *)
Inductive OrderStatus := CREATED | ORDER_CANCELLED.

(** seckill_orders: order_id is the PRIMARY KEY. *)
Record OrderRow := {
  o_tx_id : string; o_user_id : Z; o_item_id : Z; o_quantity : Z;
  o_status : OrderStatus
}.

Record DB := {
  seckill_inventory : gmap Z InventoryRow;
  inventory_freeze : gmap (string * Z) FreezeRow;
  seckill_orders : gmap string OrderRow;
  tcc_transaction : gmap string Tx.status
}.

Definition set_inventory (inv : gmap Z InventoryRow) (db : DB) : DB :=
  {| seckill_inventory := inv; inventory_freeze := inventory_freeze db;
     seckill_orders := seckill_orders db; tcc_transaction := tcc_transaction db |}.

Definition set_freeze (fr : gmap (string * Z) FreezeRow) (db : DB) : DB :=
  {| seckill_inventory := seckill_inventory db; inventory_freeze := fr;
     seckill_orders := seckill_orders db; tcc_transaction := tcc_transaction db |}.

Definition set_orders (os : gmap string OrderRow) (db : DB) : DB :=
  {| seckill_inventory := seckill_inventory db; inventory_freeze := inventory_freeze db;
     seckill_orders := os; tcc_transaction := tcc_transaction db |}.

Definition set_transaction (ts : gmap string Tx.status) (db : DB) : DB :=
  {| seckill_inventory := seckill_inventory db; inventory_freeze := inventory_freeze db;
     seckill_orders := seckill_orders db; tcc_transaction := ts |}.

(** The managers run inside the coordinator's *sql.Tx: they return the
    state of that transaction, which the coordinator commits or rolls
    back. *)

(** [InventoryRM.Try] *)
Definition InventoryRM_Try (args : Args) (db : DB) : DB * option error :=
  let txID := tx_id args in
  let itemID := item_id args in
  match inventory_freeze db !! (txID, itemID) with
  | Some _ => (db, None)
  | None =>
      match seckill_inventory db !! itemID with
      | None => (db, Some ErrQueryInventory)
      | Some row =>
          if available row <? quantity args
          then (db, Some (ErrInsufficient (available row) (quantity args)))
          else
            let inv :=
              alter (fun r => {| total := total r;
                                 available := available r - quantity args |})
                    itemID (seckill_inventory db) in
            let fr :=
              <[(txID, itemID) := {| freeze_quantity := quantity args;
                                     state := TRIED |}]> (inventory_freeze db) in
            (set_freeze fr (set_inventory inv db), None)
      end
  end.

(** [InventoryRM.Confirm] *)
Definition InventoryRM_Confirm (args : Args) (db : DB) : DB * option error :=
  let txID := tx_id args in
  let itemID := item_id args in
  match inventory_freeze db !! (txID, itemID) with
  | None => (db, None)
  | Some fr =>
      match state fr with
      | CONFIRMED => (db, None)
      | _ =>
          let inv :=
            alter (fun r => {| total := total r - quantity args;
                               available := available r |})
                  itemID (seckill_inventory db) in
          (* UPDATE inventory_freeze SET state = 'CONFIRMED'
             WHERE tx_id = ? AND item_id = ? AND state = 'TRIED' *)
          let frz :=
            alter (fun f => match state f with
                            | TRIED => {| freeze_quantity := freeze_quantity f;
                                          state := CONFIRMED |}
                            | _ => f
                            end)
                  (txID, itemID) (inventory_freeze db) in
          (set_freeze frz (set_inventory inv db), None)
      end
  end.

(** [InventoryRM.Cancel] *)
Definition InventoryRM_Cancel (args : Args) (db : DB) : DB * option error :=
  let txID := tx_id args in
  let itemID := item_id args in
  match inventory_freeze db !! (txID, itemID) with
  | None => (db, None)
  | Some fr =>
      match state fr with
      | CANCELLED => (db, None)
      | _ =>
          let freezeQuantity := freeze_quantity fr in
          let inv :=
            alter (fun r => {| total := total r;
                               available := available r + freezeQuantity |})
                  itemID (seckill_inventory db) in
          (* ... SET state = 'CANCELLED' WHERE tx_id = ? AND item_id = ?
             AND state IN ('TRIED', 'CONFIRMED') *)
          let frz :=
            alter (fun f => match state f with
                            | TRIED | CONFIRMED =>
                                {| freeze_quantity := freeze_quantity f;
                                   state := CANCELLED |}
                            | CANCELLED => f
                            end)
                  (txID, itemID) (inventory_freeze db) in
          (set_freeze frz (set_inventory inv db), None)
      end
  end.

(** [OrderRM.Try] *)
Definition OrderRM_Try (args : Args) (db : DB) : DB * option error :=
  match seckill_orders db !! order_id args with
  | Some _ => (db, None)
  | None =>
      (set_orders
         (<[order_id args := {| o_tx_id := tx_id args; o_user_id := user_id args;
                                o_item_id := item_id args;
                                o_quantity := quantity args;
                                o_status := CREATED |}]> (seckill_orders db)) db,
       None)
  end.

(** [OrderRM.Confirm] *)
Definition OrderRM_Confirm (args : Args) (db : DB) : DB * option error :=
  (db, None).

(** [OrderRM.Cancel] *)
Definition OrderRM_Cancel (args : Args) (db : DB) : DB * option error :=
  (set_orders
     (alter (fun o => match o_status o with
                      | CREATED => {| o_tx_id := o_tx_id o; o_user_id := o_user_id o;
                                      o_item_id := o_item_id o;
                                      o_quantity := o_quantity o;
                                      o_status := ORDER_CANCELLED |}
                      | ORDER_CANCELLED => o
                      end)
            (order_id args) (seckill_orders db)) db,
   None).

(** [ResourceManager] *)
Record ResourceManager := {
  rmTry : Args → DB → DB * option error;
  rmConfirm : Args → DB → DB * option error;
  rmCancel : Args → DB → DB * option error
}.

Definition InventoryRM : ResourceManager :=
  {| rmTry := InventoryRM_Try; rmConfirm := InventoryRM_Confirm;
     rmCancel := InventoryRM_Cancel |}.

Definition OrderRM : ResourceManager :=
  {| rmTry := OrderRM_Try; rmConfirm := OrderRM_Confirm;
     rmCancel := OrderRM_Cancel |}.

Inductive op := OpTry | OpConfirm | OpCancel.

(** A call of a manager, by its key in [c.resources]. *)
Definition event : Type := op * string.

(** [for resourceName, rm := range c.resources]: Go leaves the iteration
    order of a map unspecified, so one run visits the keys in some order
    [order], any arrangement of the keys of the map. *)
Definition map_iteration (resources : gmap string ResourceManager)
    (order : list string) : Prop :=
  order ≡ₚ elements (dom resources).

Definition call (o : op) (rm : ResourceManager) : Args → DB → DB * option error :=
  match o with
  | OpTry => rmTry rm
  | OpConfirm => rmConfirm rm
  | OpCancel => rmCancel rm
  end.

(** The loop over the resources, visiting the keys in [order]; it returns
    at the first error. *)
Fixpoint range_resources (o : op) (resources : gmap string ResourceManager)
    (order : list string) (args : Args) (db : DB)
    : DB * list event * option error :=
  match order with
  | [] => (db, [], None)
  | name :: rest =>
      match resources !! name with
      | None => range_resources o resources rest args db
      | Some rm =>
          match call o rm args db with
          | (db1, Some e) => (db1, [(o, name)], Some e)
          | (db1, None) =>
              let '(db2, evs, res) := range_resources o resources rest args db1 in
              (db2, (o, name) :: evs, res)
          end
      end
  end.

(** UPDATE tcc_transaction SET status = [to] WHERE tx_id = ? AND status
    IN [from]; the second component is RowsAffected. *)
Definition update_status (txID : string) (from : list Tx.status) (to : Tx.status)
    (tbl : gmap string Tx.status) : gmap string Tx.status * Z :=
  match tbl !! txID with
  | Some st =>
      if existsb (Tx.eqb st) from then (<[txID := to]> tbl, 1) else (tbl, 0)
  | None => (tbl, 0)
  end.

(** [ImprovedCoordinator.StartTransaction]; on every error path the
    deferred tx.Rollback() restores the database. *)
Definition StartTransaction (resources : gmap string ResourceManager)
    (order : list string) (txID : string) (args : Args) (db : DB)
    : DB * list event * option error :=
  let args := with_tx_id txID args in
  match tcc_transaction db !! txID with
  | Some _ => (db, [], Some ErrCreateTransaction)
  | None =>
      let tx := set_transaction (<[txID := Tx.TRYING]> (tcc_transaction db)) db in
      match range_resources OpTry resources order args tx with
      | (_, evs, Some e) => (db, evs, Some e)
      | (tx1, evs, None) =>
          let '(tbl, _) :=
            update_status txID [Tx.TRYING] Tx.TRIED (tcc_transaction tx1) in
          (set_transaction tbl tx1, evs, None)
      end
  end.

(** [ImprovedCoordinator.Confirm] *)
Definition Confirm (resources : gmap string ResourceManager)
    (order : list string) (txID : string) (args : Args) (db : DB)
    : DB * list event * option error :=
  let args := with_tx_id txID args in
  let '(tbl, rowsAffected) :=
    update_status txID [Tx.TRIED] Tx.CONFIRMING (tcc_transaction db) in
  if rowsAffected =? 0
  then (db, [], Some ErrBadStatus)
  else
    match range_resources OpConfirm resources order args (set_transaction tbl db) with
    | (_, evs, Some e) => (db, evs, Some e)
    | (tx1, evs, None) =>
        let '(tbl1, _) :=
          update_status txID [Tx.CONFIRMING] Tx.CONFIRMED (tcc_transaction tx1) in
        (set_transaction tbl1 tx1, evs, None)
    end.

(** The first statement of [ImprovedCoordinator.Cancel]. *)
Definition mark_cancelling (txID : string) (tbl : gmap string Tx.status)
    : gmap string Tx.status :=
  fst (update_status txID [Tx.TRYING; Tx.TRIED; Tx.CONFIRMING] Tx.CANCELLING tbl).

(** [ImprovedCoordinator.Cancel] *)
Definition Cancel (resources : gmap string ResourceManager)
    (order : list string) (txID : string) (args : Args) (db : DB)
    : DB * list event * option error :=
  let args := with_tx_id txID args in
  let tx := set_transaction (mark_cancelling txID (tcc_transaction db)) db in
  match range_resources OpCancel resources order args tx with
  | (_, evs, Some e) => (db, evs, Some e)
  | (tx1, evs, None) =>
      let '(tbl1, _) :=
        update_status txID [Tx.CANCELLING] Tx.CANCELLED (tcc_transaction tx1) in
      (set_transaction tbl1 tx1, evs, None)
  end.

End ImprovedSeata.

(** ** The direct-deduction prototype (SeckillDirectTCCManager) *)

Module Direct.

(** [SeckillDirectTCCContext]; Price (float64) only feeds the account and
    order resources, StartTime only the log. *)
Record SeckillDirectTCCContext := {
  TransactionID : string;
  UserID : Z;
  ProductID : Z;
  Quantity : Z
}.

(** [TCCTransactionStatus] *)
Inductive TCCTransactionStatus :=
  TCCStatusTried | TCCStatusConfirmed | TCCStatusCancelled.

(** inventory_deduct_log.operation_type *)
Inductive OperationType := TRY_DEDUCT | CONFIRMED | CANCELLED.

Inductive error :=
| ErrDeduct                          (* 库存不足或商品不可用 *)
| ErrNoTryRecord                     (* 未找到Try记录，无法执行Confirm *)
| ErrBadState (t : OperationType)    (* 事务状态异常，当前状态: %s *)
| ErrAlreadyCancelled                (* 事务已取消 *)
| ErrSeckill (e : error)             (* 秒杀失败: %v *)
| ErrConfirm (e : error).            (* 确认失败: %v *)

(** seckill_inventory.status *)
Inductive ItemStatus := ACTIVE | INACTIVE.

(** seckill_inventory: product_id is UNIQUE. *)
Record InventoryRow := {
  stock : Z;
  sold_count : Z;
  status : ItemStatus
}.

(** inventory_deduct_log: no unique key. *)
Record DeductLog := {
  transaction_id : string;
  product_id : Z;
  quantity : Z;
  operation_type : OperationType
}.

(** The tables of the inventory resource. *)
Record DB := {
  seckill_inventory : gmap Z InventoryRow;
  inventory_deduct_log : list DeductLog
}.

(** WHERE transaction_id = ? *)
Definition of_tx (tx : string) (r : DeductLog) : bool :=
  String.eqb (transaction_id r) tx.

Definition set_type (t : OperationType) (r : DeductLog) : DeductLog :=
  {| transaction_id := transaction_id r; product_id := product_id r;
     quantity := quantity r; operation_type := t |}.

Definition is_active (st : ItemStatus) : bool :=
  match st with ACTIVE => true | INACTIVE => false end.

(** UPDATE seckill_inventory SET stock = stock - ?, sold_count =
    sold_count + ? WHERE product_id = ? AND stock >= ? AND status =
    'ACTIVE'; the second component is RowsAffected. *)
Definition exec_deduct (pid q : Z) (inv : gmap Z InventoryRow)
    : gmap Z InventoryRow * Z :=
  match inv !! pid with
  | Some r =>
      if (q <=? stock r) && is_active (status r)
      then (<[pid := {| stock := stock r - q; sold_count := sold_count r + q;
                        status := status r |}]> inv, 1)
      else (inv, 0)
  | None => (inv, 0)
  end.

(** [DirectInventoryResource.Try] *)
Definition Try (ctx : SeckillDirectTCCContext) (db : DB) : DB * option error :=
  let count :=
    length (filter (fun r => of_tx (TransactionID ctx) r = true)
                   (inventory_deduct_log db)) in
  if (0 <? count)%nat
  then (db, None)
  else
    let '(inv, rowsAffected) :=
      exec_deduct (ProductID ctx) (Quantity ctx) (seckill_inventory db) in
    if rowsAffected =? 0
    then (db, Some ErrDeduct)
    else
      ({| seckill_inventory := inv;
          inventory_deduct_log :=
            inventory_deduct_log db ++
            [{| transaction_id := TransactionID ctx;
                product_id := ProductID ctx;
                quantity := Quantity ctx;
                operation_type := TRY_DEDUCT |}] |}, None).

Section Latest.
(** SELECT ... WHERE transaction_id = ? ORDER BY updated_at DESC LIMIT 1:
    [latest] picks the most recently updated of the matching rows. *)
Variable latest : list DeductLog → option DeductLog.

(** [DirectInventoryResource.Confirm] *)
Definition Confirm (ctx : SeckillDirectTCCContext) (db : DB) : DB * option error :=
  match latest (filter (fun r => of_tx (TransactionID ctx) r = true)
                       (inventory_deduct_log db)) with
  | None => (db, Some ErrNoTryRecord)
  | Some r =>
      match operation_type r with
      | CONFIRMED => (db, None)
      | CANCELLED => (db, Some (ErrBadState CANCELLED))
      | TRY_DEDUCT =>
          ({| seckill_inventory := seckill_inventory db;
              inventory_deduct_log :=
                map (fun l => if of_tx (TransactionID ctx) l
                              then match operation_type l with
                                   | TRY_DEDUCT => set_type CONFIRMED l
                                   | _ => l
                                   end
                              else l)
                    (inventory_deduct_log db) |}, None)
      end
  end.

(** [DirectInventoryResource.Cancel] *)
Definition Cancel (ctx : SeckillDirectTCCContext) (db : DB) : DB * option error :=
  match latest (filter (fun r => of_tx (TransactionID ctx) r = true)
                       (inventory_deduct_log db)) with
  | None => (db, None)
  | Some r =>
      match operation_type r with
      | CANCELLED => (db, None)
      | TRY_DEDUCT | CONFIRMED =>
          let quantity := quantity r in
          ({| seckill_inventory :=
                alter (fun row => {| stock := stock row + quantity;
                                     sold_count := sold_count row - quantity;
                                     status := status row |})
                      (ProductID ctx) (seckill_inventory db);
              inventory_deduct_log :=
                map (fun l => if of_tx (TransactionID ctx) l
                              then set_type CANCELLED l else l)
                    (inventory_deduct_log db) |}, None)
      end
  end.
End Latest.

(** What the hypotheses on [latest] are: it answers with one of the rows
    it is given, and with none only when there is none. *)
Definition picks_a_row (latest : list DeductLog → option DeductLog) : Prop :=
  ∀ l, match latest l with
       | Some r => r ∈ l
       | None => l = []
       end.

(** *** The manager *)

Import Go.

(** tcc_resource_status.phase *)
Inductive phase := PhaseTry | PhaseConfirm | PhaseCancel.

Definition phase_eqb (a b : phase) : bool :=
  match a, b with
  | PhaseTry, PhaseTry | PhaseConfirm, PhaseConfirm | PhaseCancel, PhaseCancel => true
  | _, _ => false
  end.

(** A row of tcc_resource_status; only 'completed' is ever written, and
    (transaction_id, resource_index, phase) is UNIQUE. *)
Record ResourceStatus := {
  rs_transaction_id : string;
  rs_resource_type : string;
  rs_resource_index : nat;
  rs_phase : phase
}.

Section Manager.
(** The tables of the resources; the manager itself only writes
    tcc_transaction_log and tcc_resource_status. *)
Context {S : Type}.

Record DirectTCCResource := {
  rTry : SeckillDirectTCCContext → S → S * option error;
  rConfirm : SeckillDirectTCCContext → S → S * option error;
  rCancel : SeckillDirectTCCContext → S → S * option error
}.

Record State := {
  resource_tables : S;
  tcc_transaction_log : gmap string TCCTransactionStatus;
  tcc_resource_status : list ResourceStatus
}.

Definition set_tables (s : S) (st : State) : State :=
  {| resource_tables := s; tcc_transaction_log := tcc_transaction_log st;
     tcc_resource_status := tcc_resource_status st |}.

Inductive op := OpTry | OpConfirm | OpCancel.

Inductive event :=
| Call (o : op) (i : nat)
| LogFailure (o : op) (i : nat) (e : error).

(** [logTCCTransaction]: INSERT ... ON DUPLICATE KEY UPDATE status = ? *)
Definition logTCCTransaction (tx : string) (status : TCCTransactionStatus)
    (st : State) : State :=
  {| resource_tables := resource_tables st;
     tcc_transaction_log := <[tx := status]> (tcc_transaction_log st);
     tcc_resource_status := tcc_resource_status st |}.

Definition resourceTypes : list string := ["inventory"; "account"; "order"].

Definition same_slot (tx : string) (i : nat) (ph : phase) (r : ResourceStatus) : bool :=
  String.eqb (rs_transaction_id r) tx && Nat.eqb (rs_resource_index r) i
  && phase_eqb (rs_phase r) ph.

(** [markResourceTryCompleted], [markResourceConfirmCompleted] and
    [markResourceCancelCompleted]: resourceTypes[resourceIndex] panics
    out of range; the INSERT ... ON DUPLICATE KEY UPDATE keeps one row
    per (transaction_id, resource_index, phase). *)
Definition markResourceCompleted (ph : phase) (tx : string) (i : nat)
    (st : State) : outcome State :=
  match resourceTypes !! i with
  | None => Panic
  | Some ty =>
      Done
        {| resource_tables := resource_tables st;
           tcc_transaction_log := tcc_transaction_log st;
           tcc_resource_status :=
             if existsb (same_slot tx i ph) (tcc_resource_status st)
             then tcc_resource_status st
             else tcc_resource_status st ++
                  [{| rs_transaction_id := tx; rs_resource_type := ty;
                      rs_resource_index := i; rs_phase := ph |}] |}
  end.

Definition run (f : SeckillDirectTCCContext → S → S * option error)
    (ctx : SeckillDirectTCCContext) (st : State) : State * option error :=
  let '(s, res) := f ctx (resource_tables st) in (set_tables s st, res).

(** The inner loop of [tryResources], [for j := i - 1; j >= 0; j--]:
    [visited] holds the resources before index i, the last one first. *)
Fixpoint compensate (visited : list (nat * DirectTCCResource))
    (ctx : SeckillDirectTCCContext) (st : State) : outcome (State * list event) :=
  match visited with
  | [] => Done (st, [])
  | (j, r) :: rest =>
      match run (rCancel r) ctx st with
      | (st1, Some e) =>
          '(st2, evs) ← compensate rest ctx st1;
          Done (st2, Call OpCancel j :: LogFailure OpCancel j e :: evs)
      | (st1, None) =>
          st1' ← markResourceCompleted PhaseCancel (TransactionID ctx) j st1;
          '(st2, evs) ← compensate rest ctx st1';
          Done (st2, Call OpCancel j :: evs)
      end
  end.

(** [tryResources], from index [i] on. *)
Fixpoint tryFrom (visited : list (nat * DirectTCCResource))
    (rs : list DirectTCCResource) (i : nat)
    (ctx : SeckillDirectTCCContext) (st : State)
    : outcome (State * list event * option error) :=
  match rs with
  | [] => Done (st, [], None)
  | r :: rs' =>
      match run (rTry r) ctx st with
      | (st1, Some e) =>
          '(st2, evs) ← compensate visited ctx st1;
          Done (st2, Call OpTry i :: LogFailure OpTry i e :: evs, Some e)
      | (st1, None) =>
          st1' ← markResourceCompleted PhaseTry (TransactionID ctx) i st1;
          '(st2, evs, res) ← tryFrom ((i, r) :: visited) rs' (Datatypes.S i) ctx st1';
          Done (st2, Call OpTry i :: evs, res)
      end
  end.

Definition tryResources (rs : list DirectTCCResource)
    (ctx : SeckillDirectTCCContext) (st : State)
    : outcome (State * list event * option error) :=
  tryFrom [] rs 0%nat ctx st.

(** [confirmResources], from index [i] on. *)
Fixpoint confirmFrom (rs : list DirectTCCResource) (i : nat)
    (ctx : SeckillDirectTCCContext) (st : State)
    : outcome (State * list event * option error) :=
  match rs with
  | [] => Done (st, [], None)
  | r :: rs' =>
      match run (rConfirm r) ctx st with
      | (st1, Some e) =>
          Done (st1, [Call OpConfirm i; LogFailure OpConfirm i e], Some e)
      | (st1, None) =>
          st1' ← markResourceCompleted PhaseConfirm (TransactionID ctx) i st1;
          '(st2, evs, res) ← confirmFrom rs' (Datatypes.S i) ctx st1';
          Done (st2, Call OpConfirm i :: evs, res)
      end
  end.

(** [cancelResources], from index [i] on. *)
Fixpoint cancelFrom (rs : list DirectTCCResource) (i : nat)
    (ctx : SeckillDirectTCCContext) (st : State) : outcome (State * list event) :=
  match rs with
  | [] => Done (st, [])
  | r :: rs' =>
      match run (rCancel r) ctx st with
      | (st1, Some e) =>
          '(st2, evs) ← cancelFrom rs' (Datatypes.S i) ctx st1;
          Done (st2, Call OpCancel i :: LogFailure OpCancel i e :: evs)
      | (st1, None) =>
          st1' ← markResourceCompleted PhaseCancel (TransactionID ctx) i st1;
          '(st2, evs) ← cancelFrom rs' (Datatypes.S i) ctx st1';
          Done (st2, Call OpCancel i :: evs)
      end
  end.

(** [ExecuteSeckill] *)
Definition ExecuteSeckill (rs : list DirectTCCResource)
    (ctx : SeckillDirectTCCContext) (st : State)
    : outcome (State * list event * option error) :=
  let tx := TransactionID ctx in
  match tcc_transaction_log st !! tx with
  | Some TCCStatusConfirmed => Done (st, [], None)
  | Some TCCStatusCancelled => Done (st, [], Some ErrAlreadyCancelled)
  | _ =>
      '(st1, ev1, r1) ← tryResources rs ctx st;
      match r1 with
      | Some e =>
          '(st2, ev2) ← cancelFrom rs 0%nat ctx
                           (logTCCTransaction tx TCCStatusCancelled st1);
          Done (st2, ev1 ++ ev2, Some (ErrSeckill e))
      | None =>
          '(st2, ev2, r2) ← confirmFrom rs 0%nat ctx
                               (logTCCTransaction tx TCCStatusTried st1);
          match r2 with
          | Some e =>
              '(st3, ev3) ← cancelFrom rs 0%nat ctx
                               (logTCCTransaction tx TCCStatusCancelled st2);
              Done (st3, ev1 ++ ev2 ++ ev3, Some (ErrConfirm e))
          | None =>
              Done (logTCCTransaction tx TCCStatusConfirmed st2, ev1 ++ ev2, None)
          end
      end
  end.
End Manager.

Arguments DirectTCCResource : clear implicits.
Arguments State : clear implicits.

(** [NewDirectInventoryResource] *)
Definition DirectInventoryResource (latest : list DeductLog → option DeductLog)
    : DirectTCCResource DB :=
  {| rTry := Try; rConfirm := Confirm latest; rCancel := Cancel latest |}.

End Direct.

(** ** Rows of tcc_transaction

    The columns of the design script's table that a statement reads or
    writes; times are seconds. *)

Module TxTable.
Record Row := {
  status : Tx.status;
  retry_count : Z;
  max_retry : Z;
  timeout_time : option Z;        (* DATETIME DEFAULT NULL *)
  error_message : option string;
  create_time : Z;
  update_time : Z                 (* ON UPDATE CURRENT_TIMESTAMP *)
}.

(** SET status = ? on a row, at server time [now]. *)
Definition set_status (now : Z) (st : Tx.status) (r : Row) : Row :=
  {| status := st; retry_count := retry_count r; max_retry := max_retry r;
     timeout_time := timeout_time r; error_message := error_message r;
     create_time := create_time r; update_time := now |}.

(** UPDATE tcc_transaction SET status = [to] WHERE tx_id = ? AND status
    IN [from]; the second component is RowsAffected. *)
Definition update_status (now : Z) (txID : string) (from : list Tx.status)
    (to : Tx.status) (tbl : gmap string Row) : gmap string Row * Z :=
  match tbl !! txID with
  | Some r =>
      if existsb (Tx.eqb (status r)) from
      then (<[txID := set_status now to r]> tbl, 1)
      else (tbl, 0)
  | None => (tbl, 0)
  end.
End TxTable.

(** ** trans/tcc_seckill2/seckill_standard.go *)

Module Standard.
Import Go.

(** map[string]interface{} *)
Abbreviation Args := (gmap string value).

Inductive error :=
| ErrNoRows                 (* sql.ErrNoRows from Scan *)
| ErrInvalidConfirm         (* invalid state for confirm *)
| ErrInvalidCancel.         (* invalid state for cancel *)

(** seckill_inventory, keyed by item_id. *)
Record InventoryRow := {
  frozen : Z;
  available : Z;
  total : Z;
  i_version : Z
}.

(** account, keyed by account_id. *)
Record AccountRow := {
  balance : Z;
  version : Z
}.

(** The tables of the resource managers. *)
Record Tables := {
  seckill_inventory : gmap Z InventoryRow;
  account : gmap Z AccountRow
}.

Definition set_inventory (inv : gmap Z InventoryRow) (t : Tables) : Tables :=
  {| seckill_inventory := inv; account := account t |}.

Definition set_account (acc : gmap Z AccountRow) (t : Tables) : Tables :=
  {| seckill_inventory := seckill_inventory t; account := acc |}.

(** UPDATE seckill_inventory SET ..., version = version + 1 WHERE item_id
    = ? AND version = ? *)
Definition update_inventory (f : InventoryRow → InventoryRow) (itemID v : Z)
    (inv : gmap Z InventoryRow) : gmap Z InventoryRow :=
  alter (fun r => if i_version r =? v then f r else r) itemID inv.

(** [InventoryRM.Try] *)
Definition InventoryRM_Try (args : Args) (t : Tables) : outcome (Tables * option error) :=
  itemID ← assert_int args "item_id";
  quantity ← assert_int args "quantity";
  match seckill_inventory t !! itemID with
  | None => Done (t, Some ErrNoRows)
  | Some row =>
      Done (set_inventory
              (update_inventory
                 (fun r => {| frozen := frozen r + quantity;
                              available := available r - quantity;
                              total := total r; i_version := i_version r + 1 |})
                 itemID (i_version row) (seckill_inventory t)) t, None)
  end.

(** [InventoryRM.Confirm] *)
Definition InventoryRM_Confirm (args : Args) (t : Tables) : outcome (Tables * option error) :=
  itemID ← assert_int args "item_id";
  quantity ← assert_int args "quantity";
  match seckill_inventory t !! itemID with
  | None => Done (t, Some ErrNoRows)
  | Some row =>
      Done (set_inventory
              (update_inventory
                 (fun r => {| frozen := frozen r - quantity;
                              available := available r;
                              total := total r - quantity;
                              i_version := i_version r + 1 |})
                 itemID (i_version row) (seckill_inventory t)) t, None)
  end.

(** [InventoryRM.Cancel] *)
Definition InventoryRM_Cancel (args : Args) (t : Tables) : outcome (Tables * option error) :=
  itemID ← assert_int args "item_id";
  quantity ← assert_int args "quantity";
  match seckill_inventory t !! itemID with
  | None => Done (t, Some ErrNoRows)
  | Some row =>
      Done (set_inventory
              (update_inventory
                 (fun r => {| frozen := frozen r - quantity;
                              available := available r + quantity;
                              total := total r; i_version := i_version r + 1 |})
                 itemID (i_version row) (seckill_inventory t)) t, None)
  end.

(** UPDATE account SET balance = ..., version = version + 1 WHERE
    account_id = ? AND version = ? *)
Definition update_account (f : Z → Z) (accountID v : Z)
    (acc : gmap Z AccountRow) : gmap Z AccountRow :=
  alter (fun r => if version r =? v
                  then {| balance := f (balance r); version := version r + 1 |}
                  else r) accountID acc.

(** [AccountRM.Try] *)
Definition AccountRM_Try (args : Args) (t : Tables) : outcome (Tables * option error) :=
  accountID ← assert_int args "account_id";
  amount ← assert_int args "amount";
  match account t !! accountID with
  | None => Done (t, Some ErrNoRows)
  | Some row =>
      Done (set_account
              (update_account (fun b => b - amount) accountID (version row)
                              (account t)) t, None)
  end.

(** [AccountRM.Confirm] *)
Definition AccountRM_Confirm (args : Args) (t : Tables) : outcome (Tables * option error) :=
  accountID ← assert_int args "account_id";
  amount ← assert_int args "amount";
  match account t !! accountID with
  | None => Done (t, Some ErrNoRows)
  | Some row =>
      Done (set_account
              (update_account (fun b => b + amount) accountID (version row)
                              (account t)) t, None)
  end.

(** [AccountRM.Cancel] *)
Definition AccountRM_Cancel (args : Args) (t : Tables) : outcome (Tables * option error) :=
  accountID ← assert_int args "account_id";
  amount ← assert_int args "amount";
  match account t !! accountID with
  | None => Done (t, Some ErrNoRows)
  | Some row =>
      Done (set_account
              (update_account (fun b => b + amount) accountID (version row)
                              (account t)) t, None)
  end.

(** [ResourceManager] *)
Record ResourceManager := {
  rmTry : Args → Tables → outcome (Tables * option error);
  rmConfirm : Args → Tables → outcome (Tables * option error);
  rmCancel : Args → Tables → outcome (Tables * option error)
}.

Definition InventoryRM : ResourceManager :=
  {| rmTry := InventoryRM_Try; rmConfirm := InventoryRM_Confirm;
     rmCancel := InventoryRM_Cancel |}.

Definition AccountRM : ResourceManager :=
  {| rmTry := AccountRM_Try; rmConfirm := AccountRM_Confirm;
     rmCancel := AccountRM_Cancel |}.

(** tcc_branch.status *)
Inductive BranchStatus := PREPARED | BRANCH_CONFIRMED | BRANCH_CANCELLED.

Record BranchRow := {
  branch_id : string;
  b_tx_id : string;
  resource_id : string;
  b_status : BranchStatus
}.

Record State := {
  tables : Tables;
  tcc_transaction : gmap string TxTable.Row;
  tcc_branch : list BranchRow
}.

(** UPDATE tcc_branch SET status = ? WHERE tx_id = ? *)
Definition update_branches (txID : string) (st : BranchStatus)
    (rows : list BranchRow) : list BranchRow :=
  map (fun b => if String.eqb (b_tx_id b) txID
                then {| branch_id := branch_id b; b_tx_id := b_tx_id b;
                        resource_id := resource_id b; b_status := st |}
                else b) rows.

(** [for _, rm := range c.resources], visiting the keys in [order]; the
    error of a manager ends the loop. *)
Fixpoint range_resources (f : ResourceManager → Args → Tables → outcome (Tables * option error))
    (resources : gmap string ResourceManager) (order : list string)
    (args : Args) (t : Tables) : outcome (Tables * option error) :=
  match order with
  | [] => Done (t, None)
  | name :: rest =>
      match resources !! name with
      | None => range_resources f resources rest args t
      | Some rm =>
          '(t1, res) ← f rm args t;
          match res with
          | Some e => Done (t1, Some e)
          | None => range_resources f resources rest args t1
          end
      end
  end.

(** [Coordinator.Confirm]; tx.Rollback() restores the state. *)
Definition Confirm (resources : gmap string ResourceManager) (order : list string)
    (now : Z) (txID : string) (args : Args) (st : State)
    : outcome (State * option error) :=
  let '(tbl, rows) :=
    TxTable.update_status now txID [Tx.TRIED] Tx.CONFIRMING (tcc_transaction st) in
  if rows =? 0
  then Done (st, Some ErrInvalidConfirm)
  else
    '(t1, res) ← range_resources rmConfirm resources order args (tables st);
    match res with
    | Some e => Done (st, Some e)
    | None =>
        let '(tbl1, _) :=
          TxTable.update_status now txID [Tx.CONFIRMING] Tx.CONFIRMED tbl in
        Done ({| tables := t1; tcc_transaction := tbl1;
                 tcc_branch := update_branches txID BRANCH_CONFIRMED (tcc_branch st) |},
              None)
    end.

(** [Coordinator.Cancel] *)
Definition Cancel (resources : gmap string ResourceManager) (order : list string)
    (now : Z) (txID : string) (args : Args) (st : State)
    : outcome (State * option error) :=
  let '(tbl, rows) :=
    TxTable.update_status now txID [Tx.TRIED] Tx.CANCELLING (tcc_transaction st) in
  if rows =? 0
  then Done (st, Some ErrInvalidCancel)
  else
    '(t1, res) ← range_resources rmCancel resources order args (tables st);
    match res with
    | Some e => Done (st, Some e)
    | None =>
        let '(tbl1, _) :=
          TxTable.update_status now txID [Tx.CANCELLING] Tx.CANCELLED tbl in
        Done ({| tables := t1; tcc_transaction := tbl1;
                 tcc_branch := update_branches txID BRANCH_CANCELLED (tcc_branch st) |},
              None)
    end.

(** [recoverArgs]: the placeholder bundle of the source. *)
Definition recoverArgs (txID : string) : Args :=
  {[ "item_id" := VInt 1; "quantity" := VInt 1; "user_id" := VInt 1;
     "order_id" := VString "example"; "amount" := VFloat64 25 2 ]}.

(** WHERE status IN ('TRYING', 'TRIED', 'CONFIRMING', 'CANCELLING') AND
    create_time < NOW() - INTERVAL 5 MINUTE *)
Definition due (now : Z) (r : TxTable.Row) : bool :=
  Tx.non_terminal (TxTable.status r) && (TxTable.create_time r <? now - 300).

(** The rows of the query of [Compensate], as (tx_id, status). *)
Definition select_due (now : Z) (tbl : gmap string TxTable.Row)
    : list (string * Tx.status) :=
  omap (fun '(txID, r) => if due now r then Some (txID, TxTable.status r) else None)
       (map_to_list tbl).

(** The coordinator method the switch of [Compensate] calls. *)
Inductive action := CallConfirm | CallCancel.

Definition redrive (status : Tx.status) : option action :=
  match status with
  | Tx.TRYING => Some CallCancel
  | Tx.TRIED => Some CallConfirm
  | Tx.CONFIRMING => Some CallConfirm
  | Tx.CANCELLING => Some CallCancel
  | _ => None
  end.

(** The body of [for rows.Next()]: one selected row after the other;
    [order_of txID] is the iteration order of [c.resources] in the call
    made for [txID].  A failure of the call is logged and the loop goes
    on. *)
Fixpoint redrive_rows (resources : gmap string ResourceManager)
    (order_of : string → list string) (now : Z)
    (rows : list (string * Tx.status)) (st : State)
    : outcome (State * list (string * action * option error)) :=
  match rows with
  | [] => Done (st, [])
  | (txID, status) :: rest =>
      let args := recoverArgs txID in
      match redrive status with
      | None => redrive_rows resources order_of now rest st
      | Some a =>
          '(st1, res) ←
            match a with
            | CallConfirm => Confirm resources (order_of txID) now txID args st
            | CallCancel => Cancel resources (order_of txID) now txID args st
            end;
          '(st2, evs) ← redrive_rows resources order_of now rest st1;
          Done (st2, (txID, a, res) :: evs)
      end
  end.

(** One round of the loop of [Compensate], run at server time [now]. *)
Definition Compensate_round (resources : gmap string ResourceManager)
    (order_of : string → list string) (now : Z) (st : State)
    : outcome (State * list (string * action * option error)) :=
  redrive_rows resources order_of now (select_due now (tcc_transaction st)) st.

End Standard.

(** ** The SQL design script: recovery statements *)

Module DesignScript.

(** WHERE status IN ('TRYING','TRIED','CONFIRMING','CANCELLING') AND
    retry_count < max_retry AND NOW() < timeout_time; a NULL timeout_time
    makes the comparison unknown and the row is not selected. *)
Definition selectable (now : Z) (r : TxTable.Row) : bool :=
  Tx.non_terminal (TxTable.status r)
  && (TxTable.retry_count r <? TxTable.max_retry r)
  && match TxTable.timeout_time r with
     | Some t => now <? t
     | None => false
     end.

(** ORDER BY update_time, by insertion. *)
Fixpoint insert_by_update_time (x : string * TxTable.Row)
    (l : list (string * TxTable.Row)) : list (string * TxTable.Row) :=
  match l with
  | [] => [x]
  | y :: l' =>
      if TxTable.update_time (snd x) <=? TxTable.update_time (snd y)
      then x :: l
      else y :: insert_by_update_time x l'
  end.

Definition order_by_update_time (l : list (string * TxTable.Row))
    : list (string * TxTable.Row) :=
  foldr insert_by_update_time [] l.

(** SELECT * FROM tcc_transaction WHERE ... ORDER BY update_time LIMIT 100 *)
Definition sweep_query (now : Z) (tbl : gmap string TxTable.Row)
    : list (string * TxTable.Row) :=
  take 100 (order_by_update_time
              (filter (fun p => selectable now (snd p) = true) (map_to_list tbl))).

(** The case analysis under the query. *)
Inductive action := CallConfirm | CallCancel.

Definition redrive (status : Tx.status) : option action :=
  match status with
  | Tx.TRYING => Some CallCancel
  | Tx.TRIED => Some CallConfirm
  | Tx.CONFIRMING => Some CallConfirm
  | Tx.CANCELLING => Some CallCancel
  | _ => None
  end.

(** UPDATE tcc_transaction SET status='FAILED', error_message=
    'transaction timeout' WHERE tx_id=? AND NOW() > timeout_time *)
Definition mark_timeout (now : Z) (txID : string) (tbl : gmap string TxTable.Row)
    : gmap string TxTable.Row :=
  alter (fun r =>
           match TxTable.timeout_time r with
           | Some t =>
               if t <? now
               then {| TxTable.status := Tx.FAILED;
                       TxTable.retry_count := TxTable.retry_count r;
                       TxTable.max_retry := TxTable.max_retry r;
                       TxTable.timeout_time := TxTable.timeout_time r;
                       TxTable.error_message := Some "transaction timeout"%string;
                       TxTable.create_time := TxTable.create_time r;
                       TxTable.update_time := now |}
               else r
           | None => r
           end) txID tbl.

End DesignScript.

(** ** trans/tcc/seckill_tcc.go: the order resource *)

Module SeckillOrder.
Import SeckillTCC.

(** seckill_orders.status *)
Inductive OrderStatus := PENDING | ORDER_CONFIRMED | ORDER_CANCELLED.

(** Row of seckill_orders (no unique key); price and total_amount
    (float64, DECIMAL) are written once and never read. *)
Record OrderRow := {
  o_transaction_id : string;
  o_user_id : Z;
  o_product_id : Z;
  o_quantity : Z;
  o_status : OrderStatus
}.

(** The tables behind the one *sql.DB of [main]: those of the inventory
    resource and seckill_orders. *)
Record Store := {
  inventory_tables : DB;
  seckill_orders : list OrderRow
}.

(** WHERE transaction_id = ? AND user_id = ? *)
Definition of_order (tx : string) (uid : Z) (r : OrderRow) : bool :=
  String.eqb (o_transaction_id r) tx && (o_user_id r =? uid).

Definition set_order_status (st : OrderStatus) (r : OrderRow) : OrderRow :=
  {| o_transaction_id := o_transaction_id r; o_user_id := o_user_id r;
     o_product_id := o_product_id r; o_quantity := o_quantity r; o_status := st |}.

(** UPDATE seckill_orders SET status = ? WHERE transaction_id = ? AND
    user_id = ? *)
Definition update_order_status (tx : string) (uid : Z) (st : OrderStatus)
    (rows : list OrderRow) : list OrderRow :=
  map (fun r => if of_order tx uid r then set_order_status st r else r) rows.

(** [SeckillOrderResource.Try] *)
Definition Order_Try (ctx : SeckillTCCContext) (s : Store) : Store * option error :=
  ({| inventory_tables := inventory_tables s;
      seckill_orders :=
        seckill_orders s ++
        [{| o_transaction_id := TransactionID ctx; o_user_id := UserID ctx;
            o_product_id := ProductID ctx; o_quantity := Quantity ctx;
            o_status := PENDING |}] |}, None).

(** [SeckillOrderResource.Confirm] *)
Definition Order_Confirm (ctx : SeckillTCCContext) (s : Store) : Store * option error :=
  ({| inventory_tables := inventory_tables s;
      seckill_orders :=
        update_order_status (TransactionID ctx) (UserID ctx) ORDER_CONFIRMED
                            (seckill_orders s) |}, None).

(** [SeckillOrderResource.Cancel] *)
Definition Order_Cancel (ctx : SeckillTCCContext) (s : Store) : Store * option error :=
  ({| inventory_tables := inventory_tables s;
      seckill_orders :=
        update_order_status (TransactionID ctx) (UserID ctx) ORDER_CANCELLED
                            (seckill_orders s) |}, None).

(** A method of the inventory resource, on the whole store. *)
Definition on_inventory (f : SeckillTCCContext → DB → DB * option error)
    (ctx : SeckillTCCContext) (s : Store) : Store * option error :=
  let '(db, res) := f ctx (inventory_tables s) in
  ({| inventory_tables := db; seckill_orders := seckill_orders s |}, res).

(** [NewSeckillInventoryResource(db)] and [NewSeckillOrderResource(db)] *)
Definition InventoryResource : SeckillTCCResource Store :=
  {| rTry := on_inventory Try; rConfirm := on_inventory Confirm;
     rCancel := on_inventory Cancel |}.

Definition OrderResource : SeckillTCCResource Store :=
  {| rTry := Order_Try; rConfirm := Order_Confirm; rCancel := Order_Cancel |}.

End SeckillOrder.

(** ** The direct-deduction prototype: order resource and recovery *)

Module DirectRecovery.
Import Go Direct.

(** seckill_order.status *)
Inductive OrderStatus := PENDING | ORDER_CONFIRMED | ORDER_CANCELLED.

(** Row of seckill_order; transaction_id is UNIQUE and is the map key;
    unit_price and total_amount (float64, DECIMAL) are left out. *)
Record OrderRow := {
  o_user_id : Z;
  o_product_id : Z;
  o_quantity : Z;
  o_status : OrderStatus
}.

Inductive order_error :=
| ErrNoOrder                         (* 未找到订单，无法执行Confirm *)
| ErrOrderState (st : OrderStatus).  (* 订单状态异常，当前状态: %s *)

Definition set_order_status (st : OrderStatus) (r : OrderRow) : OrderRow :=
  {| o_user_id := o_user_id r; o_product_id := o_product_id r;
     o_quantity := o_quantity r; o_status := st |}.

(** [DirectOrderResource.Try] *)
Definition Order_Try (ctx : SeckillDirectTCCContext) (orders : gmap string OrderRow)
    : gmap string OrderRow * option order_error :=
  match orders !! TransactionID ctx with
  | Some _ => (orders, None)
  | None =>
      (<[TransactionID ctx := {| o_user_id := UserID ctx; o_product_id := ProductID ctx;
                                 o_quantity := Quantity ctx; o_status := PENDING |}]> orders,
       None)
  end.

(** [DirectOrderResource.Confirm] *)
Definition Order_Confirm (ctx : SeckillDirectTCCContext) (orders : gmap string OrderRow)
    : gmap string OrderRow * option order_error :=
  match orders !! TransactionID ctx with
  | None => (orders, Some ErrNoOrder)
  | Some r =>
      match o_status r with
      | ORDER_CONFIRMED => (orders, None)
      | ORDER_CANCELLED => (orders, Some (ErrOrderState ORDER_CANCELLED))
      | PENDING =>
          (<[TransactionID ctx := set_order_status ORDER_CONFIRMED r]> orders, None)
      end
  end.

(** [DirectOrderResource.Cancel] *)
Definition Order_Cancel (ctx : SeckillDirectTCCContext) (orders : gmap string OrderRow)
    : gmap string OrderRow * option order_error :=
  match orders !! TransactionID ctx with
  | None => (orders, None)
  | Some r =>
      match o_status r with
      | ORDER_CANCELLED => (orders, None)
      | _ => (<[TransactionID ctx := set_order_status ORDER_CANCELLED r]> orders, None)
      end
  end.

(** [buildRecoveryContext]: the context is read back from the order of
    the transaction; without one the recovery of the transaction fails. *)
Definition buildRecoveryContext (transactionID : string) (orders : gmap string OrderRow)
    : option SeckillDirectTCCContext :=
  match orders !! transactionID with
  | Some r => Some {| TransactionID := transactionID; UserID := o_user_id r;
                      ProductID := o_product_id r; Quantity := o_quantity r |}
  | None => None
  end.

Section Recovery.
Context {S : Type}.

(** [isResourceTryCompleted], [isResourceConfirmCompleted] and
    [isResourceCancelCompleted]: COUNT( * ) > 0 over the rows of the slot. *)
Definition isResourceCompleted (ph : phase) (tx : string) (i : nat)
    (st : State S) : bool :=
  existsb (same_slot tx i ph) (tcc_resource_status st).

(** [recoverFromCancelPhase], from index [i] on; the error of a Cancel is
    dropped and the resource is marked all the same. *)
Fixpoint recoverCancelFrom (rs : list (DirectTCCResource S)) (i : nat)
    (ctx : SeckillDirectTCCContext) (st : State S) : outcome (State S * list event) :=
  match rs with
  | [] => Done (st, [])
  | r :: rs' =>
      if isResourceCompleted PhaseCancel (TransactionID ctx) i st
      then recoverCancelFrom rs' (Datatypes.S i) ctx st
      else
        let '(st1, _) := run (rCancel r) ctx st in
        st1' ← markResourceCompleted PhaseCancel (TransactionID ctx) i st1;
        '(st2, evs) ← recoverCancelFrom rs' (Datatypes.S i) ctx st1';
        Done (st2, Call OpCancel i :: evs)
  end.

Definition recoverFromCancelPhase (rs : list (DirectTCCResource S))
    (ctx : SeckillDirectTCCContext) (st : State S) : outcome (State S * list event) :=
  recoverCancelFrom rs 0%nat ctx st.

(** [recoverFromConfirmPhase], from index [i] on; it returns the error of
    the first Confirm that fails. *)
Fixpoint recoverConfirmFrom (rs : list (DirectTCCResource S)) (i : nat)
    (ctx : SeckillDirectTCCContext) (st : State S)
    : outcome (State S * list event * option error) :=
  match rs with
  | [] => Done (st, [], None)
  | r :: rs' =>
      if isResourceCompleted PhaseConfirm (TransactionID ctx) i st
      then recoverConfirmFrom rs' (Datatypes.S i) ctx st
      else
        match run (rConfirm r) ctx st with
        | (st1, Some e) =>
            Done (st1, [Call OpConfirm i; LogFailure OpConfirm i e], Some e)
        | (st1, None) =>
            st1' ← markResourceCompleted PhaseConfirm (TransactionID ctx) i st1;
            '(st2, evs, res) ← recoverConfirmFrom rs' (Datatypes.S i) ctx st1';
            Done (st2, Call OpConfirm i :: evs, res)
        end
  end.

Definition recoverFromConfirmPhase (rs : list (DirectTCCResource S))
    (ctx : SeckillDirectTCCContext) (st : State S)
    : outcome (State S * list event * option error) :=
  recoverConfirmFrom rs 0%nat ctx st.

(** The loop of [recoverFromTryPhase], from index [i] on: [all] is the
    whole slice, which the Cancel recovery walks when a Try fails. *)
Fixpoint recoverTryFrom (all rs : list (DirectTCCResource S)) (i : nat)
    (ctx : SeckillDirectTCCContext) (st : State S)
    : outcome (State S * list event * option error) :=
  match rs with
  | [] =>
      recoverFromConfirmPhase all ctx
        (logTCCTransaction (TransactionID ctx) TCCStatusConfirmed st)
  | r :: rs' =>
      if isResourceCompleted PhaseTry (TransactionID ctx) i st
      then recoverTryFrom all rs' (Datatypes.S i) ctx st
      else
        match run (rTry r) ctx st with
        | (st1, Some e) =>
            '(st2, evs) ← recoverFromCancelPhase all ctx
                             (logTCCTransaction (TransactionID ctx) TCCStatusCancelled st1);
            Done (st2, Call OpTry i :: LogFailure OpTry i e :: evs, None)
        | (st1, None) =>
            st1' ← markResourceCompleted PhaseTry (TransactionID ctx) i st1;
            '(st2, evs, res) ← recoverTryFrom all rs' (Datatypes.S i) ctx st1';
            Done (st2, Call OpTry i :: evs, res)
        end
  end.

(** [recoverFromTryPhase] *)
Definition recoverFromTryPhase (rs : list (DirectTCCResource S))
    (ctx : SeckillDirectTCCContext) (st : State S)
    : outcome (State S * list event * option error) :=
  recoverTryFrom rs rs 0%nat ctx st.

(** The switch of [recoverSingleTransaction], for the status read from
    tcc_transaction_log and the context built from the order. *)
Definition recoverByStatus (rs : list (DirectTCCResource S))
    (mainStatus : TCCTransactionStatus) (ctx : SeckillDirectTCCContext) (st : State S)
    : outcome (State S * list event * option error) :=
  match mainStatus with
  | TCCStatusTried => recoverFromTryPhase rs ctx st
  | TCCStatusConfirmed => recoverFromConfirmPhase rs ctx st
  | TCCStatusCancelled =>
      '(st1, evs) ← recoverFromCancelPhase rs ctx st;
      Done (st1, evs, None)
  end.
End Recovery.

End DirectRecovery.

(** * Vocabulary of the properties *)

(** ** seckill_tcc.go *)

Module SeckillTCCSpec.
Import SeckillTCC.

(** No freeze record of this transaction and product is in the table. *)
Definition fresh (ctx : SeckillTCCContext) (db : DB) : Prop :=
  ∀ r, r ∈ seckill_inventory_freeze db →
       same_branch (TransactionID ctx) (ProductID ctx) r = false.

(** What a record holds of the frozen stock of product [pid]. *)
Definition contribution (pid : Z) (r : FreezeRow) : Z :=
  if (product_id r =? pid) && status_eqb (status r) FROZEN
  then quantity r else 0.

Fixpoint frozen_records (pid : Z) (rows : list FreezeRow) : Z :=
  match rows with
  | [] => 0
  | r :: rows' => contribution pid r + frozen_records pid rows'
  end.

(** The state the operations keep: recorded quantities are not negative,
    no product has negative stock, and the frozen stock of a product
    covers its FROZEN records. *)
Definition consistent (db : DB) : Prop :=
  (∀ r, r ∈ seckill_inventory_freeze db → 0 ≤ quantity r) ∧
  (∀ pid row, seckill_inventory db !! pid = Some row →
              0 ≤ stock row ∧
              frozen_records pid (seckill_inventory_freeze db) ≤ frozen_stock row).

(** available + frozen + sold of a product: the total of the spec. *)
Definition partition_sum (db : DB) (pid : Z) : option Z :=
  (fun row => stock row + frozen_stock row + sold_stock row)
    <$> seckill_inventory db !! pid.

Definition perform (o : op) : SeckillTCCContext → DB → DB * option error :=
  match o with
  | OpTry => Try
  | OpConfirm => Confirm
  | OpCancel => Cancel
  end.

(** A history of calls on the inventory resource, first call first. *)
Fixpoint perform_all (steps : list (op * SeckillTCCContext)) (db : DB) : DB :=
  match steps with
  | [] => db
  | (o, ctx) :: steps' => perform_all steps' (fst (perform o ctx db))
  end.

(** No Try of the history asks for a negative quantity. *)
Definition sane (steps : list (op * SeckillTCCContext)) : Prop :=
  ∀ o ctx, (o, ctx) ∈ steps → o = OpTry → 0 ≤ Quantity ctx.

(** The calls of a run, without the log lines. *)
Fixpoint calls (evs : list event) : list (op * nat) :=
  match evs with
  | [] => []
  | Call o i :: evs' => (o, i) :: calls evs'
  | LogFailure _ _ _ :: evs' => calls evs'
  end.

(** Operation [o] on the resources i, i+1, ..., i+k-1, in this order. *)
Definition sweep_of (o : op) (i k : nat) : list (op * nat) :=
  map (pair o) (seq i k).

(** The two phases have the same shape: the calls run up the slice and
    stop at the first failure, which is logged. *)
Definition phase_shape {St : Type} (o : op) (i n : nat)
    (out : St * list event * option error) : Prop :=
  match out with
  | (_, evs, None) => calls evs = sweep_of o i n
  | (_, evs, Some e) =>
      ∃ k, (k < n)%nat ∧ calls evs = sweep_of o i (S k)
           ∧ LogFailure o (i + k) e ∈ evs
  end.

(** After a Confirm call the run has no Cancel call. *)
Definition confirm_bars_cancel (cs : list (op * nat)) : Prop :=
  ∀ l1 l2 i j, cs = l1 ++ (OpConfirm, i) :: l2 → (OpCancel, j) ∉ l2.

(** A resource whose Confirm reports a failed commit; Try and Cancel
    succeed. *)
Definition commit_fails : SeckillTCCResource DB :=
  {| rTry := fun _ db => (db, None);
     rConfirm := fun _ db => (db, Some ErrCommit);
     rCancel := fun _ db => (db, None) |}.

(** The store after the Try of each resource of [rs], one after the
    other, and after the Cancel of each. *)
Definition tried {St : Type} (rs : list (SeckillTCCResource St))
    (ctx : SeckillTCCContext) (s : St) : St :=
  fold_left (fun s r => fst (rTry r ctx s)) rs s.

Definition cancelled {St : Type} (rs : list (SeckillTCCResource St))
    (ctx : SeckillTCCContext) (s : St) : St :=
  fold_left (fun s r => fst (rCancel r ctx s)) rs s.

(** Resource [k] is the first one whose Try fails: the Try of every
    resource before it returns nil, and its own returns [e] and leaves
    the store [s1]. *)
Definition first_failure {St : Type} (rs : list (SeckillTCCResource St))
    (ctx : SeckillTCCContext) (s : St) (k : nat) (s1 : St) (e : error) : Prop :=
  (∀ j r, (j < k)%nat → rs !! j = Some r →
          snd (rTry r ctx (tried (take j rs) ctx s)) = None)
  ∧ ∃ r, rs !! k = Some r ∧ rTry r ctx (tried (take k rs) ctx s) = (s1, Some e).
End SeckillTCCSpec.

(** ** improved_seata_style.go *)

Module ImprovedSeataSpec.
Import ImprovedSeata.

(** No freeze record of this transaction and item is in the table. *)
Definition fresh (args : Args) (db : DB) : Prop :=
  inventory_freeze db !! (tx_id args, item_id args) = None.

(** The managers [NewImprovedCoordinator] registers, without the account
    manager (its amounts are float64). *)
Definition registered : gmap string ResourceManager :=
  {[ "inventory" := InventoryRM; "order" := OrderRM ]}.

(** The manager calls of a run are the same whatever order the map is
    iterated in. *)
Definition fixed_order (resources : gmap string ResourceManager)
    (txID : string) (args : Args) (db : DB) : Prop :=
  ∀ order1 order2,
    map_iteration resources order1 → map_iteration resources order2 →
    snd (fst (StartTransaction resources order1 txID args db))
    = snd (fst (StartTransaction resources order2 txID args db)).
End ImprovedSeataSpec.

(** ** The direct-deduction prototype *)

Module DirectSpec.
Import Direct.

(** No deduct log of this transaction is in the table. *)
Definition fresh (ctx : SeckillDirectTCCContext) (db : DB) : Prop :=
  ∀ r, r ∈ inventory_deduct_log db → of_tx (TransactionID ctx) r = false.

(** The calls of a run, without the log lines. *)
Fixpoint calls (evs : list event) : list (op * nat) :=
  match evs with
  | [] => []
  | Call o i :: evs' => (o, i) :: calls evs'
  | LogFailure _ _ _ :: evs' => calls evs'
  end.

(** Operation [o] on the resources with the given indices, in order. *)
Definition on_each (o : op) (indices : list nat) : list (op * nat) :=
  map (pair o) indices.

(** The transaction is not yet logged as finished: [ExecuteSeckill] does
    not return at its entry check. *)
Definition unfinished {S : Type} (ctx : SeckillDirectTCCContext) (st : State S) : Prop :=
  tcc_transaction_log st !! TransactionID ctx ≠ Some TCCStatusConfirmed ∧
  tcc_transaction_log st !! TransactionID ctx ≠ Some TCCStatusCancelled.

(** The tables of the resources after the Try of each resource of [rs],
    one after the other, and after the Cancel of each. *)
Definition tried {S : Type} (rs : list (DirectTCCResource S))
    (ctx : SeckillDirectTCCContext) (s : S) : S :=
  fold_left (fun s r => fst (rTry r ctx s)) rs s.

Definition cancelled {S : Type} (rs : list (DirectTCCResource S))
    (ctx : SeckillDirectTCCContext) (s : S) : S :=
  fold_left (fun s r => fst (rCancel r ctx s)) rs s.

(** Resource [k] is the first one whose Try fails, with [e], leaving the
    tables [s1]. *)
Definition first_failure {S : Type} (rs : list (DirectTCCResource S))
    (ctx : SeckillDirectTCCContext) (s : S) (k : nat) (s1 : S) (e : error) : Prop :=
  (∀ j r, (j < k)%nat → rs !! j = Some r →
          snd (rTry r ctx (tried (take j rs) ctx s)) = None)
  ∧ ∃ r, rs !! k = Some r ∧ rTry r ctx (tried (take k rs) ctx s) = (s1, Some e).
End DirectSpec.

(** ** seckill_standard.go *)

Module StandardSpec.
Import Standard.

(** TRYING and CANCELLING are re-driven with Cancel, TRIED and CONFIRMING
    with Confirm. *)
Definition expected_action (status : Tx.status) : action :=
  match status with
  | Tx.TRYING | Tx.CANCELLING => CallCancel
  | _ => CallConfirm
  end.
End StandardSpec.

(** ** Idempotence *)

(** A Try that succeeded succeeds again and changes nothing. *)
Definition try_idempotent {C D E : Type} (try : C → D → D * option E) : Prop :=
  ∀ c d d1, try c d = (d1, None) → try c d1 = (d1, None).

(** ** Sample data *)

Module Sample.

(** seckill_tcc.go: product 2001 with ten pieces in stock, as
    [initTestData] inserts it (there with a hundred). *)
Definition seckill_db : SeckillTCC.DB :=
  {| SeckillTCC.seckill_inventory :=
       {[ 2001 := {| SeckillTCC.stock := 10; SeckillTCC.frozen_stock := 0;
                     SeckillTCC.sold_stock := 0 |} ]};
     SeckillTCC.seckill_inventory_freeze := [] |}.

Definition seckill_ctx (q : Z) : SeckillTCC.SeckillTCCContext :=
  {| SeckillTCC.TransactionID := "seckill_1"; SeckillTCC.UserID := 1001;
     SeckillTCC.ProductID := 2001; SeckillTCC.Quantity := q |}.

Definition seckill_record (q : Z) : SeckillTCC.FreezeRow :=
  {| SeckillTCC.transaction_id := "seckill_1"; SeckillTCC.product_id := 2001;
     SeckillTCC.quantity := q; SeckillTCC.status := SeckillTCC.FROZEN |}.

Definition seckill_tried_once : SeckillTCC.DB :=
  fst (SeckillTCC.Try (seckill_ctx 1) seckill_db).

Definition seckill_tried_twice : SeckillTCC.DB :=
  fst (SeckillTCC.Try (seckill_ctx 1) seckill_tried_once).

(** improved_seata_style.go: item 2001, and the bundle of [main]. *)
Definition improved_args : ImprovedSeata.Args :=
  {| ImprovedSeata.tx_id := "tx1"; ImprovedSeata.order_id := "order1";
     ImprovedSeata.user_id := 1001; ImprovedSeata.item_id := 2001;
     ImprovedSeata.quantity := 2 |}.

Definition improved_db : ImprovedSeata.DB :=
  {| ImprovedSeata.seckill_inventory :=
       {[ 2001 := {| ImprovedSeata.total := 10; ImprovedSeata.available := 10 |} ]};
     ImprovedSeata.inventory_freeze := ∅;
     ImprovedSeata.seckill_orders := ∅;
     ImprovedSeata.tcc_transaction := ∅ |}.

(** The same item after the branch of tx1 was cancelled. *)
Definition improved_db_cancelled : ImprovedSeata.DB :=
  {| ImprovedSeata.seckill_inventory :=
       {[ 2001 := {| ImprovedSeata.total := 10; ImprovedSeata.available := 10 |} ]};
     ImprovedSeata.inventory_freeze :=
       {[ ("tx1"%string, 2001) :=
            {| ImprovedSeata.freeze_quantity := 2;
               ImprovedSeata.state := ImprovedSeata.CANCELLED |} ]};
     ImprovedSeata.seckill_orders := ∅;
     ImprovedSeata.tcc_transaction := ∅ |}.

(** The direct prototype: product 1001 with one piece left. *)
Definition direct_db : Direct.DB :=
  {| Direct.seckill_inventory :=
       {[ 1001 := {| Direct.stock := 1; Direct.sold_count := 99;
                     Direct.status := Direct.ACTIVE |} ]};
     Direct.inventory_deduct_log := [] |}.

Definition direct_ctx (q : Z) : Direct.SeckillDirectTCCContext :=
  {| Direct.TransactionID := "single_test_1"; Direct.UserID := 10001;
     Direct.ProductID := 1001; Direct.Quantity := q |}.

(** seckill_standard.go: account 7 with a balance of 500. *)
Definition standard_tables : Standard.Tables :=
  {| Standard.seckill_inventory :=
       {[ 1 := {| Standard.frozen := 1; Standard.available := 4;
                  Standard.total := 5; Standard.i_version := 1 |} ]};
     Standard.account := {[ 7 := {| Standard.balance := 500; Standard.version := 0 |} ]} |}.

(** The tables after item 1 was confirmed with quantity 1. *)
Definition standard_tables_confirmed : Standard.Tables :=
  {| Standard.seckill_inventory :=
       {[ 1 := {| Standard.frozen := 0; Standard.available := 4;
                  Standard.total := 4; Standard.i_version := 2 |} ]};
     Standard.account := {[ 7 := {| Standard.balance := 500; Standard.version := 0 |} ]} |}.

Definition standard_args : Standard.Args :=
  {[ "account_id" := Go.VInt 7; "amount" := Go.VInt 100 ]}.

(** A transaction left in TRIED at time 0, out of retries, whose timeout
    passed at time 100. *)
Definition stale_row : TxTable.Row :=
  {| TxTable.status := Tx.TRIED; TxTable.retry_count := 5; TxTable.max_retry := 5;
     TxTable.timeout_time := Some 100; TxTable.error_message := None;
     TxTable.create_time := 0; TxTable.update_time := 0 |}.

Definition standard_state : Standard.State :=
  {| Standard.tables := standard_tables;
     Standard.tcc_transaction := {[ "tx9"%string := stale_row ]};
     Standard.tcc_branch := [] |}.

Definition standard_resources : gmap string Standard.ResourceManager :=
  {[ "inventory"%string := Standard.InventoryRM ]}.

(** seckill_tcc.go: the inventory resource followed by a resource whose
    Confirm fails. *)
Definition seckill_resources : list (SeckillTCC.SeckillTCCResource SeckillTCC.DB) :=
  [SeckillTCC.SeckillInventoryResource; SeckillTCCSpec.commit_fails].

Definition seckill_run :=
  SeckillTCC.ExecuteSeckillTCC seckill_resources (seckill_ctx 1) seckill_db.

(** The direct prototype: the latest row is the last one inserted. *)
Definition direct_latest (l : list Direct.DeductLog) : option Direct.DeductLog :=
  last l.

Definition direct_state : Direct.State Direct.DB :=
  {| Direct.resource_tables := direct_db;
     Direct.tcc_transaction_log := ∅;
     Direct.tcc_resource_status := [] |}.

End Sample.

(** ** Vocabulary of the further properties *)

Module MoreSpec.

(** seckill_tcc.go: no order of this transaction and user is in the table. *)
Definition no_order (ctx : SeckillTCC.SeckillTCCContext) (s : SeckillOrder.Store) : Prop :=
  ∀ r, r ∈ SeckillOrder.seckill_orders s →
       SeckillOrder.of_order (SeckillTCC.TransactionID ctx) (SeckillTCC.UserID ctx) r = false.

(** seckill_tcc.go: the freeze record and the order a context leads to. *)
Definition freeze_record (ctx : SeckillTCC.SeckillTCCContext) (st : SeckillTCC.FreezeStatus)
    : SeckillTCC.FreezeRow :=
  {| SeckillTCC.transaction_id := SeckillTCC.TransactionID ctx;
     SeckillTCC.product_id := SeckillTCC.ProductID ctx;
     SeckillTCC.quantity := SeckillTCC.Quantity ctx;
     SeckillTCC.status := st |}.

Definition order_of (ctx : SeckillTCC.SeckillTCCContext) (st : SeckillOrder.OrderStatus)
    : SeckillOrder.OrderRow :=
  {| SeckillOrder.o_transaction_id := SeckillTCC.TransactionID ctx;
     SeckillOrder.o_user_id := SeckillTCC.UserID ctx;
     SeckillOrder.o_product_id := SeckillTCC.ProductID ctx;
     SeckillOrder.o_quantity := SeckillTCC.Quantity ctx;
     SeckillOrder.o_status := st |}.

(** The resources of [main], without the account resource (float64). *)
Definition seckill_resources : list (SeckillTCC.SeckillTCCResource SeckillOrder.Store) :=
  [SeckillOrder.InventoryResource; SeckillOrder.OrderResource].

(** The direct prototype: every transaction has at most one deduct log. *)
Definition log_unique (db : Direct.DB) : Prop :=
  ∀ tx, (length (filter (fun r => Direct.of_tx tx r = true)
                        (Direct.inventory_deduct_log db)) ≤ 1)%nat.

(** The direct prototype: the deduct log a context leads to. *)
Definition deduct_log (ctx : Direct.SeckillDirectTCCContext) (t : Direct.OperationType)
    : Direct.DeductLog :=
  {| Direct.transaction_id := Direct.TransactionID ctx;
     Direct.product_id := Direct.ProductID ctx;
     Direct.quantity := Direct.Quantity ctx;
     Direct.operation_type := t |}.

(** seckill_standard.go: for every item, available + frozen = total. *)
Definition balanced (t : Standard.Tables) : Prop :=
  ∀ itemID row, Standard.seckill_inventory t !! itemID = Some row →
                Standard.available row + Standard.frozen row = Standard.total row.

(** The design script: [x] was not updated after [y]. *)
Definition older (x y : string * TxTable.Row) : Prop :=
  TxTable.update_time x.2 ≤ TxTable.update_time y.2.

(** The design script: rows in ascending order of update_time. *)
Definition by_update_time (l : list (string * TxTable.Row)) : Prop :=
  ∀ i j x y, l !! i = Some x → l !! j = Some y → (i ≤ j)%nat →
             TxTable.update_time x.2 ≤ TxTable.update_time y.2.

End MoreSpec.

(** ** Further sample data *)

Module MoreSample.

Definition seckill_store : SeckillOrder.Store :=
  {| SeckillOrder.inventory_tables := Sample.seckill_db;
     SeckillOrder.seckill_orders := [] |}.

(** improved_seata_style.go: transaction tx1 after StartTransaction, and
    after Confirm. *)
Definition improved_started : ImprovedSeata.DB :=
  fst (fst (ImprovedSeata.StartTransaction ImprovedSeataSpec.registered
              ["inventory"; "order"]%string "tx1" Sample.improved_args Sample.improved_db)).

Definition improved_confirmed : ImprovedSeata.DB :=
  fst (fst (ImprovedSeata.Confirm ImprovedSeataSpec.registered
              ["inventory"; "order"]%string "tx1" Sample.improved_args improved_started)).

(** The direct prototype: the state a run of [ExecuteSeckill] ends in
    ([st] itself if the run panics). *)
Definition direct_after {S : Type} (rs : list (Direct.DirectTCCResource S))
    (ctx : Direct.SeckillDirectTCCContext) (st : Direct.State S) : Direct.State S :=
  match Direct.ExecuteSeckill rs ctx st with
  | Go.Done (st', _, _) => st'
  | Go.Panic => st
  end.

Definition direct_resources : list (Direct.DirectTCCResource Direct.DB) :=
  [Direct.DirectInventoryResource Sample.direct_latest].

(** The state after the Try phase of a run. *)
Definition direct_tried : Direct.State Direct.DB :=
  match Direct.tryResources direct_resources (Sample.direct_ctx 1) Sample.direct_state with
  | Go.Done (st1, _, _) => st1
  | Go.Panic => Sample.direct_state
  end.

(** A state found after a crash in the Cancel phase: resource 0 is marked,
    resource 1 is not. *)
Definition direct_half_cancelled : Direct.State Direct.DB :=
  {| Direct.resource_tables := Sample.direct_db;
     Direct.tcc_transaction_log := {[ "single_test_1"%string := Direct.TCCStatusCancelled ]};
     Direct.tcc_resource_status :=
       [{| Direct.rs_transaction_id := "single_test_1"; Direct.rs_resource_type := "inventory";
           Direct.rs_resource_index := 0; Direct.rs_phase := Direct.PhaseCancel |}] |}.

(** The direct prototype: the order table after the Try of the order
    resource. *)
Definition direct_orders : gmap string DirectRecovery.OrderRow :=
  fst (DirectRecovery.Order_Try (Sample.direct_ctx 1) ∅).

(** seckill_standard.go: a bundle for item 1, as [main] builds it. *)
Definition standard_item_args (q : Z) : Standard.Args :=
  {[ "item_id" := Go.VInt 1; "quantity" := Go.VInt q ]}.

(** A transaction left in CONFIRMING at time 0. *)
Definition confirming_row : TxTable.Row :=
  {| TxTable.status := Tx.CONFIRMING; TxTable.retry_count := 0; TxTable.max_retry := 5;
     TxTable.timeout_time := None; TxTable.error_message := None;
     TxTable.create_time := 0; TxTable.update_time := 0 |}.

Definition standard_stuck : Standard.State :=
  {| Standard.tables := Sample.standard_tables;
     Standard.tcc_transaction := {[ "tx8"%string := confirming_row ]};
     Standard.tcc_branch := [] |}.

(** The design script: a transaction in TRIED whose timeout (time 100)
    lies ahead at time 50. *)
Definition live_row : TxTable.Row :=
  {| TxTable.status := Tx.TRIED; TxTable.retry_count := 0; TxTable.max_retry := 5;
     TxTable.timeout_time := Some 100; TxTable.error_message := None;
     TxTable.create_time := 0; TxTable.update_time := 10 |}.

Definition live_table : gmap string TxTable.Row := {[ "tx7"%string := live_row ]}.

End MoreSample.

(** * Properties *)

Section SeckillTCCFacts.
Import SeckillTCC SeckillTCCSpec.

Lemma same_branch_self (ctx : SeckillTCCContext) (q : Z) (st : FreezeStatus) :
  same_branch (TransactionID ctx) (ProductID ctx)
    {| transaction_id := TransactionID ctx; product_id := ProductID ctx;
       quantity := q; status := st |} = true.
Proof.
  unfold same_branch; simpl.
  rewrite String.eqb_refl, Z.eqb_refl. reflexivity.
Qed.

Lemma find_app_last {A : Type} (p : A → bool) (l : list A) (x : A) :
  (∀ y, y ∈ l → p y = false) → p x = true → find p (l ++ [x]) = Some x.
Proof.
  intros Hl Hx. induction l as [|y l IH]; simpl.
  - rewrite Hx. reflexivity.
  - rewrite (Hl y) by (left).
    apply IH. intros z Hz. apply Hl. right. exact Hz.
Qed.

(** A successful Try is the guarded update followed by the insert. *)
Lemma Try_success (ctx : SeckillTCCContext) (db db1 : DB) :
  Try ctx db = (db1, None) →
  ∃ row, seckill_inventory db !! ProductID ctx = Some row
         ∧ Quantity ctx ≤ stock row
         ∧ db1 = {| seckill_inventory :=
                      <[ProductID ctx := {| stock := stock row - Quantity ctx;
                                            frozen_stock := frozen_stock row + Quantity ctx;
                                            sold_stock := sold_stock row |}]>
                        (seckill_inventory db);
                    seckill_inventory_freeze :=
                      seckill_inventory_freeze db ++
                      [{| transaction_id := TransactionID ctx;
                          product_id := ProductID ctx;
                          quantity := Quantity ctx;
                          status := FROZEN |}] |}.
Proof.
  unfold Try, exec_freeze_stock. intros H.
  destruct (seckill_inventory db !! ProductID ctx) as [row|] eqn:Hrow; [|discriminate].
  exists row. split; [reflexivity|].
  destruct (stock row <? Quantity ctx) eqn:Hlt; [discriminate|].
  apply Z.ltb_ge in Hlt.
  destruct (Quantity ctx <=? stock row) eqn:Hle; simpl in H.
  - inversion H. split; [exact Hlt | reflexivity].
  - discriminate.
Qed.

Lemma seckill_try_insufficient (ctx : SeckillTCCContext) (db : DB) (row : InventoryRow) :
  seckill_inventory db !! ProductID ctx = Some row →
  stock row < Quantity ctx →
  Try ctx db = (db, Some (ErrInsufficient (stock row) (Quantity ctx))).
Proof.
  intros Hrow Hlt. unfold Try. rewrite Hrow. simpl.
  apply Z.ltb_lt in Hlt. rewrite Hlt. reflexivity.
Qed.

Lemma seckill_try_cancel_roundtrip (ctx : SeckillTCCContext) (db db1 : DB) :
  fresh ctx db →
  Try ctx db = (db1, None) →
  ∃ db2, Cancel ctx db1 = (db2, None)
         ∧ seckill_inventory db2 = seckill_inventory db.
Proof.
  intros Hfresh Htry.
  destruct (Try_success _ _ _ Htry) as (row & Hrow & Hle & ->).
  unfold Cancel; simpl.
  rewrite find_app_last.
  - simpl. eexists. split; [reflexivity|]. simpl.
    rewrite alter_insert_eq. simpl.
    replace (stock row - Quantity ctx + Quantity ctx) with (stock row) by lia.
    replace (frozen_stock row + Quantity ctx - Quantity ctx) with (frozen_stock row) by lia.
    destruct row. simpl. apply insert_id. exact Hrow.
  - intros y Hy. rewrite (Hfresh y Hy). reflexivity.
  - rewrite same_branch_self. reflexivity.
Qed.

(** *** The partition of the stock *)

Lemma frozen_records_app (pid : Z) (l1 l2 : list FreezeRow) :
  frozen_records pid (l1 ++ l2) = frozen_records pid l1 + frozen_records pid l2.
Proof. induction l1 as [|r l1 IH]; simpl; [reflexivity | rewrite IH; lia]. Qed.

Lemma contribution_set_status (pid : Z) (st : FreezeStatus) (r : FreezeRow) :
  st ≠ FROZEN → contribution pid (set_status st r) = 0.
Proof.
  intros Hst. unfold contribution, set_status; simpl.
  destruct st; [congruence | |]; simpl; rewrite andb_false_r; reflexivity.
Qed.

Lemma contribution_nonneg (pid : Z) (r : FreezeRow) :
  0 ≤ quantity r → 0 ≤ contribution pid r.
Proof. intros H. unfold contribution. case_match; lia. Qed.

Lemma frozen_records_nonneg (pid : Z) (rows : list FreezeRow) :
  (∀ r, r ∈ rows → 0 ≤ quantity r) → 0 ≤ frozen_records pid rows.
Proof.
  induction rows as [|r rows IH]; simpl; intros H; [lia|].
  pose proof (contribution_nonneg pid r (H r ltac:(left))).
  pose proof (IH (fun x Hx => H x ltac:(right; exact Hx))). lia.
Qed.

(** Moving the records of a branch out of FROZEN never raises the frozen
    total of a product. *)
Lemma frozen_records_update_le (pid : Z) (tx : string) (p : Z)
    (st : FreezeStatus) (rows : list FreezeRow) :
  st ≠ FROZEN →
  (∀ r, r ∈ rows → 0 ≤ quantity r) →
  frozen_records pid (update_freeze_status tx p st rows) ≤ frozen_records pid rows.
Proof.
  intros Hst. induction rows as [|r rows IH]; simpl; intros H; [lia|].
  pose proof (IH (fun x Hx => H x ltac:(right; exact Hx))).
  pose proof (contribution_nonneg pid r (H r ltac:(left))).
  destruct (same_branch tx p r).
  - rewrite contribution_set_status by exact Hst. lia.
  - lia.
Qed.

(** ... and lowers it by at least the quantity of a FROZEN record of the
    branch. *)
Lemma frozen_records_update_found (tx : string) (p : Z) (st : FreezeStatus)
    (rows : list FreezeRow) (r : FreezeRow) :
  st ≠ FROZEN →
  (∀ x, x ∈ rows → 0 ≤ quantity x) →
  r ∈ rows → same_branch tx p r = true → status r = FROZEN →
  frozen_records p (update_freeze_status tx p st rows) + quantity r
  ≤ frozen_records p rows.
Proof.
  intros Hst. induction rows as [|x rows IH]; simpl; intros H Hin Hsame Hfr.
  - inversion Hin.
  - pose proof (contribution_nonneg p x (H x ltac:(left))) as Hx.
    assert (Hrest : ∀ y, y ∈ rows → 0 ≤ quantity y)
      by (intros y Hy; apply H; right; exact Hy).
    apply elem_of_cons in Hin as [<- | Hin].
    + rewrite Hsame. rewrite contribution_set_status by exact Hst.
      pose proof (frozen_records_update_le p tx p st rows Hst Hrest).
      assert (contribution p r = quantity r) as ->; [|lia].
      unfold contribution. unfold same_branch in Hsame.
      apply andb_true_iff in Hsame as [_ ->]. rewrite Hfr. reflexivity.
    + specialize (IH Hrest Hin Hsame Hfr).
      destruct (same_branch tx p x).
      * rewrite contribution_set_status by exact Hst. lia.
      * lia.
Qed.

Lemma update_freeze_status_quantity (tx : string) (p : Z) (st : FreezeStatus)
    (rows : list FreezeRow) :
  (∀ r, r ∈ rows → 0 ≤ quantity r) →
  ∀ r, r ∈ update_freeze_status tx p st rows → 0 ≤ quantity r.
Proof.
  intros H r Hr. unfold update_freeze_status in Hr.
  apply list_elem_of_fmap in Hr as (x & -> & Hx).
  specialize (H x Hx). destruct (same_branch tx p x); simpl; exact H.
Qed.

Lemma find_freeze_row (f : FreezeRow → bool) (rows : list FreezeRow) (r : FreezeRow) :
  find f rows = Some r → r ∈ rows ∧ f r = true.
Proof.
  intros H. apply find_some in H as [Hin Hf].
  split; [apply list_elem_of_In; exact Hin | exact Hf].
Qed.

(** Every operation keeps available + frozen + sold of every product. *)
Lemma perform_partition_sum (o : op) (ctx : SeckillTCCContext) (db : DB) (pid : Z) :
  partition_sum (fst (perform o ctx db)) pid = partition_sum db pid.
Proof.
  unfold partition_sum.
  destruct o; simpl.
  - unfold Try, exec_freeze_stock.
    destruct (seckill_inventory db !! ProductID ctx) as [row|] eqn:Hrow; [|reflexivity].
    simpl. destruct (stock row <? Quantity ctx); [reflexivity|].
    destruct (Quantity ctx <=? stock row); simpl; [|reflexivity].
    destruct (decide (ProductID ctx = pid)) as [<-|Hne].
    + rewrite lookup_insert_eq, Hrow. simpl. f_equal. lia.
    + rewrite lookup_insert_ne by exact Hne. reflexivity.
  - unfold Confirm.
    destruct (find _ _) as [r|]; [|reflexivity]. simpl.
    rewrite lookup_alter.
    destruct (decide (ProductID ctx = pid)) as [<-|Hne]; [|reflexivity].
    destruct (seckill_inventory db !! ProductID ctx); simpl; [f_equal; lia | reflexivity].
  - unfold Cancel.
    destruct (find _ _) as [r|]; [|reflexivity]. simpl.
    destruct (status r); [| |reflexivity];
      rewrite lookup_alter;
      (destruct (decide (ProductID ctx = pid)) as [<-|Hne]; [|reflexivity]);
      (destruct (seckill_inventory db !! ProductID ctx); simpl;
       [f_equal; lia | reflexivity]).
Qed.

Lemma Try_consistent (ctx : SeckillTCCContext) (db : DB) :
  consistent db → 0 ≤ Quantity ctx → consistent (fst (Try ctx db)).
Proof.
  intros [Hq Hinv] Hpos.
  destruct (Try ctx db) as [db1 [e|]] eqn:Htry.
  - assert (db1 = db) as ->; [|split; assumption].
    revert Htry. unfold Try.
    destruct (seckill_inventory db !! ProductID ctx); [|congruence].
    simpl. destruct (_ <? _); [congruence|].
    destruct (exec_freeze_stock _ _ _) as [inv n].
    destruct (n =? 0); congruence.
  - destruct (Try_success _ _ _ Htry) as (row & Hrow & Hle & ->). simpl.
    split; simpl.
    + intros r Hr. apply elem_of_app in Hr as [Hr|Hr]; [apply Hq; exact Hr|].
      apply list_elem_of_singleton in Hr as ->. simpl. exact Hpos.
    + intros pid row' Hrow'. rewrite frozen_records_app. simpl.
      destruct (Hinv _ _ Hrow) as [Hs Hf].
      destruct (decide (ProductID ctx = pid)) as [<-|Hne].
      * rewrite lookup_insert_eq in Hrow'. inversion Hrow'; subst row'; simpl.
        unfold contribution; simpl. rewrite Z.eqb_refl. simpl. lia.
      * rewrite lookup_insert_ne in Hrow' by exact Hne.
        destruct (Hinv _ _ Hrow') as [Hs' Hf'].
        unfold contribution; simpl.
        destruct (ProductID ctx =? pid) eqn:Heq; [apply Z.eqb_eq in Heq; congruence|].
        simpl. lia.
Qed.

Lemma Confirm_consistent (ctx : SeckillTCCContext) (db : DB) :
  consistent db → consistent (fst (Confirm ctx db)).
Proof.
  intros [Hq Hinv]. unfold Confirm.
  destruct (find _ _) as [r|] eqn:Hfind; [|split; assumption]. simpl.
  apply find_freeze_row in Hfind as [Hin Hp].
  apply andb_true_iff in Hp as [Hsame Hst].
  assert (status r = FROZEN) as Hfr by (destruct (status r); simpl in Hst; congruence).
  split; simpl.
  - apply update_freeze_status_quantity. exact Hq.
  - intros pid row' Hrow'. rewrite lookup_alter in Hrow'.
    destruct (decide (ProductID ctx = pid)) as [<-|Hne].
    + destruct (seckill_inventory db !! ProductID ctx) as [row|] eqn:Hrow;
        simpl in Hrow'; [|discriminate].
      inversion Hrow'; subst row'; simpl.
      destruct (Hinv _ _ Hrow) as [Hs Hf].
      pose proof (frozen_records_update_found (TransactionID ctx) (ProductID ctx)
                    CONFIRMED _ r ltac:(discriminate) Hq Hin Hsame Hfr).
      lia.
    + destruct (Hinv _ _ Hrow') as [Hs Hf].
      pose proof (frozen_records_update_le pid (TransactionID ctx) (ProductID ctx)
                    CONFIRMED _ ltac:(discriminate) Hq).
      lia.
Qed.

Lemma Cancel_consistent (ctx : SeckillTCCContext) (db : DB) :
  consistent db → consistent (fst (Cancel ctx db)).
Proof.
  intros [Hq Hinv]. unfold Cancel.
  destruct (find _ _) as [r|] eqn:Hfind; [|split; assumption]. simpl.
  apply find_freeze_row in Hfind as [Hin Hp].
  apply andb_true_iff in Hp as [Hsame Hst].
  pose proof (Hq r Hin) as Hqr.
  split; simpl.
  - apply update_freeze_status_quantity. exact Hq.
  - intros pid row' Hrow'.
    pose proof (frozen_records_update_le pid (TransactionID ctx) (ProductID ctx)
                  CANCELLED _ ltac:(discriminate) Hq) as Hle.
    destruct (status r) eqn:Hfr; simpl in Hst; [| |discriminate].
    + rewrite lookup_alter in Hrow'.
      destruct (decide (ProductID ctx = pid)) as [<-|Hne].
      * destruct (seckill_inventory db !! ProductID ctx) as [row|] eqn:Hrow;
          simpl in Hrow'; [|discriminate].
        inversion Hrow'; subst row'; simpl.
        destruct (Hinv _ _ Hrow) as [Hs Hf].
        pose proof (frozen_records_update_found (TransactionID ctx) (ProductID ctx)
                      CANCELLED _ r ltac:(discriminate) Hq Hin Hsame Hfr).
        lia.
      * destruct (Hinv _ _ Hrow') as [Hs Hf]. lia.
    + rewrite lookup_alter in Hrow'.
      destruct (decide (ProductID ctx = pid)) as [<-|Hne].
      * destruct (seckill_inventory db !! ProductID ctx) as [row|] eqn:Hrow;
          simpl in Hrow'; [|discriminate].
        inversion Hrow'; subst row'; simpl.
        destruct (Hinv _ _ Hrow) as [Hs Hf]. lia.
      * destruct (Hinv _ _ Hrow') as [Hs Hf]. lia.
Qed.

Lemma consistent_nonneg (db : DB) (pid : Z) (row : InventoryRow) :
  consistent db → seckill_inventory db !! pid = Some row →
  0 ≤ stock row ∧ 0 ≤ frozen_stock row.
Proof.
  intros [Hq Hinv] Hrow. destruct (Hinv _ _ Hrow) as [Hs Hf].
  pose proof (frozen_records_nonneg pid _ Hq). lia.
Qed.

Lemma perform_consistent (o : op) (ctx : SeckillTCCContext) (db : DB) :
  consistent db → (o = OpTry → 0 ≤ Quantity ctx) →
  consistent (fst (perform o ctx db)).
Proof.
  intros Hdb Hq. destruct o; simpl.
  - apply Try_consistent; [exact Hdb | apply Hq; reflexivity].
  - apply Confirm_consistent. exact Hdb.
  - apply Cancel_consistent. exact Hdb.
Qed.

Lemma perform_all_partition_sum (steps : list (op * SeckillTCCContext)) (db : DB) (pid : Z) :
  partition_sum (perform_all steps db) pid = partition_sum db pid.
Proof.
  revert db. induction steps as [|[o ctx] steps IH]; intros db; simpl; [reflexivity|].
  rewrite IH. apply perform_partition_sum.
Qed.

Lemma perform_all_consistent (steps : list (op * SeckillTCCContext)) (db : DB) :
  consistent db → sane steps → consistent (perform_all steps db).
Proof.
  revert db. induction steps as [|[o ctx] steps IH]; intros db Hdb Hsane; simpl; [exact Hdb|].
  apply IH.
  - apply perform_consistent; [exact Hdb|]. apply Hsane. left.
  - intros o' ctx' Hin. apply Hsane. right. exact Hin.
Qed.

(** Once the records of a branch are all CANCELLED, Confirm finds no FROZEN
    record: it fails and changes nothing. *)
Lemma Confirm_after_cancel (ctx : SeckillTCCContext) (db : DB) :
  (∀ r, r ∈ seckill_inventory_freeze db →
        same_branch (TransactionID ctx) (ProductID ctx) r = true → status r = CANCELLED) →
  Confirm ctx db = (db, Some ErrFreezeNotFound).
Proof.
  intros Hcancelled. unfold Confirm.
  destruct (find _ _) as [r|] eqn:Hfind; [|reflexivity].
  apply find_freeze_row in Hfind as [Hin Hp].
  apply andb_true_iff in Hp as [Hsame Hst].
  rewrite (Hcancelled r Hin Hsame) in Hst. discriminate.
Qed.

(** A Cancel leaves every record of its branch CANCELLED. *)
Lemma Cancel_marks_branch (ctx : SeckillTCCContext) (db : DB) (r0 : FreezeRow) :
  find (fun r => same_branch (TransactionID ctx) (ProductID ctx) r
                 && (status_eqb (status r) FROZEN || status_eqb (status r) CONFIRMED))
       (seckill_inventory_freeze db) = Some r0 →
  ∀ r, r ∈ seckill_inventory_freeze (fst (Cancel ctx db)) →
       same_branch (TransactionID ctx) (ProductID ctx) r = true → status r = CANCELLED.
Proof.
  intros Hfind r Hr Hsame. unfold Cancel in Hr. rewrite Hfind in Hr. simpl in Hr.
  unfold update_freeze_status in Hr.
  apply list_elem_of_fmap in Hr as (x & -> & Hx).
  destruct (same_branch (TransactionID ctx) (ProductID ctx) x) eqn:Hx'.
  - reflexivity.
  - unfold same_branch in *. simpl in *. congruence.
Qed.

Lemma sample_db_consistent : consistent Sample.seckill_db.
Proof.
  split; simpl.
  - intros r Hr. inversion Hr.
  - intros pid row Hrow. apply lookup_singleton_Some in Hrow as [_ <-]. simpl. lia.
Qed.

(** Without a lookup of the branch, a second successful Try freezes the
    quantity once more. *)
Lemma seckill_try_twice (ctx : SeckillTCCContext) (db db1 db2 : DB) :
  Try ctx db = (db1, None) → Try ctx db1 = (db2, None) →
  let record := {| transaction_id := TransactionID ctx; product_id := ProductID ctx;
                   quantity := Quantity ctx; status := FROZEN |} in
  seckill_inventory_freeze db2 = seckill_inventory_freeze db ++ [record; record]
  ∧ ∃ row, seckill_inventory db !! ProductID ctx = Some row
           ∧ seckill_inventory db2 !! ProductID ctx
             = Some {| stock := stock row - 2 * Quantity ctx;
                       frozen_stock := frozen_stock row + 2 * Quantity ctx;
                       sold_stock := sold_stock row |}.
Proof.
  intros H1 H2.
  destruct (Try_success _ _ _ H1) as (row & Hrow & Hle & ->).
  destruct (Try_success _ _ _ H2) as (row1 & Hrow1 & Hle1 & ->).
  simpl in *. rewrite lookup_insert_eq in Hrow1. inversion Hrow1; subst row1.
  split.
  - rewrite <- app_assoc. reflexivity.
  - exists row. split; [exact Hrow|].
    rewrite lookup_insert_eq. simpl. f_equal. f_equal; lia.
Qed.

End SeckillTCCFacts.

Section ImprovedSeataFacts.
Import ImprovedSeata ImprovedSeataSpec.

(** A successful Try on a fresh branch deducts and records. *)
Lemma improved_Try_success (args : Args) (db db1 : DB) :
  fresh args db →
  InventoryRM_Try args db = (db1, None) →
  ∃ row, seckill_inventory db !! item_id args = Some row
         ∧ quantity args ≤ available row
         ∧ db1 = set_freeze
                   (<[(tx_id args, item_id args) :=
                        {| freeze_quantity := quantity args; state := TRIED |}]>
                      (inventory_freeze db))
                   (set_inventory
                      (alter (fun r => {| total := total r;
                                          available := available r - quantity args |})
                             (item_id args) (seckill_inventory db)) db).
Proof.
  unfold fresh, InventoryRM_Try. intros -> H.
  destruct (seckill_inventory db !! item_id args) as [row|]; [|discriminate].
  exists row. split; [reflexivity|].
  destruct (available row <? quantity args) eqn:Hlt; [discriminate|].
  apply Z.ltb_ge in Hlt. inversion H. split; [exact Hlt | reflexivity].
Qed.

Lemma improved_try_idempotent (args : Args) (db : DB) :
  InventoryRM_Try args (fst (InventoryRM_Try args db)) = InventoryRM_Try args db.
Proof.
  unfold InventoryRM_Try at 2 3.
  destruct (inventory_freeze db !! (tx_id args, item_id args)) as [fr|] eqn:Hfr; simpl.
  - unfold InventoryRM_Try. rewrite Hfr. reflexivity.
  - destruct (seckill_inventory db !! item_id args) as [row|] eqn:Hrow; simpl.
    + destruct (available row <? quantity args) eqn:Hlt; simpl.
      * unfold InventoryRM_Try. rewrite Hfr, Hrow, Hlt. reflexivity.
      * unfold InventoryRM_Try. simpl. rewrite lookup_insert_eq. reflexivity.
    + unfold InventoryRM_Try. rewrite Hfr, Hrow. reflexivity.
Qed.

Lemma improved_try_cancel_roundtrip (args : Args) (db db1 : DB) :
  fresh args db →
  InventoryRM_Try args db = (db1, None) →
  ∃ db2, InventoryRM_Cancel args db1 = (db2, None)
         ∧ seckill_inventory db2 = seckill_inventory db.
Proof.
  intros Hfresh Htry.
  destruct (improved_Try_success _ _ _ Hfresh Htry) as (row & Hrow & Hle & ->).
  unfold InventoryRM_Cancel. simpl. rewrite lookup_insert_eq. simpl.
  eexists. split; [reflexivity|]. simpl.
  rewrite alter_alter_eq. apply alter_id.
  intros r _. destruct r; simpl. f_equal. lia.
Qed.

End ImprovedSeataFacts.

Section DirectFacts.
Import Direct DirectSpec.

Lemma fresh_no_log (ctx : SeckillDirectTCCContext) (db : DB) :
  fresh ctx db →
  filter (fun r => of_tx (TransactionID ctx) r = true) (inventory_deduct_log db) = [].
Proof.
  unfold fresh. induction (inventory_deduct_log db) as [|r l IH]; intros H; [reflexivity|].
  rewrite filter_cons. rewrite decide_False.
  - apply IH. intros x Hx. apply H. right. exact Hx.
  - rewrite (H r) by left. discriminate.
Qed.

Lemma direct_try_insufficient (ctx : SeckillDirectTCCContext) (db : DB)
    (row : InventoryRow) :
  fresh ctx db →
  seckill_inventory db !! ProductID ctx = Some row →
  stock row < Quantity ctx →
  Try ctx db = (db, Some ErrDeduct).
Proof.
  intros Hfresh Hrow Hlt. unfold Try, exec_deduct.
  rewrite (fresh_no_log _ _ Hfresh). simpl. rewrite Hrow.
  apply Z.leb_gt in Hlt. rewrite Hlt. reflexivity.
Qed.

(** A successful Try on a fresh transaction deducts and logs. *)
Lemma direct_Try_success (ctx : SeckillDirectTCCContext) (db db1 : DB) :
  fresh ctx db →
  Try ctx db = (db1, None) →
  ∃ row, seckill_inventory db !! ProductID ctx = Some row
         ∧ Quantity ctx ≤ stock row
         ∧ db1 = {| seckill_inventory :=
                      <[ProductID ctx := {| stock := stock row - Quantity ctx;
                                            sold_count := sold_count row + Quantity ctx;
                                            status := status row |}]>
                        (seckill_inventory db);
                    inventory_deduct_log :=
                      inventory_deduct_log db ++
                      [{| transaction_id := TransactionID ctx;
                          product_id := ProductID ctx;
                          quantity := Quantity ctx;
                          operation_type := TRY_DEDUCT |}] |}.
Proof.
  intros Hfresh. unfold Try, exec_deduct.
  rewrite (fresh_no_log _ _ Hfresh). simpl.
  destruct (seckill_inventory db !! ProductID ctx) as [row|]; [|discriminate].
  destruct (Quantity ctx <=? stock row) eqn:Hle; simpl; [|discriminate].
  destruct (is_active (status row)); simpl; [|discriminate].
  intros H. inversion H. exists row. apply Z.leb_le in Hle. auto.
Qed.

Lemma direct_try_cancel_roundtrip (latest : list DeductLog → option DeductLog)
    (ctx : SeckillDirectTCCContext) (db db1 : DB) :
  picks_a_row latest →
  fresh ctx db →
  Try ctx db = (db1, None) →
  ∃ db2, Cancel latest ctx db1 = (db2, None)
         ∧ seckill_inventory db2 = seckill_inventory db.
Proof.
  intros Hlatest Hfresh Htry.
  destruct (direct_Try_success _ _ _ Hfresh Htry) as (row & Hrow & Hle & ->).
  unfold Cancel. simpl.
  rewrite filter_app, (fresh_no_log _ _ Hfresh). simpl.
  rewrite filter_cons, decide_True by (unfold of_tx; simpl; apply String.eqb_refl).
  rewrite filter_nil.
  specialize (Hlatest [{| transaction_id := TransactionID ctx;
                          product_id := ProductID ctx;
                          quantity := Quantity ctx;
                          operation_type := TRY_DEDUCT |}]).
  destruct (latest _) as [r|]; [|discriminate].
  apply list_elem_of_singleton in Hlatest as ->. simpl.
  eexists. split; [reflexivity|]. simpl.
  rewrite alter_insert_eq. simpl.
  replace (stock row - Quantity ctx + Quantity ctx) with (stock row) by lia.
  replace (sold_count row + Quantity ctx - Quantity ctx) with (sold_count row) by lia.
  destruct row. simpl. apply insert_id. exact Hrow.
Qed.

Lemma direct_latest_picks : picks_a_row Sample.direct_latest.
Proof.
  intros l. unfold Sample.direct_latest.
  destruct (last l) as [r|] eqn:Hlast.
  - apply last_Some in Hlast as [l' ->].
    apply elem_of_app. right. apply list_elem_of_singleton. reflexivity.
  - apply last_None. exact Hlast.
Qed.

End DirectFacts.

Section SeckillManagerFacts.
Import SeckillTCC SeckillTCCSpec.
Context {St : Type}.
Implicit Types (rs : list (SeckillTCCResource St)) (ctx : SeckillTCCContext) (s : St).

Lemma calls_app (evs1 evs2 : list event) :
  calls (evs1 ++ evs2) = calls evs1 ++ calls evs2.
Proof.
  induction evs1 as [|[o i|o i e] evs1 IH]; simpl; [reflexivity | |]; rewrite IH; reflexivity.
Qed.

Lemma sweep_of_S (o : op) (i k : nat) :
  sweep_of o i (S k) = (o, i) :: sweep_of o (S i) k.
Proof. reflexivity. Qed.

Lemma cancelFrom_calls rs i ctx s :
  calls (snd (cancelFrom rs i ctx s)) = sweep_of OpCancel i (length rs).
Proof.
  revert i s. induction rs as [|r rs IH]; intros i s; simpl; [reflexivity|].
  destruct (rCancel r ctx s) as [s1 res].
  specialize (IH (S i) s1).
  destruct (cancelFrom rs (S i) ctx s1) as [s2 evs]. simpl in *.
  rewrite sweep_of_S. destruct res; simpl; rewrite IH; reflexivity.
Qed.

Ltac phase_step IH i first_call loop :=
  let s1 := fresh "s1" in
  destruct first_call as [s1 [?e|]];
  [ exists 0%nat; simpl; split; [lia|]; split; [reflexivity|];
    rewrite Nat.add_0_r; right; left
  | specialize (IH (S i) s1);
    destruct (loop _ (S i) _ s1) as [[?s2 ?evs] [?e|]]; simpl in *;
    [ destruct IH as (k & Hk & Hcalls & Hlog);
      exists (S k); split; [lia|]; split;
      [ rewrite sweep_of_S, Hcalls; reflexivity
      | right; replace (i + S k)%nat with (S i + k)%nat by lia; exact Hlog ]
    | rewrite sweep_of_S, IH; reflexivity ] ].

Lemma tryFrom_shape rs i ctx s :
  phase_shape OpTry i (length rs) (tryFrom rs i ctx s).
Proof.
  revert i s. induction rs as [|r rs IH]; intros i s; simpl; [reflexivity|].
  phase_step IH i (rTry r ctx s) (@tryFrom St).
Qed.

Lemma confirmFrom_shape rs i ctx s :
  phase_shape OpConfirm i (length rs) (confirmFrom rs i ctx s).
Proof.
  revert i s. induction rs as [|r rs IH]; intros i s; simpl; [reflexivity|].
  phase_step IH i (rConfirm r ctx s) (@confirmFrom St).
Qed.

(** The three ways [ExecuteSeckillTCC] ends. *)
Lemma ExecuteSeckillTCC_shape rs ctx s :
  let n := length rs in
  match ExecuteSeckillTCC rs ctx s with
  | (_, tr, None) =>
      calls tr = sweep_of OpTry 0 n ++ sweep_of OpConfirm 0 n
  | (_, tr, Some (ErrTryPhase e)) =>
      ∃ k, (k < n)%nat
           ∧ calls tr = sweep_of OpTry 0 (S k) ++ sweep_of OpCancel 0 n
           ∧ LogFailure OpTry k e ∈ tr
  | (_, tr, Some (ErrConfirmPhase e)) =>
      ∃ k, (k < n)%nat
           ∧ calls tr = sweep_of OpTry 0 n ++ sweep_of OpConfirm 0 (S k)
                        ++ sweep_of OpCancel 0 n
           ∧ LogFailure OpConfirm k e ∈ tr
  | (_, _, Some _) => False
  end.
Proof.
  intros n. unfold ExecuteSeckillTCC, cancelResources.
  pose proof (tryFrom_shape rs 0 ctx s) as Htry.
  destruct (tryFrom rs 0 ctx s) as [[s1 ev1] [e|]]; simpl in Htry.
  - pose proof (cancelFrom_calls rs 0 ctx s1) as Hc.
    destruct (cancelFrom rs 0 ctx s1) as [s2 ev2]. simpl in Hc.
    destruct Htry as (k & Hk & Hcalls & Hlog).
    exists k. split; [exact Hk|]. split.
    + rewrite calls_app, Hcalls, Hc. reflexivity.
    + apply elem_of_app. left. exact Hlog.
  - pose proof (confirmFrom_shape rs 0 ctx s1) as Hconf.
    destruct (confirmFrom rs 0 ctx s1) as [[s2 ev2] [e|]]; simpl in Hconf.
    + pose proof (cancelFrom_calls rs 0 ctx s2) as Hc.
      destruct (cancelFrom rs 0 ctx s2) as [s3 ev3]. simpl in Hc.
      destruct Hconf as (k & Hk & Hcalls & Hlog).
      exists k. split; [exact Hk|]. split.
      * rewrite !calls_app, Htry, Hcalls, Hc. reflexivity.
      * apply elem_of_app. right. apply elem_of_app. left. exact Hlog.
    + rewrite calls_app, Htry, Hconf. reflexivity.
Qed.

End SeckillManagerFacts.

Section StandardFacts.
Import Go Standard.

Lemma update_account_row (f : Z → Z) (accountID : Z) (row : AccountRow)
    (acc : gmap Z AccountRow) :
  acc !! accountID = Some row →
  update_account f accountID (version row) acc
  = <[accountID := {| balance := f (balance row); version := version row + 1 |}]> acc.
Proof.
  intros Hrow. unfold update_account. apply map_eq. intros k.
  rewrite lookup_alter.
  destruct (decide (accountID = k)) as [<-|Hne].
  - rewrite lookup_insert_eq, Hrow. simpl. rewrite Z.eqb_refl. reflexivity.
  - rewrite lookup_insert_ne by exact Hne. reflexivity.
Qed.

Lemma AccountRM_Try_row (args : Args) (t : Tables) (accountID amount : Z)
    (row : AccountRow) :
  args !! "account_id" = Some (VInt accountID) →
  args !! "amount" = Some (VInt amount) →
  account t !! accountID = Some row →
  AccountRM_Try args t
  = Done (set_account
            (<[accountID := {| balance := balance row - amount;
                               version := version row + 1 |}]> (account t)) t, None).
Proof.
  intros Hid Ham Hrow. unfold AccountRM_Try, assert_int.
  rewrite Hid, Ham. simpl. rewrite Hrow.
  rewrite (update_account_row _ _ _ _ Hrow). reflexivity.
Qed.

Lemma AccountRM_Confirm_row (args : Args) (t : Tables) (accountID amount : Z)
    (row : AccountRow) :
  args !! "account_id" = Some (VInt accountID) →
  args !! "amount" = Some (VInt amount) →
  account t !! accountID = Some row →
  AccountRM_Confirm args t
  = Done (set_account
            (<[accountID := {| balance := balance row + amount;
                               version := version row + 1 |}]> (account t)) t, None).
Proof.
  intros Hid Ham Hrow. unfold AccountRM_Confirm, assert_int.
  rewrite Hid, Ham. simpl. rewrite Hrow.
  rewrite (update_account_row _ _ _ _ Hrow). reflexivity.
Qed.

(** Without a row of the account both calls report sql.ErrNoRows and change
    nothing. *)
Lemma AccountRM_no_row (args : Args) (t : Tables) (accountID amount : Z) :
  args !! "account_id" = Some (VInt accountID) →
  args !! "amount" = Some (VInt amount) →
  account t !! accountID = None →
  AccountRM_Try args t = Done (t, Some ErrNoRows)
  ∧ AccountRM_Confirm args t = Done (t, Some ErrNoRows).
Proof.
  intros Hid Ham Hrow.
  unfold AccountRM_Try, AccountRM_Confirm, assert_int.
  rewrite Hid, Ham. simpl. rewrite Hrow. split; reflexivity.
Qed.

End StandardFacts.

Section DirectManagerFacts.
Import Go Direct DirectSpec.
Context {St : Type}.
Implicit Types (rs : list (DirectTCCResource St)) (ctx : SeckillDirectTCCContext)
               (st : State St).

Lemma direct_calls_app (evs1 evs2 : list event) :
  calls (evs1 ++ evs2) = calls evs1 ++ calls evs2.
Proof.
  induction evs1 as [|[o i|o i e] evs1 IH]; simpl; [reflexivity | |]; rewrite IH; reflexivity.
Qed.

Lemma run_log (f : SeckillDirectTCCContext → St → St * option error) ctx st :
  tcc_transaction_log (fst (run f ctx st)) = tcc_transaction_log st.
Proof. unfold run. destruct (f ctx (resource_tables st)). reflexivity. Qed.

Lemma mark_log (ph : phase) (tx : string) (i : nat) st st' :
  markResourceCompleted ph tx i st = Done st' →
  tcc_transaction_log st' = tcc_transaction_log st.
Proof.
  unfold markResourceCompleted. destruct (resourceTypes !! i); [|discriminate].
  intros H. inversion H. reflexivity.
Qed.

Lemma mark_in_range (ph : phase) (tx : string) (i : nat) st :
  (i < 3)%nat → ∃ st', markResourceCompleted ph tx i st = Done st'.
Proof.
  intros Hi. unfold markResourceCompleted.
  destruct i as [|[|[|i]]]; simpl; try (eexists; reflexivity). lia.
Qed.

(** With at most three resources [cancelResources] runs to its end. *)
Lemma cancelFrom_done rs i ctx st :
  (i + length rs ≤ 3)%nat →
  ∃ st' evs, cancelFrom rs i ctx st = Done (st', evs)
             ∧ calls evs = on_each OpCancel (seq i (length rs))
             ∧ tcc_transaction_log st' = tcc_transaction_log st.
Proof.
  revert i st. induction rs as [|r rs IH]; intros i st Hlen; simpl in *.
  - exists st, []. auto.
  - pose proof (run_log (rCancel r) ctx st) as Hlog.
    destruct (run (rCancel r) ctx st) as [st1 [e|]]; simpl in Hlog.
    + destruct (IH (S i) st1 ltac:(lia)) as (st2 & evs & -> & Hcalls & Hlog2).
      eexists _, _. split; [reflexivity|]. simpl.
      split; [unfold on_each in *; simpl; rewrite Hcalls; reflexivity | congruence].
    + destruct (mark_in_range PhaseCancel (TransactionID ctx) i st1 ltac:(lia))
        as (st1' & Hmark).
      rewrite Hmark. simpl.
      destruct (IH (S i) st1' ltac:(lia)) as (st2 & evs & -> & Hcalls & Hlog2).
      eexists _, _. split; [reflexivity|]. simpl.
      apply mark_log in Hmark.
      split; [unfold on_each in *; simpl; rewrite Hcalls; reflexivity | congruence].
Qed.

Lemma compensate_calls (visited : list (nat * DirectTCCResource St)) ctx st st' evs :
  compensate visited ctx st = Done (st', evs) →
  calls evs = on_each OpCancel (visited.*1).
Proof.
  revert st st' evs. induction visited as [|[j r] visited IH]; intros st st' evs; simpl.
  - intros H. inversion H. reflexivity.
  - destruct (run (rCancel r) ctx st) as [st1 [e|]].
    + destruct (compensate visited ctx st1) as [[st2 evs2]|] eqn:Hrec; simpl; [|discriminate].
      intros H. inversion H. simpl. rewrite (IH _ _ _ Hrec). reflexivity.
    + destruct (markResourceCompleted _ _ _ _) as [st1'|]; simpl; [|discriminate].
      destruct (compensate visited ctx st1') as [[st2 evs2]|] eqn:Hrec; simpl; [|discriminate].
      intros H. inversion H. simpl. rewrite (IH _ _ _ Hrec). reflexivity.
Qed.

(** [tryResources] ending in a failure: the resources up to the failing
    one were tried, then the earlier ones cancelled, last one first. *)
Lemma tryFrom_failure (visited : list (nat * DirectTCCResource St)) rs i ctx st st' evs e :
  tryFrom visited rs i ctx st = Done (st', evs, Some e) →
  ∃ k, (k < length rs)%nat
       ∧ calls evs = on_each OpTry (seq i (S k))
                     ++ on_each OpCancel (rev (seq i k) ++ visited.*1)
       ∧ LogFailure OpTry (i + k) e ∈ evs.
Proof.
  revert visited i st st' evs. induction rs as [|r rs IH]; intros visited i st st' evs; simpl.
  - intros H. inversion H.
  - destruct (run (rTry r) ctx st) as [st1 [e'|]].
    + destruct (compensate visited ctx st1) as [[st2 evs2]|] eqn:Hcomp; simpl; [|discriminate].
      intros H. inversion H; subst. exists 0%nat. split; [lia|]. simpl.
      rewrite (compensate_calls _ _ _ _ _ Hcomp). split; [reflexivity|].
      rewrite Nat.add_0_r. right. left.
    + destruct (markResourceCompleted _ _ _ _) as [st1'|]; simpl; [|discriminate].
      destruct (tryFrom ((i, r) :: visited) rs (S i) ctx st1') as [[[st2 evs2] res]|] eqn:Hrec;
        simpl; [|discriminate].
      intros H. inversion H; subst.
      destruct (IH _ _ _ _ _ Hrec) as (k & Hk & Hcalls & Hlog).
      exists (S k). split; [lia|]. split.
      * simpl. rewrite Hcalls. simpl. f_equal. f_equal.
        unfold on_each. f_equal. rewrite <- app_assoc. reflexivity.
      * right. replace (i + S k)%nat with (S i + k)%nat by lia. exact Hlog.
Qed.

(** A failed Try phase in [ExecuteSeckill]. *)
Lemma ExecuteSeckill_try_failure rs ctx st st1 ev1 e :
  (length rs ≤ 3)%nat →
  unfinished ctx st →
  tryResources rs ctx st = Done (st1, ev1, Some e) →
  ∃ st2 tr k,
    ExecuteSeckill rs ctx st = Done (st2, tr, Some (ErrSeckill e))
    ∧ (k < length rs)%nat
    ∧ calls tr = on_each OpTry (seq 0 (S k))
                 ++ on_each OpCancel (rev (seq 0 k))
                 ++ on_each OpCancel (seq 0 (length rs))
    ∧ LogFailure OpTry k e ∈ tr
    ∧ tcc_transaction_log st2 !! TransactionID ctx = Some TCCStatusCancelled.
Proof.
  intros Hlen [Hnc Hnx] Htry.
  destruct (cancelFrom_done rs 0 ctx
              (logTCCTransaction (TransactionID ctx) TCCStatusCancelled st1)
              ltac:(simpl; lia)) as (st2 & ev2 & Hcancel & Hcalls2 & Hlog2).
  destruct (tryFrom_failure _ _ _ _ _ _ _ _ Htry) as (k & Hk & Hcalls1 & Hlog1).
  exists st2, (ev1 ++ ev2), k.
  split.
  - unfold ExecuteSeckill.
    destruct (tcc_transaction_log st !! TransactionID ctx) as [[| |]|];
      try congruence; rewrite Htry; simpl; rewrite Hcancel; reflexivity.
  - split; [exact Hk|]. split; [|split].
    + rewrite direct_calls_app, Hcalls1, Hcalls2. simpl.
      rewrite app_nil_r, <- app_assoc. reflexivity.
    + apply elem_of_app. left. exact Hlog1.
    + rewrite Hlog2. simpl. apply lookup_insert_eq.
Qed.

End DirectManagerFacts.

Section ImprovedCoordinatorFacts.
Import ImprovedSeata ImprovedSeataSpec.

(** The loop calls the managers along [order] and stops at the first
    error. *)
Lemma range_resources_calls (o : op) (resources : gmap string ResourceManager)
    (order : list string) (args : Args) (db : DB) :
  (∀ name, name ∈ order → is_Some (resources !! name)) →
  match range_resources o resources order args db with
  | (_, evs, None) => evs = map (pair o) order
  | (_, evs, Some _) => evs `prefix_of` map (pair o) order ∧ evs ≠ []
  end.
Proof.
  revert db. induction order as [|name rest IH]; intros db Hdom; simpl; [reflexivity|].
  destruct (Hdom name ltac:(left)) as [rm ->].
  assert (Hrest : ∀ n, n ∈ rest → is_Some (resources !! n))
    by (intros n Hn; apply Hdom; right; exact Hn).
  destruct (call o rm args db) as [db1 [e|]].
  - split; [|discriminate]. exists (map (pair o) rest). reflexivity.
  - specialize (IH db1 Hrest).
    destruct (range_resources o resources rest args db1) as [[db2 evs] [e|]].
    + destruct IH as [Hpre _]. split; [|discriminate].
      apply prefix_cons. exact Hpre.
    + rewrite IH. reflexivity.
Qed.

Lemma map_iteration_dom (resources : gmap string ResourceManager) (order : list string) :
  map_iteration resources order →
  ∀ name, name ∈ order → is_Some (resources !! name).
Proof.
  unfold map_iteration. intros Hperm name Hname.
  rewrite Hperm in Hname. apply elem_of_elements in Hname.
  apply elem_of_dom. exact Hname.
Qed.

(** The Try calls of [StartTransaction] follow the iteration order of the
    map, whatever it is in this run. *)
Lemma StartTransaction_calls (resources : gmap string ResourceManager)
    (order : list string) (txID : string) (args : Args) (db : DB) :
  map_iteration resources order →
  match StartTransaction resources order txID args db with
  | (_, evs, None) => evs = map (pair OpTry) order
  | (_, evs, Some _) => evs `prefix_of` map (pair OpTry) order
  end.
Proof.
  intros Hiter. unfold StartTransaction.
  destruct (tcc_transaction db !! txID).
  - apply prefix_nil.
  - pose proof (range_resources_calls OpTry resources order (with_tx_id txID args)
                  (set_transaction (<[txID:=Tx.TRYING]> (tcc_transaction db)) db)
                  (map_iteration_dom _ _ Hiter)) as H.
    destruct (range_resources _ _ _ _ _) as [[db1 evs] [e|]].
    + apply H.
    + destruct (update_status _ _ _ _). exact H.
Qed.

Lemma Confirm_calls (resources : gmap string ResourceManager)
    (order : list string) (txID : string) (args : Args) (db : DB) :
  map_iteration resources order →
  match Confirm resources order txID args db with
  | (_, evs, None) => evs = map (pair OpConfirm) order
  | (_, evs, Some _) => evs `prefix_of` map (pair OpConfirm) order
  end.
Proof.
  intros Hiter. unfold Confirm.
  destruct (update_status txID [Tx.TRIED] Tx.CONFIRMING (tcc_transaction db)) as [tbl n].
  destruct (n =? 0); [apply prefix_nil|].
  pose proof (range_resources_calls OpConfirm resources order (with_tx_id txID args)
                (set_transaction tbl db) (map_iteration_dom _ _ Hiter)) as H.
  destruct (range_resources _ _ _ _ _) as [[db1 evs] [e|]].
  - apply H.
  - destruct (update_status _ _ _ _). exact H.
Qed.

Lemma Cancel_calls (resources : gmap string ResourceManager)
    (order : list string) (txID : string) (args : Args) (db : DB) :
  map_iteration resources order →
  match Cancel resources order txID args db with
  | (_, evs, None) => evs = map (pair OpCancel) order
  | (_, evs, Some _) => evs `prefix_of` map (pair OpCancel) order
  end.
Proof.
  intros Hiter. unfold Cancel.
  pose proof (range_resources_calls OpCancel resources order (with_tx_id txID args)
                (set_transaction (mark_cancelling txID (tcc_transaction db)) db)
                (map_iteration_dom _ _ Hiter)) as H.
  destruct (range_resources _ _ _ _ _) as [[db1 evs] [e|]].
  - apply H.
  - destruct (update_status _ _ _ _). exact H.
Qed.

Lemma registered_iteration_1 : map_iteration registered ["inventory"; "order"]%string.
Proof. unfold map_iteration. vm_compute. reflexivity || apply perm_swap. Qed.

Lemma registered_iteration_2 : map_iteration registered ["order"; "inventory"]%string.
Proof. unfold map_iteration. vm_compute. reflexivity || apply perm_swap. Qed.

(** The first statement of [Cancel] takes a transaction out of any of the
    three phases it names. *)
Lemma mark_cancelling_from (txID : string) (tbl : gmap string Tx.status)
    (st : Tx.status) :
  tbl !! txID = Some st →
  st = Tx.TRYING ∨ st = Tx.TRIED ∨ st = Tx.CONFIRMING →
  mark_cancelling txID tbl !! txID = Some Tx.CANCELLING.
Proof.
  intros Hst Hin. unfold mark_cancelling, update_status. rewrite Hst.
  destruct Hin as [-> | [-> | ->]]; simpl; apply lookup_insert_eq.
Qed.

End ImprovedCoordinatorFacts.

Section SweeperFacts.
Import Go Standard.

(** The rows the query of [Compensate] returns. *)
Lemma select_due_spec (now : Z) (tbl : gmap string TxTable.Row)
    (txID : string) (st : Tx.status) :
  (txID, st) ∈ select_due now tbl ↔
  ∃ r, tbl !! txID = Some r ∧ TxTable.status r = st
       ∧ Tx.non_terminal st = true
       ∧ TxTable.create_time r < now - 300.
Proof.
  unfold select_due. rewrite list_elem_of_omap. split.
  - intros ([k r] & Hin & Hsel).
    apply elem_of_map_to_list in Hin.
    unfold due in Hsel.
    destruct (Tx.non_terminal (TxTable.status r)) eqn:Hnt; simpl in Hsel; [|discriminate].
    destruct (TxTable.create_time r <? now - 300) eqn:Hlt; [|discriminate].
    inversion Hsel; subst. exists r. apply Z.ltb_lt in Hlt. auto.
  - intros (r & Hr & <- & Hnt & Hlt).
    exists (txID, r). split; [apply elem_of_map_to_list; exact Hr|].
    unfold due. rewrite Hnt. apply Z.ltb_lt in Hlt. rewrite Hlt. reflexivity.
Qed.

(** The switch of [Compensate]: one call per selected row, chosen by the
    status read with it. *)
Lemma redrive_rows_dispatch (resources : gmap string ResourceManager)
    (order_of : string → list string) (now : Z)
    (rows : list (string * Tx.status)) (st st' : State)
    (evs : list (string * action * option error)) :
  redrive_rows resources order_of now rows st = Done (st', evs) →
  evs.*1 = omap (fun '(txID, status) => pair txID <$> redrive status) rows.
Proof.
  revert st st' evs. induction rows as [|[txID status] rows IH]; intros st st' evs; simpl.
  - intros H. inversion H. reflexivity.
  - destruct (redrive status) as [a|]; simpl.
    + destruct (match a with
                | CallConfirm => Confirm resources (order_of txID) now txID (recoverArgs txID) st
                | CallCancel => Cancel resources (order_of txID) now txID (recoverArgs txID) st
                end) as [[st1 res]|]; simpl; [|discriminate].
      destruct (redrive_rows resources order_of now rows st1) as [[st2 evs2]|] eqn:Hrec;
        simpl; [|discriminate].
      intros H. inversion H; subst. simpl. f_equal. apply (IH _ _ _ Hrec).
    + apply IH.
Qed.

Lemma dispatch_non_terminal (rows : list (string * Tx.status)) :
  (∀ row, row ∈ rows → Tx.non_terminal row.2 = true) →
  omap (fun '(txID, status) => pair txID <$> redrive status) rows
  = map (fun row => (row.1, StandardSpec.expected_action row.2)) rows.
Proof.
  induction rows as [|[txID s] rows IH]; intros Hnt; simpl; [reflexivity|].
  pose proof (Hnt (txID, s) ltac:(left)) as Hs. simpl in Hs.
  rewrite <- IH by (intros row Hrow; apply Hnt; right; exact Hrow).
  destruct s; simpl in *; try discriminate; reflexivity.
Qed.

(** [Confirm] takes a TRIED transaction whose managers confirm to
    CONFIRMED. *)
Lemma Confirm_tried (resources : gmap string ResourceManager) (order : list string)
    (now : Z) (txID : string) (args : Args) (st : State) (r : TxTable.Row) (t1 : Tables) :
  tcc_transaction st !! txID = Some r →
  TxTable.status r = Tx.TRIED →
  range_resources rmConfirm resources order args (tables st) = Done (t1, None) →
  ∃ st', Confirm resources order now txID args st = Done (st', None)
         ∧ TxTable.status <$> tcc_transaction st' !! txID = Some Tx.CONFIRMED.
Proof.
  intros Hr Hst Hrange. unfold Confirm, TxTable.update_status.
  rewrite Hr, Hst. simpl. rewrite Hrange. simpl.
  rewrite lookup_insert_eq. simpl.
  eexists. split; [reflexivity|]. simpl.
  rewrite lookup_insert_eq. reflexivity.
Qed.

(** [Cancel] and [Confirm] only leave TRIED: in any other phase the call
    fails and changes nothing. *)
Lemma Cancel_needs_tried (resources : gmap string ResourceManager) (order : list string)
    (now : Z) (txID : string) (args : Args) (st : State) (r : TxTable.Row) :
  tcc_transaction st !! txID = Some r →
  TxTable.status r ≠ Tx.TRIED →
  Cancel resources order now txID args st = Done (st, Some ErrInvalidCancel).
Proof.
  intros Hr Hst. unfold Cancel, TxTable.update_status. rewrite Hr.
  destruct (TxTable.status r); simpl; congruence.
Qed.

Lemma Confirm_needs_tried (resources : gmap string ResourceManager) (order : list string)
    (now : Z) (txID : string) (args : Args) (st : State) (r : TxTable.Row) :
  tcc_transaction st !! txID = Some r →
  TxTable.status r ≠ Tx.TRIED →
  Confirm resources order now txID args st = Done (st, Some ErrInvalidConfirm).
Proof.
  intros Hr Hst. unfold Confirm, TxTable.update_status. rewrite Hr.
  destruct (TxTable.status r); simpl; congruence.
Qed.

End SweeperFacts.

Section DesignScriptFacts.
Import DesignScript.

Lemma insert_by_update_time_elem (x y : string * TxTable.Row)
    (l : list (string * TxTable.Row)) :
  y ∈ insert_by_update_time x l ↔ y = x ∨ y ∈ l.
Proof.
  induction l as [|z l IH]; simpl.
  - rewrite list_elem_of_singleton, elem_of_nil. tauto.
  - destruct (_ <=? _).
    + rewrite elem_of_cons. tauto.
    + rewrite !elem_of_cons, IH. tauto.
Qed.

Lemma order_by_update_time_elem (y : string * TxTable.Row)
    (l : list (string * TxTable.Row)) :
  y ∈ order_by_update_time l ↔ y ∈ l.
Proof.
  unfold order_by_update_time. induction l as [|x l IH]; simpl; [tauto|].
  rewrite insert_by_update_time_elem, elem_of_cons, IH. tauto.
Qed.

(** What the sweep query returns: at most a hundred rows, each of them in
    a non-terminal phase, with retries left and before its timeout. *)
Lemma sweep_query_sound (now : Z) (tbl : gmap string TxTable.Row) :
  (length (sweep_query now tbl) ≤ 100)%nat ∧
  ∀ txID r, (txID, r) ∈ sweep_query now tbl →
    tbl !! txID = Some r
    ∧ Tx.non_terminal (TxTable.status r) = true
    ∧ TxTable.retry_count r < TxTable.max_retry r
    ∧ ∃ t, TxTable.timeout_time r = Some t ∧ now < t.
Proof.
  unfold sweep_query. split.
  - rewrite length_take. lia.
  - intros txID r Hin.
    apply (subseteq_take 100) in Hin.
    apply (proj1 (order_by_update_time_elem _ _)) in Hin.
    apply list_elem_of_filter in Hin as [Hsel Hin]. simpl in Hsel.
    apply elem_of_map_to_list in Hin.
    unfold selectable in Hsel.
    apply andb_true_iff in Hsel as [Hsel Hto].
    apply andb_true_iff in Hsel as [Hnt Hretry].
    apply Z.ltb_lt in Hretry.
    destruct (TxTable.timeout_time r) as [t|]; [|discriminate].
    apply Z.ltb_lt in Hto. eauto 6.
Qed.

(** The timeout statement fails a transaction whose timeout has passed. *)
Lemma mark_timeout_failed (now : Z) (txID : string) (tbl : gmap string TxTable.Row)
    (r : TxTable.Row) (t : Z) :
  tbl !! txID = Some r → TxTable.timeout_time r = Some t → t < now →
  TxTable.status <$> mark_timeout now txID tbl !! txID = Some Tx.FAILED.
Proof.
  intros Hr Ht Hlt. unfold mark_timeout.
  rewrite lookup_alter, decide_True by reflexivity.
  rewrite Hr. simpl. rewrite Ht.
  apply Z.ltb_lt in Hlt. rewrite Hlt. reflexivity.
Qed.

(** A FAILED transaction is in no later result of the sweep query. *)
Lemma failed_not_swept (now : Z) (tbl : gmap string TxTable.Row) (txID : string) :
  TxTable.status <$> tbl !! txID = Some Tx.FAILED →
  ∀ r, (txID, r) ∉ sweep_query now tbl.
Proof.
  intros Hfailed r Hin.
  destruct (sweep_query_sound now tbl) as [_ Hsound].
  destruct (Hsound _ _ Hin) as (Hr & Hnt & _).
  rewrite Hr in Hfailed. simpl in Hfailed. inversion Hfailed as [Hst].
  rewrite Hst in Hnt. discriminate.
Qed.

End DesignScriptFacts.

Section RunFacts.
Import SeckillTCC SeckillTCCSpec.

Lemma elem_of_sweep_of (o o' : op) (j i n : nat) :
  (o, j) ∈ sweep_of o' i n ↔ o = o' ∧ (i ≤ j < i + n)%nat.
Proof.
  unfold sweep_of. rewrite list_elem_of_fmap. split.
  - intros (x & Heq & Hx). inversion Heq; subst.
    apply elem_of_seq in Hx. split; [reflexivity | lia].
  - intros [-> Hj]. exists j. split; [reflexivity|]. apply elem_of_seq. lia.
Qed.

(** Cancel without a record of the branch does nothing. *)
Lemma Cancel_fresh_noop (ctx : SeckillTCCContext) (db : DB) :
  fresh ctx db → Cancel ctx db = (db, None).
Proof.
  intros Hfresh. unfold Cancel.
  destruct (find _ _) as [r|] eqn:Hfind; [|reflexivity].
  apply find_freeze_row in Hfind as [Hin Hp].
  rewrite (Hfresh r Hin) in Hp. discriminate.
Qed.

Lemma ExecuteSeckillTCC_try_failure {St : Type} (rs : list (SeckillTCCResource St))
    (ctx : SeckillTCCContext) (s s1 : St) (ev1 : list event) (e : error) :
  tryFrom rs 0 ctx s = (s1, ev1, Some e) →
  ∃ s2 tr k,
    ExecuteSeckillTCC rs ctx s = (s2, tr, Some (ErrTryPhase e))
    ∧ (k < length rs)%nat
    ∧ calls tr = sweep_of OpTry 0 (S k) ++ sweep_of OpCancel 0 (length rs)
    ∧ LogFailure OpTry k e ∈ tr.
Proof.
  intros Htry.
  pose proof (ExecuteSeckillTCC_shape rs ctx s) as Hshape.
  unfold ExecuteSeckillTCC in *. rewrite Htry in *.
  destruct (cancelResources rs ctx s1) as [s2 ev2]. simpl in Hshape.
  destruct Hshape as (k & Hk & Hcalls & Hlog).
  exists s2, (ev1 ++ ev2), k. auto.
Qed.

Lemma ExecuteSeckillTCC_confirm_failure {St : Type} (rs : list (SeckillTCCResource St))
    (ctx : SeckillTCCContext) (s s' : St) (tr : list event) (e : error) :
  ExecuteSeckillTCC rs ctx s = (s', tr, Some (ErrConfirmPhase e)) →
  ∃ k, (k < length rs)%nat
       ∧ calls tr = sweep_of OpTry 0 (length rs) ++ sweep_of OpConfirm 0 (S k)
                    ++ sweep_of OpCancel 0 (length rs)
       ∧ LogFailure OpConfirm k e ∈ tr.
Proof.
  intros Hrun.
  pose proof (ExecuteSeckillTCC_shape rs ctx s) as Hshape.
  rewrite Hrun in Hshape. exact Hshape.
Qed.

(** Whatever the outcome, the calls go up the slice, phase after phase. *)
Lemma ExecuteSeckillTCC_in_order {St : Type} (rs : list (SeckillTCCResource St))
    (ctx : SeckillTCCContext) (s : St) :
  ∃ a b c, (a ≤ length rs ∧ b ≤ length rs ∧ c ≤ length rs)%nat
           ∧ calls (snd (fst (ExecuteSeckillTCC rs ctx s)))
             = sweep_of OpTry 0 a ++ sweep_of OpConfirm 0 b ++ sweep_of OpCancel 0 c.
Proof.
  pose proof (ExecuteSeckillTCC_shape rs ctx s) as Hshape.
  destruct (ExecuteSeckillTCC rs ctx s) as [[s' tr] [e|]]; simpl in *.
  - destruct e; try contradiction.
    + destruct Hshape as (k & Hk & Hcalls & _).
      exists (S k), 0%nat, (length rs). split; [lia|]. exact Hcalls.
    + destruct Hshape as (k & Hk & Hcalls & _).
      exists (length rs), (S k), (length rs). split; [lia|]. exact Hcalls.
  - exists (length rs), (length rs), 0%nat. split; [lia|].
    rewrite Hshape. simpl. rewrite app_nil_r. reflexivity.
Qed.

Lemma elem_of_on_each (o o' : Direct.op) (j : nat) (l : list nat) :
  (o, j) ∈ DirectSpec.on_each o' l ↔ o = o' ∧ j ∈ l.
Proof.
  unfold DirectSpec.on_each. rewrite list_elem_of_fmap. split.
  - intros (x & Heq & Hx). inversion Heq; subst. auto.
  - intros [-> Hj]. exists j. auto.
Qed.

End RunFacts.

Section SeckillRunStateFacts.
Import SeckillTCC SeckillTCCSpec.
Context {St : Type}.
Implicit Types (rs : list (SeckillTCCResource St)) (ctx : SeckillTCCContext) (s : St).

Lemma cancelFrom_state rs i ctx s :
  fst (cancelFrom rs i ctx s) = cancelled rs ctx s.
Proof.
  revert i s. induction rs as [|r rs IH]; intros i s; simpl; [reflexivity|].
  unfold cancelled. cbn [fold_left].
  destruct (rCancel r ctx s) as [s1 res].
  specialize (IH (S i) s1).
  destruct (cancelFrom rs (S i) ctx s1) as [s2 evs]. exact IH.
Qed.

Lemma first_failure_tail r0 rs ctx s s0 k s1 e :
  rTry r0 ctx s = (s0, None) →
  first_failure (r0 :: rs) ctx s (S k) s1 e → first_failure rs ctx s0 k s1 e.
Proof.
  intros Hr0 [Hbefore (r & Hr & Htry)]. split.
  - intros j r' Hj Hr'. specialize (Hbefore (S j) r' ltac:(lia) Hr').
    cbn [take] in Hbefore. unfold tried in *. cbn [fold_left] in Hbefore.
    rewrite Hr0 in Hbefore. exact Hbefore.
  - exists r. split; [exact Hr|].
    cbn [take] in Htry. unfold tried in *. cbn [fold_left] in Htry.
    rewrite Hr0 in Htry. exact Htry.
Qed.

(** The Try phase runs up to the first failure and returns it. *)
Lemma tryFrom_first_failure rs i ctx s k s1 e :
  first_failure rs ctx s k s1 e →
  ∃ evs, tryFrom rs i ctx s = (s1, evs, Some e)
         ∧ calls evs = sweep_of OpTry i (S k)
         ∧ LogFailure OpTry (i + k) e ∈ evs.
Proof.
  revert rs i s. induction k as [|k IH]; intros rs i s Hfirst.
  - destruct Hfirst as [_ (r & Hr & Htry)].
    destruct rs as [|r0 rs]; [discriminate|]. injection Hr as ->.
    cbn [take] in Htry. unfold tried in Htry. cbn [fold_left] in Htry.
    cbn [tryFrom]. rewrite Htry. eexists. split; [reflexivity|].
    split; [reflexivity|]. rewrite Nat.add_0_r. right. left.
  - destruct rs as [|r0 rs].
    { destruct Hfirst as [_ (r & Hr & _)]. discriminate. }
    destruct (rTry r0 ctx s) as [s0 res] eqn:Hr0.
    assert (res = None) as ->.
    { destruct Hfirst as [Hbefore _].
      specialize (Hbefore 0%nat r0 ltac:(lia) eq_refl).
      cbn [take] in Hbefore. unfold tried in Hbefore. cbn [fold_left] in Hbefore.
      rewrite Hr0 in Hbefore. exact Hbefore. }
    destruct (IH rs (S i) s0 (first_failure_tail _ _ _ _ _ _ _ _ Hr0 Hfirst))
      as (evs & Hrun & Hcalls & Hlog).
    cbn [tryFrom]. rewrite Hr0, Hrun. eexists. split; [reflexivity|]. split.
    + cbn [calls]. rewrite Hcalls. reflexivity.
    + right. replace (i + S k)%nat with (S i + k)%nat by lia. exact Hlog.
Qed.

(** [ExecuteSeckillTCC] when resource [k] is the first whose Try fails. *)
Lemma ExecuteSeckillTCC_first_failure rs ctx s k s1 e :
  first_failure rs ctx s k s1 e →
  ∃ tr, ExecuteSeckillTCC rs ctx s = (cancelled rs ctx s1, tr, Some (ErrTryPhase e))
        ∧ calls tr = sweep_of OpTry 0 (S k) ++ sweep_of OpCancel 0 (length rs)
        ∧ LogFailure OpTry k e ∈ tr.
Proof.
  intros Hfirst.
  destruct (tryFrom_first_failure rs 0 ctx s k s1 e Hfirst) as (ev1 & Hrun & Hcalls & Hlog).
  unfold ExecuteSeckillTCC, cancelResources. rewrite Hrun.
  pose proof (cancelFrom_state rs 0 ctx s1) as Hstate.
  pose proof (cancelFrom_calls rs 0 ctx s1) as Hc.
  destruct (cancelFrom rs 0 ctx s1) as [s2 ev2]. cbn [fst snd] in Hstate, Hc. subst s2.
  eexists. split; [reflexivity|]. split.
  - rewrite calls_app, Hcalls, Hc. reflexivity.
  - apply elem_of_app. left. exact Hlog.
Qed.

End SeckillRunStateFacts.

Section SeckillNoopFacts.
Import SeckillTCC SeckillTCCSpec.

(** Every error path of Try leaves the database as it was. *)
Lemma Try_failure_unchanged (ctx : SeckillTCCContext) (db db' : DB) (e : error) :
  Try ctx db = (db', Some e) → db' = db.
Proof.
  unfold Try.
  destruct (seckill_inventory db !! ProductID ctx) as [row|]; [|congruence].
  destruct (stock row <? Quantity ctx); [congruence|].
  destruct (exec_freeze_stock _ _ _) as [inv rows].
  destruct (rows =? 0); congruence.
Qed.

End SeckillNoopFacts.

Section DirectRunStateFacts.
Import Go Direct DirectSpec.
Context {St : Type}.
Implicit Types (rs : list (DirectTCCResource St)) (ctx : SeckillDirectTCCContext)
               (st : State St).

Lemma run_tables (f : SeckillDirectTCCContext → St → St * option error) ctx st :
  resource_tables (fst (run f ctx st)) = fst (f ctx (resource_tables st))
  ∧ snd (run f ctx st) = snd (f ctx (resource_tables st)).
Proof. unfold run. destruct (f ctx (resource_tables st)). split; reflexivity. Qed.

Lemma mark_tables (ph : phase) (tx : string) (i : nat) st st' :
  markResourceCompleted ph tx i st = Done st' →
  resource_tables st' = resource_tables st.
Proof.
  unfold markResourceCompleted. destruct (resourceTypes !! i); [|discriminate].
  intros H. inversion H. reflexivity.
Qed.

(** With at most three resources [cancelResources] runs to its end, and
    the tables are what the Cancels make of them. *)
Lemma cancelFrom_done_state rs i ctx st :
  (i + length rs ≤ 3)%nat →
  ∃ st' evs, cancelFrom rs i ctx st = Done (st', evs)
             ∧ calls evs = on_each OpCancel (seq i (length rs))
             ∧ tcc_transaction_log st' = tcc_transaction_log st
             ∧ resource_tables st' = cancelled rs ctx (resource_tables st).
Proof.
  revert i st. induction rs as [|r rs IH]; intros i st Hlen; simpl in *.
  - exists st, []. auto.
  - pose proof (run_log (rCancel r) ctx st) as Hlog.
    destruct (run_tables (rCancel r) ctx st) as [Htab _].
    unfold cancelled. cbn [fold_left]. rewrite <- Htab.
    destruct (run (rCancel r) ctx st) as [st1 [e|]]; cbn [fst] in *.
    + destruct (IH (S i) st1 ltac:(lia)) as (st2 & evs & -> & Hcalls & Hlog2 & Htab2).
      eexists _, _. split; [reflexivity|]. cbn [calls].
      split; [unfold on_each in *; cbn [map]; rewrite Hcalls; reflexivity|].
      split; [congruence|exact Htab2].
    + destruct (mark_in_range PhaseCancel (TransactionID ctx) i st1 ltac:(lia))
        as (st1' & Hmark).
      rewrite Hmark. cbn [mbind outcome_bind].
      destruct (IH (S i) st1' ltac:(lia)) as (st2 & evs & -> & Hcalls & Hlog2 & Htab2).
      eexists _, _. split; [reflexivity|]. cbn [calls].
      pose proof (mark_log _ _ _ _ _ Hmark). pose proof (mark_tables _ _ _ _ _ Hmark).
      split; [unfold on_each in *; cbn [map]; rewrite Hcalls; reflexivity|].
      split; [congruence|]. rewrite Htab2. unfold cancelled. congruence.
Qed.

(** The inner loop of [tryResources], over resources of index below 3. *)
Lemma compensate_done (visited : list (nat * DirectTCCResource St)) ctx st :
  Forall (fun p => (p.1 < 3)%nat) visited →
  ∃ st' evs, compensate visited ctx st = Done (st', evs)
             ∧ calls evs = on_each OpCancel (visited.*1)
             ∧ tcc_transaction_log st' = tcc_transaction_log st
             ∧ resource_tables st' = cancelled (visited.*2) ctx (resource_tables st).
Proof.
  revert st. induction visited as [|[j r] visited IH]; intros st Hbound; simpl.
  - exists st, []. auto.
  - apply Forall_cons in Hbound as [Hj Hbound]. cbn [fst] in Hj.
    pose proof (run_log (rCancel r) ctx st) as Hlog.
    destruct (run_tables (rCancel r) ctx st) as [Htab _].
    unfold cancelled. cbn [fold_left]. rewrite <- Htab.
    destruct (run (rCancel r) ctx st) as [st1 [e|]]; cbn [fst] in *.
    + destruct (IH st1 Hbound) as (st2 & evs & -> & Hcalls & Hlog2 & Htab2).
      eexists _, _. split; [reflexivity|]. cbn [calls].
      split; [unfold on_each in *; cbn [map]; rewrite Hcalls; reflexivity|].
      split; [congruence|exact Htab2].
    + destruct (mark_in_range PhaseCancel (TransactionID ctx) j st1 Hj) as (st1' & Hmark).
      rewrite Hmark. cbn [mbind outcome_bind].
      destruct (IH st1' Hbound) as (st2 & evs & -> & Hcalls & Hlog2 & Htab2).
      eexists _, _. split; [reflexivity|]. cbn [calls].
      pose proof (mark_log _ _ _ _ _ Hmark) as Hlog0.
      pose proof (mark_tables _ _ _ _ _ Hmark) as Htab0.
      split; [unfold on_each in *; cbn [map]; rewrite Hcalls; reflexivity|].
      split; [congruence|]. rewrite Htab2, Htab0. reflexivity.
Qed.

Lemma direct_first_failure_tail r0 rs ctx (s s0 : St) k s1 e :
  rTry r0 ctx s = (s0, None) →
  first_failure (r0 :: rs) ctx s (S k) s1 e → first_failure rs ctx s0 k s1 e.
Proof.
  intros Hr0 [Hbefore (r & Hr & Htry)]. split.
  - intros j r' Hj Hr'. specialize (Hbefore (S j) r' ltac:(lia) Hr').
    cbn [take] in Hbefore. unfold tried in *. cbn [fold_left] in Hbefore.
    rewrite Hr0 in Hbefore. exact Hbefore.
  - exists r. split; [exact Hr|].
    cbn [take] in Htry. unfold tried in *. cbn [fold_left] in Htry.
    rewrite Hr0 in Htry. exact Htry.
Qed.

(** [tryResources] up to the first failure: the resources up to the
    failing one are tried, then the earlier ones cancelled, last one
    first. *)
Lemma direct_tryFrom_first_failure (visited : list (nat * DirectTCCResource St))
    rs i ctx st k s1 e :
  (i + length rs ≤ 3)%nat →
  Forall (fun p => (p.1 < 3)%nat) visited →
  first_failure rs ctx (resource_tables st) k s1 e →
  ∃ st1 evs,
    tryFrom visited rs i ctx st = Done (st1, evs, Some e)
    ∧ calls evs = on_each OpTry (seq i (S k))
                  ++ on_each OpCancel (rev (seq i k) ++ visited.*1)
    ∧ LogFailure OpTry (i + k) e ∈ evs
    ∧ tcc_transaction_log st1 = tcc_transaction_log st
    ∧ resource_tables st1 = cancelled (rev (take k rs) ++ visited.*2) ctx s1.
Proof.
  revert visited rs i st. induction k as [|k IH]; intros visited rs i st Hlen Hbound Hfirst.
  - destruct Hfirst as [_ (r & Hr & Htry)].
    destruct rs as [|r0 rs]; [discriminate|]. injection Hr as ->.
    cbn [take] in Htry. unfold tried in Htry. cbn [fold_left] in Htry.
    cbn [tryFrom].
    pose proof (run_log (rTry r) ctx st) as Hlog.
    destruct (run_tables (rTry r) ctx st) as [Htab Hres]. rewrite Htry in Htab, Hres.
    destruct (run (rTry r) ctx st) as [st0 res]. cbn [fst snd] in *. subst res.
    destruct (compensate_done visited ctx st0 Hbound)
      as (st1 & evs & -> & Hcalls & Hlog1 & Htab1).
    cbn [mbind outcome_bind]. eexists _, _. split; [reflexivity|].
    split; [cbn [calls]; rewrite Hcalls; reflexivity|].
    split; [rewrite Nat.add_0_r; right; left|].
    split; [congruence|]. rewrite Htab1, Htab. reflexivity.
  - destruct rs as [|r0 rs].
    { destruct Hfirst as [_ (r & Hr & _)]. discriminate. }
    cbn [length] in Hlen.
    destruct (rTry r0 ctx (resource_tables st)) as [s0 res] eqn:Hr0.
    assert (res = None) as ->.
    { destruct Hfirst as [Hbefore _].
      specialize (Hbefore 0%nat r0 ltac:(lia) eq_refl).
      cbn [take] in Hbefore. unfold tried in Hbefore. cbn [fold_left] in Hbefore.
      rewrite Hr0 in Hbefore. exact Hbefore. }
    pose proof (direct_first_failure_tail _ _ _ _ _ _ _ _ Hr0 Hfirst) as Htail.
    cbn [tryFrom].
    pose proof (run_log (rTry r0) ctx st) as Hlog.
    destruct (run_tables (rTry r0) ctx st) as [Htab Hres]. rewrite Hr0 in Htab, Hres.
    destruct (run (rTry r0) ctx st) as [st0 res]. cbn [fst snd] in *. subst res.
    destruct (mark_in_range PhaseTry (TransactionID ctx) i st0 ltac:(lia)) as (st0' & Hmark).
    rewrite Hmark. cbn [mbind outcome_bind].
    pose proof (mark_log _ _ _ _ _ Hmark) as Hlog0.
    pose proof (mark_tables _ _ _ _ _ Hmark) as Htab0.
    rewrite <- Htab, <- Htab0 in Htail.
    destruct (IH ((i, r0) :: visited) rs (S i) st0' ltac:(lia)
                ltac:(apply Forall_cons; split; [cbn; lia|exact Hbound]) Htail)
      as (st1 & evs & -> & Hcalls & Hlogf & Hlog1 & Htab1).
    cbn [mbind outcome_bind]. eexists _, _. split; [reflexivity|]. split.
    + cbn [calls]. rewrite Hcalls. cbn [fmap list_fmap fst].
      replace (seq i (S (S k))) with (i :: seq (S i) (S k)) by reflexivity.
      unfold on_each. cbn [map app]. f_equal. f_equal.
      replace (seq i (S k)) with (i :: seq (S i) k) by reflexivity.
      cbn [rev]. rewrite <- app_assoc. reflexivity.
    + split; [right; replace (i + S k)%nat with (S i + k)%nat by lia; exact Hlogf|].
      split; [congruence|]. rewrite Htab1. cbn [take rev fmap list_fmap snd].
      rewrite <- app_assoc. reflexivity.
Qed.

(** [ExecuteSeckill] when resource [k] is the first whose Try fails. *)
Lemma ExecuteSeckill_first_failure rs ctx st k s1 e :
  (length rs ≤ 3)%nat →
  unfinished ctx st →
  first_failure rs ctx (resource_tables st) k s1 e →
  ∃ st2 tr,
    ExecuteSeckill rs ctx st = Done (st2, tr, Some (ErrSeckill e))
    ∧ resource_tables st2 = cancelled rs ctx (cancelled (rev (take k rs)) ctx s1)
    ∧ tcc_transaction_log st2
      = <[TransactionID ctx := TCCStatusCancelled]> (tcc_transaction_log st)
    ∧ calls tr = on_each OpTry (seq 0 (S k))
                 ++ on_each OpCancel (rev (seq 0 k))
                 ++ on_each OpCancel (seq 0 (length rs))
    ∧ LogFailure OpTry k e ∈ tr.
Proof.
  intros Hlen [Hnc Hnx] Hfirst.
  destruct (direct_tryFrom_first_failure [] rs 0 ctx st k s1 e ltac:(simpl; lia)
              ltac:(constructor) Hfirst)
    as (st1 & ev1 & Htry & Hcalls1 & Hlogf & Hlog1 & Htab1).
  destruct (cancelFrom_done_state rs 0 ctx
              (logTCCTransaction (TransactionID ctx) TCCStatusCancelled st1)
              ltac:(simpl; lia)) as (st2 & ev2 & Hcancel & Hcalls2 & Hlog2 & Htab2).
  exists st2, (ev1 ++ ev2). split.
  - unfold ExecuteSeckill, tryResources.
    destruct (tcc_transaction_log st !! TransactionID ctx) as [[| |]|];
      try congruence; rewrite Htry; cbn [mbind outcome_bind]; rewrite Hcancel; reflexivity.
  - split.
    { rewrite Htab2. cbn [resource_tables logTCCTransaction]. rewrite Htab1.
      cbn [fmap list_fmap]. rewrite app_nil_r. reflexivity. }
    split.
    { rewrite Hlog2. cbn [tcc_transaction_log logTCCTransaction]. rewrite Hlog1.
      reflexivity. }
    split.
    + rewrite direct_calls_app, Hcalls1, Hcalls2. cbn [fmap list_fmap].
      rewrite app_nil_r, <- app_assoc. reflexivity.
    + apply elem_of_app. left. exact Hlogf.
Qed.

End DirectRunStateFacts.

Section DirectNoopFacts.
Import Direct DirectSpec.

Lemma latest_nil (latest : list DeductLog → option DeductLog) :
  picks_a_row latest → latest [] = None.
Proof.
  intros Hpick. specialize (Hpick []). destruct (latest []) as [r|]; [|reflexivity].
  inversion Hpick.
Qed.

(** Every error path of Try leaves the tables as they were. *)
Lemma direct_Try_failure_unchanged (ctx : SeckillDirectTCCContext) (db db' : DB)
    (e : error) :
  Try ctx db = (db', Some e) → db' = db.
Proof.
  unfold Try. destruct (0 <? _)%nat; [congruence|].
  destruct (exec_deduct _ _ _) as [inv rows].
  destruct (rows =? 0); congruence.
Qed.

(** The Cancel of a transaction without a deduct log changes nothing. *)
Lemma direct_Cancel_fresh_noop (latest : list DeductLog → option DeductLog)
    (ctx : SeckillDirectTCCContext) (db : DB) :
  picks_a_row latest → fresh ctx db → Cancel latest ctx db = (db, None).
Proof.
  intros Hpick Hfresh. unfold Cancel.
  rewrite (fresh_no_log _ _ Hfresh), (latest_nil _ Hpick). reflexivity.
Qed.

End DirectNoopFacts.

(** * The claims *)

(** C1, against the claim.  seckill_tcc.go: the inventory resource is
    confirmed, the Confirm of the second resource fails, and the manager
    answers with Cancel on both resources, after a Confirm was issued.
    improved_seata_style.go: the first statement of the coordinator's Cancel
    takes a transaction from CONFIRMING to CANCELLING. *)
Lemma confirm_failure_is_cancelled :
  snd Sample.seckill_run = Some (SeckillTCC.ErrConfirmPhase SeckillTCC.ErrCommit)
  ∧ SeckillTCCSpec.calls (snd (fst Sample.seckill_run))
    = [(SeckillTCC.OpTry, 0%nat); (SeckillTCC.OpTry, 1%nat);
       (SeckillTCC.OpConfirm, 0%nat); (SeckillTCC.OpConfirm, 1%nat);
       (SeckillTCC.OpCancel, 0%nat); (SeckillTCC.OpCancel, 1%nat)]
  ∧ ¬ SeckillTCCSpec.confirm_bars_cancel (SeckillTCCSpec.calls (snd (fst Sample.seckill_run)))
  ∧ ImprovedSeata.mark_cancelling "tx1" {[ "tx1"%string := Tx.CONFIRMING ]} !! "tx1"%string
    = Some Tx.CANCELLING.
Proof.
  split; [vm_compute; reflexivity|].
  split; [vm_compute; reflexivity|].
  split; [|vm_compute; reflexivity].
  intros Hbar.
  apply (Hbar [(SeckillTCC.OpTry, 0%nat); (SeckillTCC.OpTry, 1%nat)]
              [(SeckillTCC.OpConfirm, 1%nat); (SeckillTCC.OpCancel, 0%nat);
               (SeckillTCC.OpCancel, 1%nat)] 0%nat 0%nat).
  - vm_compute. reflexivity.
  - right. left.
Qed.

(** C1, amended.  When a Confirm fails, [ExecuteSeckillTCC] does not retry
    it: the resources after the failing one are not confirmed, Cancel is
    invoked on every registered resource, in registration order, the failure
    is logged and returned.  The coordinator of improved_seata_style.go lets
    Cancel take a transaction from TRYING, TRIED or CONFIRMING to
    CANCELLING. *)
Theorem confirm_failure_cancels_all :
  (∀ (St : Type) (rs : list (SeckillTCC.SeckillTCCResource St))
     (ctx : SeckillTCC.SeckillTCCContext) (s s' : St)
     (tr : list SeckillTCC.event) (e : SeckillTCC.error),
      SeckillTCC.ExecuteSeckillTCC rs ctx s = (s', tr, Some (SeckillTCC.ErrConfirmPhase e)) →
      ∃ k, (k < length rs)%nat
           ∧ SeckillTCCSpec.calls tr
             = SeckillTCCSpec.sweep_of SeckillTCC.OpTry 0 (length rs)
               ++ SeckillTCCSpec.sweep_of SeckillTCC.OpConfirm 0 (S k)
               ++ SeckillTCCSpec.sweep_of SeckillTCC.OpCancel 0 (length rs)
           ∧ SeckillTCC.LogFailure SeckillTCC.OpConfirm k e ∈ tr)
  ∧ (∀ (txID : string) (tbl : gmap string Tx.status) (st : Tx.status),
      tbl !! txID = Some st →
      st = Tx.TRYING ∨ st = Tx.TRIED ∨ st = Tx.CONFIRMING →
      ImprovedSeata.mark_cancelling txID tbl !! txID = Some Tx.CANCELLING).
Proof.
  split.
  - intros St. exact (@ExecuteSeckillTCC_confirm_failure St).
  - exact mark_cancelling_from.
Qed.

Lemma confirm_failure_cancels_all_witness :
  (∃ k, (k < length Sample.seckill_resources)%nat
        ∧ SeckillTCCSpec.calls (snd (fst Sample.seckill_run))
          = SeckillTCCSpec.sweep_of SeckillTCC.OpTry 0 (length Sample.seckill_resources)
            ++ SeckillTCCSpec.sweep_of SeckillTCC.OpConfirm 0 (S k)
            ++ SeckillTCCSpec.sweep_of SeckillTCC.OpCancel 0 (length Sample.seckill_resources)
        ∧ SeckillTCC.LogFailure SeckillTCC.OpConfirm k SeckillTCC.ErrCommit
          ∈ snd (fst Sample.seckill_run))
  ∧ ImprovedSeata.mark_cancelling "tx1" {[ "tx1"%string := Tx.CONFIRMING ]} !! "tx1"%string
    = Some Tx.CANCELLING.
Proof.
  destruct confirm_failure_cancels_all as [Hrun Hmark]. split.
  - apply (Hrun SeckillTCC.DB Sample.seckill_resources (Sample.seckill_ctx 1)
             Sample.seckill_db (fst (fst Sample.seckill_run))).
    vm_compute. reflexivity.
  - apply (Hmark "tx1"%string _ Tx.CONFIRMING).
    + vm_compute. reflexivity.
    + right. right. reflexivity.
Defined.

(** C2, against the claim: seckill_tcc.go's inventory Try is not idempotent;
    the second call with the same context succeeds and changes the state
    again. *)
Lemma seckill_try_not_idempotent : ¬ try_idempotent SeckillTCC.Try.
Proof.
  intros Hidem.
  specialize (Hidem (Sample.seckill_ctx 1) Sample.seckill_db
                (fst (SeckillTCC.Try (Sample.seckill_ctx 1) Sample.seckill_db))
                ltac:(vm_compute; reflexivity)).
  apply (f_equal (fun out => length (SeckillTCC.seckill_inventory_freeze (fst out))))
    in Hidem.
  vm_compute in Hidem. discriminate.
Qed.

(** C2, amended.  Try is idempotent where the manager looks the branch up
    first: a second call of improved_seata_style.go's InventoryRM.Try with
    the same arguments returns what the first call returned and leaves the
    state the first call produced.  SeckillInventoryResource.Try of
    seckill_tcc.go has no such lookup: a second successful call moves the
    quantity from stock to frozen stock once more and appends a second
    FROZEN record. *)
Theorem try_idempotent_where_looked_up :
  (∀ (args : ImprovedSeata.Args) (db : ImprovedSeata.DB),
      ImprovedSeata.InventoryRM_Try args (fst (ImprovedSeata.InventoryRM_Try args db))
      = ImprovedSeata.InventoryRM_Try args db)
  ∧ try_idempotent ImprovedSeata.InventoryRM_Try
  ∧ (∀ (ctx : SeckillTCC.SeckillTCCContext) (db db1 db2 : SeckillTCC.DB),
      SeckillTCC.Try ctx db = (db1, None) →
      SeckillTCC.Try ctx db1 = (db2, None) →
      let record :=
        {| SeckillTCC.transaction_id := SeckillTCC.TransactionID ctx;
           SeckillTCC.product_id := SeckillTCC.ProductID ctx;
           SeckillTCC.quantity := SeckillTCC.Quantity ctx;
           SeckillTCC.status := SeckillTCC.FROZEN |} in
      SeckillTCC.seckill_inventory_freeze db2
      = SeckillTCC.seckill_inventory_freeze db ++ [record; record]
      ∧ ∃ row, SeckillTCC.seckill_inventory db !! SeckillTCC.ProductID ctx = Some row
               ∧ SeckillTCC.seckill_inventory db2 !! SeckillTCC.ProductID ctx
                 = Some {| SeckillTCC.stock :=
                             SeckillTCC.stock row - 2 * SeckillTCC.Quantity ctx;
                           SeckillTCC.frozen_stock :=
                             SeckillTCC.frozen_stock row + 2 * SeckillTCC.Quantity ctx;
                           SeckillTCC.sold_stock := SeckillTCC.sold_stock row |}).
Proof.
  split; [|split].
  - exact improved_try_idempotent.
  - intros args db db1 Htry.
    pose proof (improved_try_idempotent args db) as H.
    rewrite Htry in H. exact H.
  - exact seckill_try_twice.
Qed.

Lemma try_idempotent_where_looked_up_witness :
  ImprovedSeata.InventoryRM_Try Sample.improved_args
    (fst (ImprovedSeata.InventoryRM_Try Sample.improved_args Sample.improved_db))
  = ImprovedSeata.InventoryRM_Try Sample.improved_args Sample.improved_db
  ∧ (SeckillTCC.seckill_inventory_freeze Sample.seckill_tried_twice
     = SeckillTCC.seckill_inventory_freeze Sample.seckill_db
       ++ [Sample.seckill_record 1; Sample.seckill_record 1]
     ∧ ∃ row, SeckillTCC.seckill_inventory Sample.seckill_db !! 2001 = Some row
              ∧ SeckillTCC.seckill_inventory Sample.seckill_tried_twice !! 2001
                = Some {| SeckillTCC.stock := SeckillTCC.stock row - 2 * 1;
                          SeckillTCC.frozen_stock := SeckillTCC.frozen_stock row + 2 * 1;
                          SeckillTCC.sold_stock := SeckillTCC.sold_stock row |}).
Proof.
  destruct try_idempotent_where_looked_up as (Hlookup & _ & Htwice). split.
  - apply Hlookup.
  - apply (Htwice (Sample.seckill_ctx 1) Sample.seckill_db
             Sample.seckill_tried_once Sample.seckill_tried_twice).
    + vm_compute. reflexivity.
    + vm_compute. reflexivity.
Defined.

(** C3.  Round trip: from a state that holds no freeze record (deduct log)
    of the transaction, so that Try is the call that reserves and not its
    idempotent replay, a successful Try followed by Cancel succeeds and
    leaves the inventory table, with its available, frozen and committed
    counters, exactly as it was before the Try; in each of the three
    inventory managers. *)
Theorem try_cancel_roundtrip :
  (∀ (ctx : SeckillTCC.SeckillTCCContext) (db db1 : SeckillTCC.DB),
      SeckillTCCSpec.fresh ctx db →
      SeckillTCC.Try ctx db = (db1, None) →
      ∃ db2, SeckillTCC.Cancel ctx db1 = (db2, None)
             ∧ SeckillTCC.seckill_inventory db2 = SeckillTCC.seckill_inventory db)
  ∧ (∀ (args : ImprovedSeata.Args) (db db1 : ImprovedSeata.DB),
      ImprovedSeataSpec.fresh args db →
      ImprovedSeata.InventoryRM_Try args db = (db1, None) →
      ∃ db2, ImprovedSeata.InventoryRM_Cancel args db1 = (db2, None)
             ∧ ImprovedSeata.seckill_inventory db2 = ImprovedSeata.seckill_inventory db)
  ∧ (∀ (latest : list Direct.DeductLog → option Direct.DeductLog)
       (ctx : Direct.SeckillDirectTCCContext) (db db1 : Direct.DB),
      Direct.picks_a_row latest →
      DirectSpec.fresh ctx db →
      Direct.Try ctx db = (db1, None) →
      ∃ db2, Direct.Cancel latest ctx db1 = (db2, None)
             ∧ Direct.seckill_inventory db2 = Direct.seckill_inventory db).
Proof.
  split; [|split].
  - exact seckill_try_cancel_roundtrip.
  - exact improved_try_cancel_roundtrip.
  - exact direct_try_cancel_roundtrip.
Qed.

Lemma try_cancel_roundtrip_witness :
  (∃ db2, SeckillTCC.Cancel (Sample.seckill_ctx 3)
            (fst (SeckillTCC.Try (Sample.seckill_ctx 3) Sample.seckill_db)) = (db2, None)
          ∧ SeckillTCC.seckill_inventory db2
            = SeckillTCC.seckill_inventory Sample.seckill_db)
  ∧ (∃ db2, ImprovedSeata.InventoryRM_Cancel Sample.improved_args
              (fst (ImprovedSeata.InventoryRM_Try Sample.improved_args Sample.improved_db))
            = (db2, None)
            ∧ ImprovedSeata.seckill_inventory db2
              = ImprovedSeata.seckill_inventory Sample.improved_db)
  ∧ (∃ db2, Direct.Cancel Sample.direct_latest (Sample.direct_ctx 1)
              (fst (Direct.Try (Sample.direct_ctx 1) Sample.direct_db)) = (db2, None)
            ∧ Direct.seckill_inventory db2 = Direct.seckill_inventory Sample.direct_db).
Proof.
  destruct try_cancel_roundtrip as (Hseckill & Himproved & Hdirect).
  split; [|split].
  - apply (Hseckill (Sample.seckill_ctx 3) Sample.seckill_db).
    + intros r Hr. inversion Hr.
    + vm_compute. reflexivity.
  - apply (Himproved Sample.improved_args Sample.improved_db).
    + reflexivity.
    + vm_compute. reflexivity.
  - apply (Hdirect Sample.direct_latest (Sample.direct_ctx 1) Sample.direct_db).
    + exact direct_latest_picks.
    + intros r Hr. inversion Hr.
    + vm_compute. reflexivity.
Defined.

(** C4, at the failing input.  improved_seata_style.go: Confirm on a branch
    that is CANCELLED reports no error and takes the quantity off the total
    stock; only the freeze record keeps its state. *)
Theorem improved_confirm_after_cancel :
  snd (ImprovedSeata.InventoryRM_Confirm Sample.improved_args Sample.improved_db_cancelled)
  = None
  ∧ ImprovedSeata.seckill_inventory
      (fst (ImprovedSeata.InventoryRM_Confirm Sample.improved_args
              Sample.improved_db_cancelled)) !! 2001
    = Some {| ImprovedSeata.total := 8; ImprovedSeata.available := 10 |}
  ∧ ImprovedSeata.inventory_freeze
      (fst (ImprovedSeata.InventoryRM_Confirm Sample.improved_args
              Sample.improved_db_cancelled)) !! ("tx1"%string, 2001)
    = Some {| ImprovedSeata.freeze_quantity := 2;
              ImprovedSeata.state := ImprovedSeata.CANCELLED |}.
Proof. vm_compute. repeat split. Qed.

(** C5.  A Try that asks for more than the available stock fails and changes
    nothing: in seckill_tcc.go the stock check answers "insufficient" before
    any statement writes; in the direct prototype, for a transaction without
    a deduct log (one the idempotence check does not answer), the guarded
    UPDATE matches no row and the transaction is rolled back.  No counter
    moves and no freeze record or log row is inserted. *)
Theorem try_exhausted_no_mutation :
  (∀ (ctx : SeckillTCC.SeckillTCCContext) (db : SeckillTCC.DB) (row : SeckillTCC.InventoryRow),
      SeckillTCC.seckill_inventory db !! SeckillTCC.ProductID ctx = Some row →
      SeckillTCC.stock row < SeckillTCC.Quantity ctx →
      SeckillTCC.Try ctx db
      = (db, Some (SeckillTCC.ErrInsufficient (SeckillTCC.stock row)
                                              (SeckillTCC.Quantity ctx))))
  ∧ (∀ (ctx : Direct.SeckillDirectTCCContext) (db : Direct.DB) (row : Direct.InventoryRow),
      DirectSpec.fresh ctx db →
      Direct.seckill_inventory db !! Direct.ProductID ctx = Some row →
      Direct.stock row < Direct.Quantity ctx →
      Direct.Try ctx db = (db, Some Direct.ErrDeduct)).
Proof.
  split.
  - exact seckill_try_insufficient.
  - exact direct_try_insufficient.
Qed.

Lemma try_exhausted_no_mutation_witness :
  SeckillTCC.Try (Sample.seckill_ctx 11) Sample.seckill_db
  = (Sample.seckill_db, Some (SeckillTCC.ErrInsufficient 10 11))
  ∧ Direct.Try (Sample.direct_ctx 2) Sample.direct_db
    = (Sample.direct_db, Some Direct.ErrDeduct).
Proof.
  destruct try_exhausted_no_mutation as [Hseckill Hdirect]. split.
  - apply (Hseckill (Sample.seckill_ctx 11) Sample.seckill_db
             {| SeckillTCC.stock := 10; SeckillTCC.frozen_stock := 0;
                SeckillTCC.sold_stock := 0 |}).
    + reflexivity.
    + simpl. lia.
  - apply (Hdirect (Sample.direct_ctx 2) Sample.direct_db
             {| Direct.stock := 1; Direct.sold_count := 99;
                Direct.status := Direct.ACTIVE |}).
    + intros r Hr. inversion Hr.
    + reflexivity.
    + simpl. lia.
Defined.

(** C6, against the claim: from the initial stock of product 2001, a Try
    with quantity -1 passes the stock check and leaves a frozen stock of
    -1. *)
Lemma try_negative_quantity_breaks_frozen :
  SeckillTCCSpec.consistent Sample.seckill_db
  ∧ snd (SeckillTCC.Try (Sample.seckill_ctx (-1)) Sample.seckill_db) = None
  ∧ SeckillTCC.frozen_stock
      <$> SeckillTCC.seckill_inventory
            (fst (SeckillTCC.Try (Sample.seckill_ctx (-1)) Sample.seckill_db)) !! 2001
    = Some (-1).
Proof.
  split; [exact sample_db_consistent|]. vm_compute. split; reflexivity.
Qed.

(** C6, amended.  Every Try, Confirm and Cancel of seckill_tcc.go's
    inventory resource keeps available + frozen + sold of every product,
    whatever the arguments.  When the quantity of a Try is not negative, the
    operations also keep the consistent states (no negative recorded
    quantity, no negative stock, frozen stock covering the FROZEN records),
    and in such a state available >= 0 and frozen >= 0 for every product;
    so it is after every history of calls from a consistent state in which
    no Try asks for a negative quantity. *)
Theorem stock_partition_preserved :
  ∀ (o : SeckillTCC.op) (ctx : SeckillTCC.SeckillTCCContext) (db : SeckillTCC.DB),
    (∀ pid, SeckillTCCSpec.partition_sum (fst (SeckillTCCSpec.perform o ctx db)) pid
            = SeckillTCCSpec.partition_sum db pid)
    ∧ (SeckillTCCSpec.consistent db →
       (o = SeckillTCC.OpTry → 0 ≤ SeckillTCC.Quantity ctx) →
       SeckillTCCSpec.consistent (fst (SeckillTCCSpec.perform o ctx db))
       ∧ ∀ pid row,
           SeckillTCC.seckill_inventory (fst (SeckillTCCSpec.perform o ctx db)) !! pid
           = Some row →
           0 ≤ SeckillTCC.stock row ∧ 0 ≤ SeckillTCC.frozen_stock row)
    ∧ (∀ steps : list (SeckillTCC.op * SeckillTCC.SeckillTCCContext),
         SeckillTCCSpec.consistent db → SeckillTCCSpec.sane steps →
         ∀ pid,
           SeckillTCCSpec.partition_sum (SeckillTCCSpec.perform_all steps db) pid
           = SeckillTCCSpec.partition_sum db pid
           ∧ ∀ row,
               SeckillTCC.seckill_inventory (SeckillTCCSpec.perform_all steps db) !! pid
               = Some row →
               0 ≤ SeckillTCC.stock row ∧ 0 ≤ SeckillTCC.frozen_stock row).
Proof.
  intros o ctx db. split; [|split].
  - intros pid. apply perform_partition_sum.
  - intros Hdb Hq.
    pose proof (perform_consistent o ctx db Hdb Hq) as Hc.
    split; [exact Hc|].
    intros pid row Hrow. exact (consistent_nonneg _ _ _ Hc Hrow).
  - intros steps Hdb Hsane pid. split.
    + apply perform_all_partition_sum.
    + intros row Hrow.
      exact (consistent_nonneg _ _ _ (perform_all_consistent steps db Hdb Hsane) Hrow).
Qed.

Lemma stock_partition_preserved_witness :
  SeckillTCCSpec.consistent
    (fst (SeckillTCCSpec.perform SeckillTCC.OpTry (Sample.seckill_ctx 3) Sample.seckill_db))
  ∧ ∀ pid row,
      SeckillTCC.seckill_inventory
        (fst (SeckillTCCSpec.perform SeckillTCC.OpTry (Sample.seckill_ctx 3)
                Sample.seckill_db)) !! pid = Some row →
      0 ≤ SeckillTCC.stock row ∧ 0 ≤ SeckillTCC.frozen_stock row.
Proof.
  destruct (stock_partition_preserved SeckillTCC.OpTry (Sample.seckill_ctx 3)
              Sample.seckill_db) as (_ & Hstep & _).
  apply Hstep.
  - exact sample_db_consistent.
  - intros _. simpl. lia.
Defined.

(** C7, against the claim.  In seckill_tcc.go a failed Try is followed
    by Cancel on every registered resource, also on one whose Try never
    ran, and nothing is recorded: the manager keeps no phase and no last
    error, so after the run below (stock 10, quantity 11) every table is
    as before and the failure exists only as the log line and the value
    returned. *)
Lemma try_failure_cancels_untried_and_records_nothing :
  SeckillTCC.ExecuteSeckillTCC MoreSpec.seckill_resources (Sample.seckill_ctx 11)
    MoreSample.seckill_store
  = (MoreSample.seckill_store,
     [SeckillTCC.Call SeckillTCC.OpTry 0;
      SeckillTCC.LogFailure SeckillTCC.OpTry 0 (SeckillTCC.ErrInsufficient 10 11);
      SeckillTCC.Call SeckillTCC.OpCancel 0;
      SeckillTCC.Call SeckillTCC.OpCancel 1],
     Some (SeckillTCC.ErrTryPhase (SeckillTCC.ErrInsufficient 10 11))).
Proof. vm_compute. reflexivity. Qed.

(** C7.  When resource k is the first whose Try fails, the manager of
    seckill_tcc.go stops trying, logs the failure, invokes Cancel once on
    every registered resource in registration order (the failed one and
    the ones never tried included), invokes no Confirm and returns the
    failure wrapped as the Try-phase error; the store ends as these Cancels
    leave the store of the failed Try.  The direct prototype (at most
    three resources, transaction not logged as finished) first cancels the
    resources before the failed one, last one first, then writes CANCELLED
    to tcc_transaction_log, cancels every resource in order and returns the
    failure wrapped; its tables end as these Cancels leave them.  In both
    prototypes a failed Try of the inventory resource changes nothing, and
    its Cancel on a transaction without a record changes nothing
    either. *)
Theorem try_failure_cancels_and_reports :
  (∀ (St : Type) (rs : list (SeckillTCC.SeckillTCCResource St))
     (ctx : SeckillTCC.SeckillTCCContext) (s : St) (k : nat) (s1 : St)
     (e : SeckillTCC.error),
      SeckillTCCSpec.first_failure rs ctx s k s1 e →
      ∃ tr,
        SeckillTCC.ExecuteSeckillTCC rs ctx s
        = (SeckillTCCSpec.cancelled rs ctx s1, tr, Some (SeckillTCC.ErrTryPhase e))
        ∧ SeckillTCCSpec.calls tr
          = SeckillTCCSpec.sweep_of SeckillTCC.OpTry 0 (S k)
            ++ SeckillTCCSpec.sweep_of SeckillTCC.OpCancel 0 (length rs)
        ∧ SeckillTCC.LogFailure SeckillTCC.OpTry k e ∈ tr
        ∧ (∀ j, (j ≤ k)%nat → (SeckillTCC.OpCancel, j) ∈ SeckillTCCSpec.calls tr)
        ∧ (∀ j, (SeckillTCC.OpConfirm, j) ∉ SeckillTCCSpec.calls tr))
  ∧ (∀ (St : Type) (rs : list (Direct.DirectTCCResource St))
       (ctx : Direct.SeckillDirectTCCContext) (st : Direct.State St) (k : nat)
       (s1 : St) (e : Direct.error),
      (length rs ≤ 3)%nat →
      DirectSpec.unfinished ctx st →
      DirectSpec.first_failure rs ctx (Direct.resource_tables st) k s1 e →
      ∃ st2 tr,
        Direct.ExecuteSeckill rs ctx st = Go.Done (st2, tr, Some (Direct.ErrSeckill e))
        ∧ Direct.resource_tables st2
          = DirectSpec.cancelled rs ctx (DirectSpec.cancelled (rev (take k rs)) ctx s1)
        ∧ Direct.tcc_transaction_log st2
          = <[Direct.TransactionID ctx := Direct.TCCStatusCancelled]>
              (Direct.tcc_transaction_log st)
        ∧ DirectSpec.calls tr
          = DirectSpec.on_each Direct.OpTry (seq 0 (S k))
            ++ DirectSpec.on_each Direct.OpCancel (rev (seq 0 k))
            ++ DirectSpec.on_each Direct.OpCancel (seq 0 (length rs))
        ∧ Direct.LogFailure Direct.OpTry k e ∈ tr
        ∧ (∀ j, (j ≤ k)%nat → (Direct.OpCancel, j) ∈ DirectSpec.calls tr)
        ∧ (∀ j, (Direct.OpConfirm, j) ∉ DirectSpec.calls tr))
  ∧ (∀ (ctx : SeckillTCC.SeckillTCCContext) (db db' : SeckillTCC.DB)
       (e : SeckillTCC.error),
      SeckillTCCSpec.fresh ctx db →
      SeckillTCC.Try ctx db = (db', Some e) →
      db' = db ∧ SeckillTCC.Cancel ctx db' = (db', None))
  ∧ (∀ (latest : list Direct.DeductLog → option Direct.DeductLog)
       (ctx : Direct.SeckillDirectTCCContext) (db db' : Direct.DB) (e : Direct.error),
      Direct.picks_a_row latest →
      DirectSpec.fresh ctx db →
      Direct.Try ctx db = (db', Some e) →
      db' = db ∧ Direct.Cancel latest ctx db' = (db', None)).
Proof.
  split; [|split; [|split]].
  - intros St rs ctx s k s1 e Hfirst.
    destruct (ExecuteSeckillTCC_first_failure rs ctx s k s1 e Hfirst)
      as (tr & Hrun & Hcalls & Hlog).
    exists tr. repeat split; try assumption.
    + intros j Hj. rewrite Hcalls. apply elem_of_app. right.
      apply elem_of_sweep_of. split; [reflexivity|].
      destruct Hfirst as [_ (r & Hr & _)]. apply lookup_lt_Some in Hr. lia.
    + intros j Hin. rewrite Hcalls in Hin.
      apply elem_of_app in Hin as [Hin|Hin];
        apply elem_of_sweep_of in Hin as [Hop _]; discriminate.
  - intros St rs ctx st k s1 e Hlen Hunf Hfirst.
    destruct (ExecuteSeckill_first_failure rs ctx st k s1 e Hlen Hunf Hfirst)
      as (st2 & tr & Hrun & Htab & Hphase & Hcalls & Hlog).
    exists st2, tr. repeat split; try assumption.
    + intros j Hj. rewrite Hcalls. apply elem_of_app. right. apply elem_of_app. right.
      apply elem_of_on_each. split; [reflexivity|]. apply elem_of_seq.
      destruct Hfirst as [_ (r & Hr & _)]. apply lookup_lt_Some in Hr. lia.
    + intros j Hin. rewrite Hcalls in Hin.
      apply elem_of_app in Hin as [Hin|Hin];
        [|apply elem_of_app in Hin as [Hin|Hin]];
        apply elem_of_on_each in Hin as [Hop _]; discriminate.
  - intros ctx db db' e Hfresh Htry.
    apply Try_failure_unchanged in Htry as ->.
    split; [reflexivity|]. exact (Cancel_fresh_noop ctx db Hfresh).
  - intros latest ctx db db' e Hpick Hfresh Htry.
    apply direct_Try_failure_unchanged in Htry as ->.
    split; [reflexivity|]. exact (direct_Cancel_fresh_noop latest ctx db Hpick Hfresh).
Qed.

Lemma try_failure_cancels_and_reports_witness :
  (∃ tr,
      SeckillTCC.ExecuteSeckillTCC MoreSpec.seckill_resources (Sample.seckill_ctx 11)
        MoreSample.seckill_store
      = (SeckillTCCSpec.cancelled MoreSpec.seckill_resources (Sample.seckill_ctx 11)
           MoreSample.seckill_store, tr,
         Some (SeckillTCC.ErrTryPhase (SeckillTCC.ErrInsufficient 10 11)))
      ∧ SeckillTCCSpec.calls tr
        = SeckillTCCSpec.sweep_of SeckillTCC.OpTry 0 1
          ++ SeckillTCCSpec.sweep_of SeckillTCC.OpCancel 0 (length MoreSpec.seckill_resources)
      ∧ SeckillTCC.LogFailure SeckillTCC.OpTry 0 (SeckillTCC.ErrInsufficient 10 11) ∈ tr
      ∧ (∀ j, (j ≤ 0)%nat → (SeckillTCC.OpCancel, j) ∈ SeckillTCCSpec.calls tr)
      ∧ (∀ j, (SeckillTCC.OpConfirm, j) ∉ SeckillTCCSpec.calls tr))
  ∧ (∃ st2 tr,
      Direct.ExecuteSeckill [Direct.DirectInventoryResource Sample.direct_latest]
        (Sample.direct_ctx 2) Sample.direct_state
      = Go.Done (st2, tr, Some (Direct.ErrSeckill Direct.ErrDeduct))
      ∧ Direct.resource_tables st2
        = DirectSpec.cancelled [Direct.DirectInventoryResource Sample.direct_latest]
            (Sample.direct_ctx 2)
            (DirectSpec.cancelled
               (rev (take 0 [Direct.DirectInventoryResource Sample.direct_latest]))
               (Sample.direct_ctx 2) Sample.direct_db)
      ∧ Direct.tcc_transaction_log st2
        = <[Direct.TransactionID (Sample.direct_ctx 2) := Direct.TCCStatusCancelled]>
            (Direct.tcc_transaction_log Sample.direct_state)
      ∧ DirectSpec.calls tr
        = DirectSpec.on_each Direct.OpTry (seq 0 1)
          ++ DirectSpec.on_each Direct.OpCancel (rev (seq 0 0))
          ++ DirectSpec.on_each Direct.OpCancel (seq 0 1)
      ∧ Direct.LogFailure Direct.OpTry 0 Direct.ErrDeduct ∈ tr
      ∧ (∀ j, (j ≤ 0)%nat → (Direct.OpCancel, j) ∈ DirectSpec.calls tr)
      ∧ (∀ j, (Direct.OpConfirm, j) ∉ DirectSpec.calls tr))
  ∧ (Sample.seckill_db = Sample.seckill_db
     ∧ SeckillTCC.Cancel (Sample.seckill_ctx 11) Sample.seckill_db
       = (Sample.seckill_db, None))
  ∧ (Sample.direct_db = Sample.direct_db
     ∧ Direct.Cancel Sample.direct_latest (Sample.direct_ctx 2) Sample.direct_db
       = (Sample.direct_db, None)).
Proof.
  destruct try_failure_cancels_and_reports as (Hseckill & Hdirect & Hnoop & Hnoop').
  split; [|split; [|split]].
  - apply (Hseckill SeckillOrder.Store MoreSpec.seckill_resources (Sample.seckill_ctx 11)
             MoreSample.seckill_store 0%nat MoreSample.seckill_store
             (SeckillTCC.ErrInsufficient 10 11)).
    split.
    + intros j r Hj. lia.
    + exists SeckillOrder.InventoryResource. split; vm_compute; reflexivity.
  - apply (Hdirect Direct.DB [Direct.DirectInventoryResource Sample.direct_latest]
             (Sample.direct_ctx 2) Sample.direct_state 0%nat Sample.direct_db
             Direct.ErrDeduct).
    + simpl. lia.
    + split; vm_compute; discriminate.
    + split.
      * intros j r Hj. lia.
      * exists (Direct.DirectInventoryResource Sample.direct_latest).
        split; vm_compute; reflexivity.
  - apply (Hnoop (Sample.seckill_ctx 11) Sample.seckill_db Sample.seckill_db
             (SeckillTCC.ErrInsufficient 10 11)).
    + intros r Hr. inversion Hr.
    + vm_compute. reflexivity.
  - apply (Hnoop' Sample.direct_latest (Sample.direct_ctx 2) Sample.direct_db
             Sample.direct_db Direct.ErrDeduct).
    + exact direct_latest_picks.
    + intros r Hr. inversion Hr.
    + vm_compute. reflexivity.
Defined.

(** C8, against the claim.  seckill_standard.go: at time 1000 the round of
    [Compensate] selects a TRIED transaction that has no retry left and
    whose timeout passed at time 100, calls Confirm for it and takes it to
    CONFIRMED; the sweep query of the design script would not select it. *)
Lemma sweeper_ignores_retries_and_timeout :
  (∃ st', Standard.Compensate_round Sample.standard_resources (fun _ => ["inventory"%string])
            1000 Sample.standard_state
          = Go.Done (st', [("tx9"%string, Standard.CallConfirm, None)])
          ∧ TxTable.status <$> Standard.tcc_transaction st' !! "tx9"%string
            = Some Tx.CONFIRMED)
  ∧ ¬ (TxTable.retry_count Sample.stale_row < TxTable.max_retry Sample.stale_row)
  ∧ TxTable.timeout_time Sample.stale_row = Some 100
  ∧ DesignScript.selectable 1000 Sample.stale_row = false.
Proof.
  split.
  - eexists. split; vm_compute; reflexivity.
  - split; [simpl; lia|]. split; reflexivity.
Qed.

(** C8, amended.  The round of [Compensate] selects the transactions in a
    non-terminal phase that were created more than five minutes ago, without
    reading retry_count, max_retry or timeout_time, and calls for each
    selected transaction Cancel when it is TRYING or CANCELLING and Confirm
    when it is TRIED or CONFIRMING; Confirm takes a TRIED transaction whose
    managers confirm to CONFIRMED.  The design script's sweep query returns
    at most a hundred rows, all in a non-terminal phase with retry_count <
    max_retry and now < timeout_time; its timeout statement marks a
    transaction whose timeout has passed FAILED, and the query returns no
    FAILED transaction. *)
Theorem sweeper_selection_and_dispatch :
  (∀ (now : Z) (tbl : gmap string TxTable.Row) (txID : string) (st : Tx.status),
      (txID, st) ∈ Standard.select_due now tbl ↔
      ∃ r, tbl !! txID = Some r ∧ TxTable.status r = st
           ∧ Tx.non_terminal st = true
           ∧ TxTable.create_time r < now - 300)
  ∧ (∀ (resources : gmap string Standard.ResourceManager)
       (order_of : string → list string) (now : Z) (st st' : Standard.State)
       (evs : list (string * Standard.action * option Standard.error)),
      Standard.Compensate_round resources order_of now st = Go.Done (st', evs) →
      evs.*1 = map (fun row => (row.1, StandardSpec.expected_action row.2))
                   (Standard.select_due now (Standard.tcc_transaction st)))
  ∧ (∀ (resources : gmap string Standard.ResourceManager) (order : list string)
       (now : Z) (txID : string) (args : Standard.Args) (st : Standard.State)
       (r : TxTable.Row) (t1 : Standard.Tables),
      Standard.tcc_transaction st !! txID = Some r →
      TxTable.status r = Tx.TRIED →
      Standard.range_resources Standard.rmConfirm resources order args (Standard.tables st)
      = Go.Done (t1, None) →
      ∃ st', Standard.Confirm resources order now txID args st = Go.Done (st', None)
             ∧ TxTable.status <$> Standard.tcc_transaction st' !! txID = Some Tx.CONFIRMED)
  ∧ (∀ (now : Z) (tbl : gmap string TxTable.Row),
      (length (DesignScript.sweep_query now tbl) ≤ 100)%nat
      ∧ ∀ txID r, (txID, r) ∈ DesignScript.sweep_query now tbl →
          tbl !! txID = Some r
          ∧ Tx.non_terminal (TxTable.status r) = true
          ∧ TxTable.retry_count r < TxTable.max_retry r
          ∧ ∃ t, TxTable.timeout_time r = Some t ∧ now < t)
  ∧ (∀ (now later : Z) (txID : string) (tbl : gmap string TxTable.Row)
       (r : TxTable.Row) (t : Z),
      tbl !! txID = Some r → TxTable.timeout_time r = Some t → t < now →
      TxTable.status <$> DesignScript.mark_timeout now txID tbl !! txID = Some Tx.FAILED
      ∧ ∀ r', (txID, r') ∉ DesignScript.sweep_query later
                              (DesignScript.mark_timeout now txID tbl)).
Proof.
  split; [exact select_due_spec|].
  split.
  { intros resources order_of now st st' evs Hround.
    unfold Standard.Compensate_round in Hround.
    rewrite (redrive_rows_dispatch _ _ _ _ _ _ _ Hround).
    apply dispatch_non_terminal.
    intros [txID s] Hrow. apply select_due_spec in Hrow as (r & _ & _ & Hnt & _).
    exact Hnt. }
  split; [exact Confirm_tried|].
  split; [exact sweep_query_sound|].
  intros now later txID tbl r t Hr Ht Hlt.
  pose proof (mark_timeout_failed now txID tbl r t Hr Ht Hlt) as Hfailed.
  split; [exact Hfailed|].
  apply failed_not_swept. exact Hfailed.
Qed.

Lemma sweeper_selection_and_dispatch_witness :
  (∃ st', Standard.Confirm Sample.standard_resources ["inventory"%string] 1000 "tx9"
            (Standard.recoverArgs "tx9") Sample.standard_state = Go.Done (st', None)
          ∧ TxTable.status <$> Standard.tcc_transaction st' !! "tx9"%string
            = Some Tx.CONFIRMED)
  ∧ (TxTable.status
       <$> DesignScript.mark_timeout 1000 "tx9" {[ "tx9"%string := Sample.stale_row ]}
           !! "tx9"%string = Some Tx.FAILED
     ∧ ∀ r', ("tx9"%string, r')
             ∉ DesignScript.sweep_query 2000
                 (DesignScript.mark_timeout 1000 "tx9" {[ "tx9"%string := Sample.stale_row ]})).
Proof.
  destruct sweeper_selection_and_dispatch as (_ & _ & Hconfirm & _ & Htimeout).
  split.
  - apply (Hconfirm Sample.standard_resources ["inventory"%string] 1000 "tx9"%string
             (Standard.recoverArgs "tx9") Sample.standard_state Sample.stale_row
             Sample.standard_tables_confirmed).
    + reflexivity.
    + reflexivity.
    + vm_compute. reflexivity.
  - apply (Htimeout 1000 2000 "tx9"%string {[ "tx9"%string := Sample.stale_row ]}
             Sample.stale_row 100).
    + reflexivity.
    + reflexivity.
    + lia.
Defined.

(** C9, against the claim.  improved_seata_style.go keeps its managers in a
    map: with the same managers, transaction id, arguments and database, the
    run that iterates "inventory" first and the run that iterates "order"
    first call Try in different sequences. *)
Lemma map_iteration_order_not_fixed :
  ¬ ImprovedSeataSpec.fixed_order ImprovedSeataSpec.registered "tx1"
      Sample.improved_args Sample.improved_db.
Proof.
  intros Hfixed.
  specialize (Hfixed _ _ registered_iteration_1 registered_iteration_2).
  vm_compute in Hfixed. discriminate.
Qed.

(** C9, amended.  The manager of seckill_tcc.go, which keeps its resources
    in a slice, invokes them in registration order: the calls of a run are
    Try on the resources 0, 1, ..., then Confirm on 0, 1, ..., then Cancel
    on 0, 1, ....  The coordinator of improved_seata_style.go, which keeps
    its managers in a map, calls Try, Confirm and Cancel along the order in
    which the run iterates the map, an order the language does not fix. *)
Theorem calls_follow_slice_or_map_order :
  (∀ (St : Type) (rs : list (SeckillTCC.SeckillTCCResource St))
     (ctx : SeckillTCC.SeckillTCCContext) (s : St),
      ∃ a b c, (a ≤ length rs ∧ b ≤ length rs ∧ c ≤ length rs)%nat
               ∧ SeckillTCCSpec.calls (snd (fst (SeckillTCC.ExecuteSeckillTCC rs ctx s)))
                 = SeckillTCCSpec.sweep_of SeckillTCC.OpTry 0 a
                   ++ SeckillTCCSpec.sweep_of SeckillTCC.OpConfirm 0 b
                   ++ SeckillTCCSpec.sweep_of SeckillTCC.OpCancel 0 c)
  ∧ (∀ (resources : gmap string ImprovedSeata.ResourceManager) (order : list string)
       (txID : string) (args : ImprovedSeata.Args) (db : ImprovedSeata.DB),
      ImprovedSeata.map_iteration resources order →
      match ImprovedSeata.StartTransaction resources order txID args db with
      | (_, evs, None) => evs = map (pair ImprovedSeata.OpTry) order
      | (_, evs, Some _) => evs `prefix_of` map (pair ImprovedSeata.OpTry) order
      end
      ∧ match ImprovedSeata.Confirm resources order txID args db with
        | (_, evs, None) => evs = map (pair ImprovedSeata.OpConfirm) order
        | (_, evs, Some _) => evs `prefix_of` map (pair ImprovedSeata.OpConfirm) order
        end
      ∧ match ImprovedSeata.Cancel resources order txID args db with
        | (_, evs, None) => evs = map (pair ImprovedSeata.OpCancel) order
        | (_, evs, Some _) => evs `prefix_of` map (pair ImprovedSeata.OpCancel) order
        end).
Proof.
  split.
  - intros St. exact (@ExecuteSeckillTCC_in_order St).
  - intros resources order txID args db Hiter.
    split; [|split].
    + apply StartTransaction_calls. exact Hiter.
    + apply Confirm_calls. exact Hiter.
    + apply Cancel_calls. exact Hiter.
Qed.

Lemma calls_follow_slice_or_map_order_witness :
  snd (fst (ImprovedSeata.StartTransaction ImprovedSeataSpec.registered
              ["order"; "inventory"]%string "tx1" Sample.improved_args Sample.improved_db))
  = [(ImprovedSeata.OpTry, "order"%string); (ImprovedSeata.OpTry, "inventory"%string)].
Proof.
  destruct calls_follow_slice_or_map_order as [_ Hmap].
  destruct (Hmap ImprovedSeataSpec.registered ["order"; "inventory"]%string "tx1"%string
              Sample.improved_args Sample.improved_db registered_iteration_2)
    as [Hstart _].
  destruct (ImprovedSeata.StartTransaction ImprovedSeataSpec.registered
              ["order"; "inventory"]%string "tx1" Sample.improved_args Sample.improved_db)
    as [[db evs] [e|]] eqn:Hrun.
  - vm_compute in Hrun. discriminate.
  - exact Hstart.
Defined.

(** C10.  In seckill_standard.go the account manager's Try subtracts the
    amount from the balance and its Confirm adds the same amount: after Try
    and Confirm with the same account and amount every balance is what it
    was, the account's version went up by two, and the confirmed transaction
    has charged nothing. *)
Theorem account_try_confirm_charges_nothing :
  ∀ (args : Standard.Args) (t : Standard.Tables) (accountID amount : Z),
    args !! "account_id" = Some (Go.VInt accountID) →
    args !! "amount" = Some (Go.VInt amount) →
    ∃ t1 t2 r1 r2,
      Standard.AccountRM_Try args t = Go.Done (t1, r1)
      ∧ Standard.AccountRM_Confirm args t1 = Go.Done (t2, r2)
      ∧ (∀ k, Standard.balance <$> Standard.account t2 !! k
              = Standard.balance <$> Standard.account t !! k)
      ∧ (∀ row, Standard.account t !! accountID = Some row →
                r1 = None ∧ r2 = None
                ∧ Standard.account t1 !! accountID
                  = Some {| Standard.balance := Standard.balance row - amount;
                            Standard.version := Standard.version row + 1 |}
                ∧ Standard.account t2 !! accountID
                  = Some {| Standard.balance := Standard.balance row;
                            Standard.version := Standard.version row + 2 |}).
Proof.
  intros args t accountID amount Hid Ham.
  destruct (Standard.account t !! accountID) as [row|] eqn:Hrow.
  - eexists _, _, _, _.
    split; [exact (AccountRM_Try_row _ _ _ _ _ Hid Ham Hrow)|].
    split.
    { apply (AccountRM_Confirm_row _ _ accountID amount); [exact Hid | exact Ham |].
      simpl. apply lookup_insert_eq. }
    simpl. split.
    + intros k. destruct (decide (accountID = k)) as [<-|Hne].
      * rewrite lookup_insert_eq, Hrow. simpl. f_equal. lia.
      * rewrite !lookup_insert_ne by exact Hne. reflexivity.
    + intros row' Hrow'. inversion Hrow'; subst row'.
      rewrite !lookup_insert_eq.
      repeat split; try reflexivity. f_equal. f_equal; lia.
  - destruct (AccountRM_no_row args t accountID amount Hid Ham Hrow) as [Htry Hconfirm].
    exists t, t, (Some Standard.ErrNoRows), (Some Standard.ErrNoRows).
    split; [exact Htry|]. split; [exact Hconfirm|].
    split; [reflexivity|]. intros row Hrow'. discriminate.
Qed.

Lemma account_try_confirm_charges_nothing_witness :
  ∃ t1 t2 r1 r2,
    Standard.AccountRM_Try Sample.standard_args Sample.standard_tables = Go.Done (t1, r1)
    ∧ Standard.AccountRM_Confirm Sample.standard_args t1 = Go.Done (t2, r2)
    ∧ (∀ k, Standard.balance <$> Standard.account t2 !! k
            = Standard.balance <$> Standard.account Sample.standard_tables !! k)
    ∧ (∀ row, Standard.account Sample.standard_tables !! 7 = Some row →
              r1 = None ∧ r2 = None
              ∧ Standard.account t1 !! 7
                = Some {| Standard.balance := Standard.balance row - 100;
                          Standard.version := Standard.version row + 1 |}
              ∧ Standard.account t2 !! 7
                = Some {| Standard.balance := Standard.balance row;
                          Standard.version := Standard.version row + 2 |}).
Proof.
  apply (account_try_confirm_charges_nothing Sample.standard_args Sample.standard_tables 7 100).
  - reflexivity.
  - reflexivity.
Defined.

(** * Further properties *)

Section SeckillLifecycleFacts.
Import SeckillTCC SeckillTCCSpec MoreSpec.

Lemma update_freeze_status_fresh (tx : string) (pid : Z) (st : FreezeStatus)
    (rows : list FreezeRow) :
  (∀ r, r ∈ rows → same_branch tx pid r = false) →
  update_freeze_status tx pid st rows = rows.
Proof.
  induction rows as [|r rows IH]; intros H; simpl; [reflexivity|].
  rewrite (H r) by left. f_equal. apply IH. intros x Hx. apply H. right. exact Hx.
Qed.

Lemma update_freeze_status_app (tx : string) (pid : Z) (st : FreezeStatus)
    (l1 l2 : list FreezeRow) :
  update_freeze_status tx pid st (l1 ++ l2)
  = update_freeze_status tx pid st l1 ++ update_freeze_status tx pid st l2.
Proof. unfold update_freeze_status. apply map_app. Qed.

Lemma same_branch_record (ctx : SeckillTCCContext) (st : FreezeStatus) :
  same_branch (TransactionID ctx) (ProductID ctx) (freeze_record ctx st) = true.
Proof. apply same_branch_self. Qed.

Lemma update_freeze_status_record (ctx : SeckillTCCContext) (db : DB)
    (st0 st : FreezeStatus) :
  fresh ctx db →
  update_freeze_status (TransactionID ctx) (ProductID ctx) st
    (seckill_inventory_freeze db ++ [freeze_record ctx st0])
  = seckill_inventory_freeze db ++ [freeze_record ctx st].
Proof.
  intros Hfresh.
  rewrite update_freeze_status_app, (update_freeze_status_fresh _ _ _ _ Hfresh).
  f_equal. unfold update_freeze_status. cbn [map].
  rewrite same_branch_record. reflexivity.
Qed.

(** Try with enough stock. *)
Lemma Try_ok (ctx : SeckillTCCContext) (db : DB) (row : InventoryRow) :
  seckill_inventory db !! ProductID ctx = Some row →
  Quantity ctx ≤ stock row →
  Try ctx db
  = ({| seckill_inventory :=
          <[ProductID ctx := {| stock := stock row - Quantity ctx;
                                frozen_stock := frozen_stock row + Quantity ctx;
                                sold_stock := sold_stock row |}]> (seckill_inventory db);
        seckill_inventory_freeze :=
          seckill_inventory_freeze db ++ [freeze_record ctx FROZEN] |}, None).
Proof.
  intros Hrow Hle. unfold Try, exec_freeze_stock. rewrite Hrow. simpl.
  assert ((stock row <? Quantity ctx) = false) as -> by (apply Z.ltb_ge; lia).
  assert ((Quantity ctx <=? stock row) = true) as -> by (apply Z.leb_le; lia).
  reflexivity.
Qed.

(** Confirm right after the Try of a fresh transaction. *)
Lemma Confirm_after_try (ctx : SeckillTCCContext) (db : DB) (row : InventoryRow) :
  fresh ctx db →
  seckill_inventory db !! ProductID ctx = Some row →
  Confirm ctx
    {| seckill_inventory :=
         <[ProductID ctx := {| stock := stock row - Quantity ctx;
                               frozen_stock := frozen_stock row + Quantity ctx;
                               sold_stock := sold_stock row |}]> (seckill_inventory db);
       seckill_inventory_freeze :=
         seckill_inventory_freeze db ++ [freeze_record ctx FROZEN] |}
  = ({| seckill_inventory :=
          <[ProductID ctx := {| stock := stock row - Quantity ctx;
                                frozen_stock := frozen_stock row;
                                sold_stock := sold_stock row + Quantity ctx |}]>
            (seckill_inventory db);
        seckill_inventory_freeze :=
          seckill_inventory_freeze db ++ [freeze_record ctx CONFIRMED] |}, None).
Proof.
  intros Hfresh Hrow. unfold Confirm. cbn [seckill_inventory seckill_inventory_freeze].
  rewrite find_app_last.
  - cbn [quantity freeze_record]. f_equal. f_equal.
    + rewrite alter_insert_eq. cbn [stock frozen_stock sold_stock].
      f_equal. f_equal. lia.
    + apply update_freeze_status_record. exact Hfresh.
  - intros y Hy. rewrite (Hfresh y Hy). reflexivity.
  - rewrite same_branch_record. reflexivity.
Qed.

(** Cancel of the confirmed branch of a fresh transaction. *)
Lemma Cancel_after_confirm (ctx : SeckillTCCContext) (db : DB) (row : InventoryRow) :
  fresh ctx db →
  seckill_inventory db !! ProductID ctx = Some row →
  Cancel ctx
    {| seckill_inventory :=
         <[ProductID ctx := {| stock := stock row - Quantity ctx;
                               frozen_stock := frozen_stock row;
                               sold_stock := sold_stock row + Quantity ctx |}]>
           (seckill_inventory db);
       seckill_inventory_freeze :=
         seckill_inventory_freeze db ++ [freeze_record ctx CONFIRMED] |}
  = ({| seckill_inventory := seckill_inventory db;
        seckill_inventory_freeze :=
          seckill_inventory_freeze db ++ [freeze_record ctx CANCELLED] |}, None).
Proof.
  intros Hfresh Hrow. unfold Cancel. cbn [seckill_inventory seckill_inventory_freeze].
  rewrite find_app_last.
  - cbn [quantity status freeze_record]. f_equal. f_equal.
    + rewrite alter_insert_eq. cbn [stock frozen_stock sold_stock].
      replace (stock row - Quantity ctx + Quantity ctx) with (stock row) by lia.
      replace (sold_stock row + Quantity ctx - Quantity ctx) with (sold_stock row) by lia.
      destruct row. apply insert_id. exact Hrow.
    + apply update_freeze_status_record. exact Hfresh.
  - intros y Hy. rewrite (Hfresh y Hy). reflexivity.
  - rewrite same_branch_record. reflexivity.
Qed.

(** After a Cancel no record of the branch is FROZEN or CONFIRMED. *)
Lemma Cancel_leaves_cancelled (ctx : SeckillTCCContext) (db : DB) :
  ∀ r, r ∈ seckill_inventory_freeze (fst (Cancel ctx db)) →
       same_branch (TransactionID ctx) (ProductID ctx) r = true → status r = CANCELLED.
Proof.
  destruct (find (fun r => same_branch (TransactionID ctx) (ProductID ctx) r
                           && (status_eqb (status r) FROZEN
                               || status_eqb (status r) CONFIRMED))
                 (seckill_inventory_freeze db)) as [r0|] eqn:Hfind.
  - exact (Cancel_marks_branch ctx db r0 Hfind).
  - intros r Hr Hsame. unfold Cancel in Hr. rewrite Hfind in Hr. simpl in Hr.
    apply list_elem_of_In in Hr.
    pose proof (find_none _ _ Hfind r Hr) as Hnone. simpl in Hnone.
    rewrite Hsame in Hnone. simpl in Hnone.
    destruct (status r); simpl in Hnone; congruence.
Qed.

End SeckillLifecycleFacts.

Section SeckillLifecycle.
Import SeckillTCC SeckillTCCSpec MoreSpec.

(** X1. seckill_tcc.go, inventory Cancel: a second Cancel of the same
    branch changes nothing and returns nil, whatever the database held
    before the first one. *)
Theorem seckill_cancel_idempotent (ctx : SeckillTCCContext) (db : DB) :
  Cancel ctx (fst (Cancel ctx db)) = (fst (Cancel ctx db), None).
Proof.
  pose proof (Cancel_leaves_cancelled ctx db) as Hall.
  unfold Cancel at 1.
  destruct (find _ (seckill_inventory_freeze (Cancel ctx db).1)) as [r|] eqn:Hfind;
    [|reflexivity].
  exfalso. destruct (find_some _ _ Hfind) as [Hin Hp].
  apply andb_prop in Hp. destruct Hp as [Hsame Hst].
  apply list_elem_of_In in Hin.
  rewrite (Hall r Hin Hsame) in Hst. discriminate Hst.
Qed.

(** X2. seckill_tcc.go, inventory Confirm after Cancel: once a branch was
    cancelled (or Cancel found nothing to cancel), Confirm finds no FROZEN
    record, fails with "未找到冻结记录" and changes nothing. *)
Theorem seckill_confirm_after_cancel_rejected (ctx : SeckillTCCContext) (db : DB) :
  Confirm ctx (fst (Cancel ctx db)) = (fst (Cancel ctx db), Some ErrFreezeNotFound).
Proof.
  pose proof (Cancel_leaves_cancelled ctx db) as Hall.
  unfold Confirm.
  destruct (find _ (seckill_inventory_freeze (Cancel ctx db).1)) as [r|] eqn:Hfind;
    [|reflexivity].
  exfalso. destruct (find_some _ _ Hfind) as [Hin Hp].
  apply andb_prop in Hp. destruct Hp as [Hsame Hst].
  apply list_elem_of_In in Hin.
  rewrite (Hall r Hin Hsame) in Hst. discriminate Hst.
Qed.

(** X3. seckill_tcc.go, inventory Confirm is not repeatable: after a
    Confirm that succeeded, a second Confirm of the same branch fails with
    "未找到冻结记录" and leaves the database as the first one left it. *)
Theorem seckill_confirm_twice_rejected (ctx : SeckillTCCContext) (db db1 : DB) :
  Confirm ctx db = (db1, None) →
  Confirm ctx db1 = (db1, Some ErrFreezeNotFound).
Proof.
  unfold Confirm at 1.
  destruct (find _ (seckill_inventory_freeze db)) as [r0|]; [|discriminate].
  intros H. injection H as <-.
  unfold Confirm. cbn [seckill_inventory_freeze].
  match goal with |- context [find ?p ?l] => destruct (find p l) as [r|] eqn:Hfind end;
    [|reflexivity].
  exfalso. destruct (find_some _ _ Hfind) as [Hin Hp].
  apply andb_prop in Hp. destruct Hp as [Hsame Hst].
  unfold update_freeze_status in Hin. apply in_map_iff in Hin.
  destruct Hin as (x & Hx & _).
  destruct (same_branch (TransactionID ctx) (ProductID ctx) x) eqn:Hsx.
  - subst r. discriminate Hst.
  - subst r. congruence.
Qed.

Lemma seckill_confirm_twice_rejected_witness :
  Confirm (Sample.seckill_ctx 3) (fst (Confirm (Sample.seckill_ctx 3) Sample.seckill_tried_once))
  = (fst (Confirm (Sample.seckill_ctx 3) Sample.seckill_tried_once), Some ErrFreezeNotFound).
Proof.
  apply (seckill_confirm_twice_rejected (Sample.seckill_ctx 3) Sample.seckill_tried_once).
  vm_compute. reflexivity.
Defined.

(** X4. seckill_tcc.go, inventory Try, Confirm, Cancel in a row: for a
    transaction with no freeze record yet, a positive quantity and enough
    stock, all three return nil, the inventory table ends exactly as it
    began (the sale is undone) and the one new freeze record ends
    CANCELLED. *)
Theorem seckill_try_confirm_cancel_restores (ctx : SeckillTCCContext) (db : DB)
    (row : InventoryRow) :
  fresh ctx db →
  seckill_inventory db !! ProductID ctx = Some row →
  0 < Quantity ctx →
  Quantity ctx ≤ stock row →
  ∃ db1 db2,
    Try ctx db = (db1, None) ∧ Confirm ctx db1 = (db2, None) ∧
    seckill_inventory db2 !! ProductID ctx
    = Some {| stock := stock row - Quantity ctx; frozen_stock := frozen_stock row;
              sold_stock := sold_stock row + Quantity ctx |} ∧
    Cancel ctx db2
    = ({| seckill_inventory := seckill_inventory db;
          seckill_inventory_freeze :=
            seckill_inventory_freeze db ++ [freeze_record ctx CANCELLED] |}, None).
Proof.
  intros Hfresh Hrow Hpos Hle. eexists _, _.
  split; [exact (Try_ok ctx db row Hrow Hle)|].
  split; [exact (Confirm_after_try ctx db row Hfresh Hrow)|].
  split; [cbn [seckill_inventory]; apply lookup_insert_eq|].
  exact (Cancel_after_confirm ctx db row Hfresh Hrow).
Qed.

Lemma seckill_try_confirm_cancel_restores_witness :
  ∃ db1 db2,
    Try (Sample.seckill_ctx 3) Sample.seckill_db = (db1, None) ∧
    Confirm (Sample.seckill_ctx 3) db1 = (db2, None) ∧
    seckill_inventory db2 !! ProductID (Sample.seckill_ctx 3)
    = Some {| stock := 10 - 3; frozen_stock := 0; sold_stock := 0 + 3 |} ∧
    Cancel (Sample.seckill_ctx 3) db2
    = ({| seckill_inventory := seckill_inventory Sample.seckill_db;
          seckill_inventory_freeze :=
            seckill_inventory_freeze Sample.seckill_db
            ++ [freeze_record (Sample.seckill_ctx 3) CANCELLED] |}, None).
Proof.
  apply (seckill_try_confirm_cancel_restores (Sample.seckill_ctx 3) Sample.seckill_db
           {| stock := 10; frozen_stock := 0; sold_stock := 0 |}).
  - intros r Hr. vm_compute in Hr. inversion Hr.
  - vm_compute. reflexivity.
  - vm_compute. reflexivity.
  - vm_compute. discriminate.
Defined.

End SeckillLifecycle.

Section SeckillPurchase.
Import SeckillTCC SeckillTCCSpec SeckillOrder MoreSpec.

Lemma update_order_status_fresh (ctx : SeckillTCCContext) (st : OrderStatus)
    (rows : list OrderRow) :
  (∀ r, r ∈ rows → of_order (TransactionID ctx) (UserID ctx) r = false) →
  update_order_status (TransactionID ctx) (UserID ctx) st rows = rows.
Proof.
  induction rows as [|r rows IH]; intros H; simpl; [reflexivity|].
  rewrite (H r) by left. f_equal. apply IH. intros x Hx. apply H. right. exact Hx.
Qed.

Lemma of_order_self (ctx : SeckillTCCContext) (st : OrderStatus) :
  of_order (TransactionID ctx) (UserID ctx) (order_of ctx st) = true.
Proof.
  unfold of_order, order_of. cbn [o_transaction_id o_user_id].
  rewrite String.eqb_refl, Z.eqb_refl. reflexivity.
Qed.

Lemma update_order_status_last (ctx : SeckillTCCContext) (st0 st : OrderStatus)
    (rows : list OrderRow) :
  update_order_status (TransactionID ctx) (UserID ctx) st (rows ++ [order_of ctx st0])
  = update_order_status (TransactionID ctx) (UserID ctx) st rows ++ [order_of ctx st].
Proof.
  unfold update_order_status. rewrite map_app. f_equal. cbn [map].
  rewrite of_order_self. reflexivity.
Qed.

(** X5. seckill_tcc.go, ExecuteSeckillTCC over the inventory and the order
    resource: for a transaction with no freeze record yet, a positive
    quantity and enough stock, the run returns nil after Try, Try, Confirm,
    Confirm and no Cancel; the stock goes down and sold_stock up by the quantity,
    frozen_stock is as before, the freeze record ends CONFIRMED and the
    new order ends CONFIRMED (as does every older order of the same
    transaction and user). *)
Theorem seckill_purchase_succeeds (ctx : SeckillTCCContext) (s : Store)
    (row : InventoryRow) :
  fresh ctx (inventory_tables s) →
  seckill_inventory (inventory_tables s) !! ProductID ctx = Some row →
  0 < Quantity ctx →
  Quantity ctx ≤ stock row →
  ExecuteSeckillTCC seckill_resources ctx s
  = ({| inventory_tables :=
          {| seckill_inventory :=
               <[ProductID ctx := {| stock := stock row - Quantity ctx;
                                     frozen_stock := frozen_stock row;
                                     sold_stock := sold_stock row + Quantity ctx |}]>
                 (seckill_inventory (inventory_tables s));
             seckill_inventory_freeze :=
               seckill_inventory_freeze (inventory_tables s)
               ++ [freeze_record ctx CONFIRMED] |};
        seckill_orders :=
          update_order_status (TransactionID ctx) (UserID ctx) ORDER_CONFIRMED
            (seckill_orders s) ++ [order_of ctx ORDER_CONFIRMED] |},
     [Call OpTry 0; Call OpTry 1; Call OpConfirm 0; Call OpConfirm 1], None).
Proof.
  intros Hfresh Hrow Hpos Hle. destruct s as [db orders]. cbn [inventory_tables] in *.
  unfold ExecuteSeckillTCC, seckill_resources.
  cbn [tryFrom rTry InventoryResource OrderResource].
  unfold on_inventory at 1. cbn [inventory_tables seckill_orders].
  rewrite (Try_ok ctx db row Hrow Hle).
  unfold Order_Try. cbn [inventory_tables seckill_orders].
  cbn [confirmFrom rConfirm InventoryResource OrderResource].
  unfold on_inventory. cbn [inventory_tables seckill_orders].
  rewrite (Confirm_after_try ctx db row Hfresh Hrow).
  unfold Order_Confirm. cbn [inventory_tables seckill_orders app].
  fold (order_of ctx PENDING). rewrite update_order_status_last. reflexivity.
Qed.

Lemma seckill_purchase_succeeds_witness :
  ExecuteSeckillTCC seckill_resources (Sample.seckill_ctx 3) MoreSample.seckill_store
  = ({| inventory_tables :=
          {| seckill_inventory :=
               <[2001 := {| stock := 10 - 3; frozen_stock := 0; sold_stock := 0 + 3 |}]>
                 (seckill_inventory Sample.seckill_db);
             seckill_inventory_freeze :=
               [] ++ [freeze_record (Sample.seckill_ctx 3) CONFIRMED] |};
        seckill_orders :=
          update_order_status "seckill_1" 1001 ORDER_CONFIRMED []
          ++ [order_of (Sample.seckill_ctx 3) ORDER_CONFIRMED] |},
     [Call OpTry 0; Call OpTry 1; Call OpConfirm 0; Call OpConfirm 1], None).
Proof.
  apply (seckill_purchase_succeeds (Sample.seckill_ctx 3) MoreSample.seckill_store
           {| stock := 10; frozen_stock := 0; sold_stock := 0 |}).
  - intros r Hr. vm_compute in Hr. inversion Hr.
  - vm_compute. reflexivity.
  - vm_compute. reflexivity.
  - vm_compute. discriminate.
Defined.

(** X6. seckill_tcc.go, ExecuteSeckillTCC over the inventory and the order
    resource when the stock is too low: the first Try fails, both
    resources are cancelled (the order resource without ever being tried),
    the error wraps "库存不足" and, for a transaction with no freeze record
    and no order yet, every table is as before. *)
Theorem seckill_purchase_rejected (ctx : SeckillTCCContext) (s : Store)
    (row : InventoryRow) :
  fresh ctx (inventory_tables s) →
  no_order ctx s →
  seckill_inventory (inventory_tables s) !! ProductID ctx = Some row →
  stock row < Quantity ctx →
  ExecuteSeckillTCC seckill_resources ctx s
  = (s, [Call OpTry 0; LogFailure OpTry 0 (ErrInsufficient (stock row) (Quantity ctx));
         Call OpCancel 0; Call OpCancel 1],
     Some (ErrTryPhase (ErrInsufficient (stock row) (Quantity ctx)))).
Proof.
  intros Hfresh Hno Hrow Hlt. destruct s as [db orders].
  unfold no_order in Hno. cbn [inventory_tables seckill_orders] in *.
  unfold ExecuteSeckillTCC, seckill_resources, cancelResources.
  cbn [tryFrom rTry InventoryResource OrderResource].
  unfold on_inventory at 1. cbn [inventory_tables seckill_orders].
  rewrite (seckill_try_insufficient ctx db row Hrow Hlt).
  cbn [cancelFrom rCancel InventoryResource OrderResource].
  unfold on_inventory. cbn [inventory_tables seckill_orders].
  rewrite (Cancel_fresh_noop ctx db Hfresh).
  unfold Order_Cancel. cbn [inventory_tables seckill_orders app].
  rewrite (update_order_status_fresh ctx ORDER_CANCELLED orders Hno). reflexivity.
Qed.

Lemma seckill_purchase_rejected_witness :
  ExecuteSeckillTCC seckill_resources (Sample.seckill_ctx 11) MoreSample.seckill_store
  = (MoreSample.seckill_store,
     [Call OpTry 0; LogFailure OpTry 0 (ErrInsufficient 10 11);
      Call OpCancel 0; Call OpCancel 1],
     Some (ErrTryPhase (ErrInsufficient 10 11))).
Proof.
  apply (seckill_purchase_rejected (Sample.seckill_ctx 11) MoreSample.seckill_store
           {| stock := 10; frozen_stock := 0; sold_stock := 0 |}).
  - intros r Hr. vm_compute in Hr. inversion Hr.
  - intros r Hr. vm_compute in Hr. inversion Hr.
  - vm_compute. reflexivity.
  - vm_compute. reflexivity.
Defined.

(** X7. seckill_tcc.go, order resource: Confirm and Cancel have no guard on
    the current status, so the last call wins: an order that was cancelled
    is CONFIRMED again by a later Confirm, and a confirmed one is CANCELLED
    by a later Cancel; the other columns and the other orders stay. *)
Theorem seckill_order_last_call_wins (ctx : SeckillTCCContext) (s : Store) :
  seckill_orders (fst (Order_Confirm ctx (fst (Order_Cancel ctx s))))
  = seckill_orders (fst (Order_Confirm ctx s))
  ∧ seckill_orders (fst (Order_Cancel ctx (fst (Order_Confirm ctx s))))
    = seckill_orders (fst (Order_Cancel ctx s))
  ∧ ∀ r, r ∈ seckill_orders s →
         if of_order (TransactionID ctx) (UserID ctx) r
         then set_order_status ORDER_CONFIRMED r
              ∈ seckill_orders (fst (Order_Confirm ctx (fst (Order_Cancel ctx s))))
         else r ∈ seckill_orders (fst (Order_Confirm ctx (fst (Order_Cancel ctx s)))).
Proof.
  assert (Hcomp : ∀ st1 st2 rows,
             update_order_status (TransactionID ctx) (UserID ctx) st2
               (update_order_status (TransactionID ctx) (UserID ctx) st1 rows)
             = update_order_status (TransactionID ctx) (UserID ctx) st2 rows).
  { intros st1 st2 rows. unfold update_order_status. rewrite map_map.
    apply map_ext. intros r.
    destruct (of_order (TransactionID ctx) (UserID ctx) r) eqn:Hr.
    - assert (of_order (TransactionID ctx) (UserID ctx) (set_order_status st1 r) = true)
        as -> by exact Hr.
      reflexivity.
    - rewrite Hr. reflexivity. }
  cbn [Order_Confirm Order_Cancel fst seckill_orders].
  split; [apply Hcomp|]. split; [apply Hcomp|].
  intros r Hr. rewrite Hcomp.
  destruct (of_order (TransactionID ctx) (UserID ctx) r) eqn:Hof.
  - unfold update_order_status. apply list_elem_of_In, in_map_iff.
    exists r. rewrite Hof. split; [reflexivity|apply list_elem_of_In; exact Hr].
  - unfold update_order_status. apply list_elem_of_In, in_map_iff.
    exists r. rewrite Hof. split; [reflexivity|apply list_elem_of_In; exact Hr].
Qed.

End SeckillPurchase.

Section ImprovedLifecycle.
Import ImprovedSeata ImprovedSeataSpec.

(** A manager leaves the table of the coordinator alone. *)
Lemma range_resources_transaction (o : op) (resources : gmap string ResourceManager)
    (order : list string) (args : Args) (db : DB) :
  (∀ name rm o a d, resources !! name = Some rm →
                    tcc_transaction (fst (call o rm a d)) = tcc_transaction d) →
  tcc_transaction (fst (fst (range_resources o resources order args db)))
  = tcc_transaction db.
Proof.
  intros Hkeep. revert db. induction order as [|name rest IH]; intros db; simpl;
    [reflexivity|].
  destruct (resources !! name) as [rm|] eqn:Hrm; [|apply IH].
  pose proof (Hkeep name rm o args db Hrm) as H1.
  destruct (call o rm args db) as [db1 [e|]]; simpl in *; [exact H1|].
  specialize (IH db1).
  destruct (range_resources o resources rest args db1) as [[db2 evs] res].
  simpl in *. congruence.
Qed.

Lemma registered_keep_transaction :
  ∀ name rm o a d, registered !! name = Some rm →
                   tcc_transaction (fst (call o rm a d)) = tcc_transaction d.
Proof.
  intros name rm o a d Hrm.
  assert (rm = InventoryRM ∨ rm = OrderRM) as [-> | ->].
  { unfold registered in Hrm.
    destruct (decide (name = "inventory"%string)) as [->|Hn1].
    - rewrite lookup_insert_eq in Hrm. left. congruence.
    - rewrite lookup_insert_ne in Hrm by congruence.
      destruct (decide (name = "order"%string)) as [->|Hn2].
      + rewrite lookup_singleton_eq in Hrm. right. congruence.
      + rewrite lookup_singleton_ne in Hrm by congruence. discriminate. }
  - destruct o; simpl.
    + unfold InventoryRM_Try.
      destruct (inventory_freeze d !! _); [reflexivity|].
      destruct (seckill_inventory d !! _); [|reflexivity].
      destruct (_ <? _); reflexivity.
    + unfold InventoryRM_Confirm.
      destruct (inventory_freeze d !! _) as [fr|]; [|reflexivity].
      destruct (state fr); reflexivity.
    + unfold InventoryRM_Cancel.
      destruct (inventory_freeze d !! _) as [fr|]; [|reflexivity].
      destruct (state fr); reflexivity.
  - destruct o; simpl.
    + unfold OrderRM_Try. destruct (seckill_orders d !! _); reflexivity.
    + reflexivity.
    + reflexivity.
Qed.

(** X8. improved_seata_style.go, InventoryRM.Cancel: a second Cancel of the
    same branch changes nothing and returns nil, whatever the tables held
    before the first one. *)
Theorem improved_cancel_idempotent (args : Args) (db : DB) :
  InventoryRM_Cancel args (fst (InventoryRM_Cancel args db))
  = (fst (InventoryRM_Cancel args db), None).
Proof.
  unfold InventoryRM_Cancel at 2 3.
  destruct (inventory_freeze db !! (tx_id args, item_id args)) as [fr|] eqn:Hfr.
  - destruct (state fr) eqn:Hst; cbn [fst].
    + unfold InventoryRM_Cancel. cbn [inventory_freeze set_freeze].
      rewrite lookup_alter_eq, Hfr. cbn [fmap option_fmap option_map].
      rewrite Hst. reflexivity.
    + unfold InventoryRM_Cancel. cbn [inventory_freeze set_freeze].
      rewrite lookup_alter_eq, Hfr. cbn [fmap option_fmap option_map].
      rewrite Hst. reflexivity.
    + unfold InventoryRM_Cancel. rewrite Hfr, Hst. reflexivity.
  - cbn [fst]. unfold InventoryRM_Cancel. rewrite Hfr. reflexivity.
Qed.



(** X10. improved_seata_style.go, InventoryRM Try, Confirm, Cancel in a row
    on a branch with no freeze record, for a quantity that is not negative
    and exceeds neither the available nor the total stock: all return
    nil; Cancel gives the quantity back to [available] but not to
    [total], which stays reduced by the confirmed quantity, and the freeze
    record ends CANCELLED. *)
Theorem improved_cancel_after_confirm_keeps_total (args : Args) (db : DB)
    (row : InventoryRow) :
  fresh args db →
  seckill_inventory db !! item_id args = Some row →
  0 ≤ quantity args →
  quantity args ≤ available row →
  quantity args ≤ total row →
  ∃ db1 db2 db3,
    InventoryRM_Try args db = (db1, None)
    ∧ InventoryRM_Confirm args db1 = (db2, None)
    ∧ InventoryRM_Cancel args db2 = (db3, None)
    ∧ seckill_inventory db3 !! item_id args
      = Some {| total := total row - quantity args; available := available row |}
    ∧ inventory_freeze db3 !! (tx_id args, item_id args)
      = Some {| freeze_quantity := quantity args; state := CANCELLED |}.
Proof.
  unfold fresh. intros Hfresh Hrow Hpos Hle Htotal.
  assert (Hlt : (available row <? quantity args) = false) by (apply Z.ltb_ge; lia).
  eexists _, _, _. split.
  { unfold InventoryRM_Try. rewrite Hfresh, Hrow, Hlt. reflexivity. }
  split.
  { unfold InventoryRM_Confirm. cbn [inventory_freeze set_freeze].
    rewrite lookup_insert_eq. cbn [state]. reflexivity. }
  split.
  { unfold InventoryRM_Cancel. cbn [inventory_freeze set_freeze].
    rewrite lookup_alter_eq, lookup_insert_eq. cbn [fmap option_fmap option_map state].
    reflexivity. }
  cbn [seckill_inventory inventory_freeze set_freeze set_inventory]. split.
  - rewrite !lookup_alter_eq, Hrow. cbn [fmap option_fmap option_map].
    cbn [total available freeze_quantity]. f_equal. f_equal. lia.
  - rewrite !lookup_alter_eq, lookup_insert_eq. reflexivity.
Qed.

Lemma improved_cancel_after_confirm_keeps_total_witness :
  ∃ db1 db2 db3,
    InventoryRM_Try Sample.improved_args Sample.improved_db = (db1, None)
    ∧ InventoryRM_Confirm Sample.improved_args db1 = (db2, None)
    ∧ InventoryRM_Cancel Sample.improved_args db2 = (db3, None)
    ∧ seckill_inventory db3 !! item_id Sample.improved_args
      = Some {| total := 10 - quantity Sample.improved_args; available := 10 |}
    ∧ inventory_freeze db3 !! (tx_id Sample.improved_args, item_id Sample.improved_args)
      = Some {| freeze_quantity := quantity Sample.improved_args; state := CANCELLED |}.
Proof.
  apply (improved_cancel_after_confirm_keeps_total Sample.improved_args Sample.improved_db
           {| total := 10; available := 10 |}).
  - vm_compute. reflexivity.
  - vm_compute. reflexivity.
  - vm_compute. discriminate.
  - vm_compute. discriminate.
  - vm_compute. discriminate.
Defined.

End ImprovedLifecycle.

Section ImprovedCoordinatorLifecycle.
Import ImprovedSeata ImprovedSeataSpec.

Lemma update_status_miss (txID : string) (from : list Tx.status) (to st : Tx.status)
    (tbl : gmap string Tx.status) :
  tbl !! txID = Some st → existsb (Tx.eqb st) from = false →
  update_status txID from to tbl = (tbl, 0).
Proof. intros Hst Hex. unfold update_status. rewrite Hst, Hex. reflexivity. Qed.

(** A Confirm of the coordinator that returned nil found the transaction
    TRIED and left it CONFIRMED. *)
Lemma Confirm_ends_confirmed (resources : gmap string ResourceManager)
    (order : list string) (txID : string) (args : Args) (db db1 : DB)
    (evs : list event) :
  (∀ name rm o a d, resources !! name = Some rm →
                    tcc_transaction (fst (call o rm a d)) = tcc_transaction d) →
  Confirm resources order txID args db = (db1, evs, None) →
  tcc_transaction db !! txID = Some Tx.TRIED
  ∧ tcc_transaction db1 !! txID = Some Tx.CONFIRMED.
Proof.
  intros Hkeep. unfold Confirm, update_status at 1.
  destruct (tcc_transaction db !! txID) as [st|] eqn:Hst; [|discriminate].
  destruct (existsb (Tx.eqb st) [Tx.TRIED]) eqn:Hex; [|discriminate].
  assert (st = Tx.TRIED) as -> by (destruct st; simpl in Hex; congruence).
  cbn [Z.eqb].
  pose proof (range_resources_transaction OpConfirm resources order
                (with_tx_id txID args)
                (set_transaction (<[txID:=Tx.CONFIRMING]> (tcc_transaction db)) db)
                Hkeep) as Htbl.
  destruct (range_resources _ _ _ _ _) as [[tx1 evs1] [e|]]; [discriminate|].
  cbn [fst tcc_transaction set_transaction] in Htbl.
  unfold update_status. rewrite Htbl, lookup_insert_eq. cbn [existsb Tx.eqb orb].
  intros H. injection H as <- <-. split; [reflexivity|].
  cbn [tcc_transaction set_transaction]. apply lookup_insert_eq.
Qed.

(** X11. improved_seata_style.go, the coordinator: a transaction is
    confirmed once.  After a Confirm that returned nil the status is
    CONFIRMED; a further Confirm calls no manager, changes nothing and
    fails with "事务状态不正确，无法确认"; a Cancel checks no status: it runs
    Cancel on the managers (on all of them when it returns nil) and the
    status stays CONFIRMED. *)
Theorem improved_confirmed_is_final (resources : gmap string ResourceManager)
    (order order' : list string) (txID : string) (args args' : Args) (db db1 : DB)
    (evs : list event) :
  (∀ name rm o a d, resources !! name = Some rm →
                    tcc_transaction (fst (call o rm a d)) = tcc_transaction d) →
  map_iteration resources order' →
  Confirm resources order txID args db = (db1, evs, None) →
  tcc_transaction db1 !! txID = Some Tx.CONFIRMED
  ∧ Confirm resources order' txID args' db1 = (db1, [], Some ErrBadStatus)
  ∧ tcc_transaction (fst (fst (Cancel resources order' txID args' db1))) !! txID
    = Some Tx.CONFIRMED
  ∧ (snd (Cancel resources order' txID args' db1) = None →
     snd (fst (Cancel resources order' txID args' db1)) = map (pair OpCancel) order').
Proof.
  intros Hkeep Hiter Hconfirm.
  destruct (Confirm_ends_confirmed _ _ _ _ _ _ _ Hkeep Hconfirm) as [_ Hst].
  split; [exact Hst|]. split.
  { unfold Confirm.
    rewrite (update_status_miss txID [Tx.TRIED] Tx.CONFIRMING _ _ Hst eq_refl).
    reflexivity. }
  split.
  - unfold Cancel, mark_cancelling.
    rewrite (update_status_miss txID [Tx.TRYING; Tx.TRIED; Tx.CONFIRMING]
               Tx.CANCELLING _ _ Hst eq_refl). cbn [fst].
    pose proof (range_resources_transaction OpCancel resources order'
                  (with_tx_id txID args')
                  (set_transaction (tcc_transaction db1) db1) Hkeep) as Htbl.
    destruct (range_resources _ _ _ _ _) as [[tx1 evs1] [e|]]; [exact Hst|].
    cbn [fst tcc_transaction set_transaction] in Htbl.
    assert (Hst1 : tcc_transaction tx1 !! txID = Some Tx.CONFIRMED)
      by (rewrite Htbl; exact Hst).
    rewrite (update_status_miss txID [Tx.CANCELLING] Tx.CANCELLED _ _ Hst1 eq_refl).
    cbn [fst tcc_transaction set_transaction]. exact Hst1.
  - pose proof (Cancel_calls resources order' txID args' db1 Hiter) as Hcalls.
    destruct (Cancel resources order' txID args' db1) as [[db2 evs2] [e|]];
      cbn [fst snd]; [discriminate|]. intros _. exact Hcalls.
Qed.

Lemma improved_confirmed_is_final_witness :
  tcc_transaction MoreSample.improved_confirmed !! "tx1"%string = Some Tx.CONFIRMED
  ∧ Confirm registered ["order"; "inventory"]%string "tx1" Sample.improved_args
      MoreSample.improved_confirmed
    = (MoreSample.improved_confirmed, [], Some ErrBadStatus)
  ∧ tcc_transaction
      (fst (fst (Cancel registered ["order"; "inventory"]%string "tx1" Sample.improved_args
                   MoreSample.improved_confirmed))) !! "tx1"%string
    = Some Tx.CONFIRMED
  ∧ (snd (Cancel registered ["order"; "inventory"]%string "tx1" Sample.improved_args
            MoreSample.improved_confirmed) = None →
     snd (fst (Cancel registered ["order"; "inventory"]%string "tx1" Sample.improved_args
                 MoreSample.improved_confirmed))
     = map (pair OpCancel) ["order"; "inventory"]%string).
Proof.
  apply (improved_confirmed_is_final registered ["inventory"; "order"]%string
           ["order"; "inventory"]%string "tx1" Sample.improved_args Sample.improved_args
           MoreSample.improved_started MoreSample.improved_confirmed
           [(OpConfirm, "inventory"%string); (OpConfirm, "order"%string)]).
  - exact registered_keep_transaction.
  - exact registered_iteration_2.
  - vm_compute. reflexivity.
Defined.

End ImprovedCoordinatorLifecycle.

Section DirectLifecycle.
Import Direct DirectSpec MoreSpec.

Lemma filter_of_tx_map (tx : string) (f : DeductLog → DeductLog) (l : list DeductLog) :
  (∀ x, transaction_id (f x) = transaction_id x) →
  filter (fun r => of_tx tx r = true) (map f l)
  = map f (filter (fun r => of_tx tx r = true) l).
Proof.
  intros Hf. induction l as [|x l IH]; [reflexivity|].
  cbn [map]. rewrite !filter_cons.
  assert (Hx : of_tx tx (f x) = of_tx tx x) by (unfold of_tx; rewrite Hf; reflexivity).
  rewrite Hx. destruct (decide (of_tx tx x = true)); cbn [map]; rewrite IH; reflexivity.
Qed.

Lemma confirm_update_id (tx : string) (x : DeductLog) :
  transaction_id (if of_tx tx x
                  then match operation_type x with
                       | TRY_DEDUCT => set_type CONFIRMED x
                       | _ => x
                       end
                  else x) = transaction_id x.
Proof. destruct (of_tx tx x); [destruct (operation_type x)|]; reflexivity. Qed.

Lemma cancel_update_id (tx : string) (x : DeductLog) :
  transaction_id (if of_tx tx x then set_type CANCELLED x else x) = transaction_id x.
Proof. destruct (of_tx tx x); reflexivity. Qed.

Lemma latest_singleton (latest : list DeductLog → option DeductLog) (r : DeductLog) :
  picks_a_row latest → latest [r] = Some r.
Proof.
  intros Hpick. specialize (Hpick [r]). destruct (latest [r]) as [r'|].
  - apply list_elem_of_singleton in Hpick. congruence.
  - discriminate.
Qed.

(** X12. The direct prototype, inventory resource: the table
    inventory_deduct_log has no unique key, but Try inserts a log only when
    the transaction has none, and Confirm and Cancel only rewrite rows; so
    "at most one deduct log per transaction" is kept by all three. *)
Theorem direct_log_unique_preserved (latest : list DeductLog → option DeductLog)
    (ctx : SeckillDirectTCCContext) (db : DB) :
  log_unique db →
  log_unique (fst (Try ctx db))
  ∧ log_unique (fst (Confirm latest ctx db))
  ∧ log_unique (fst (Cancel latest ctx db)).
Proof.
  intros Huniq. split; [|split].
  - unfold Try.
    destruct (filter (fun r => of_tx (TransactionID ctx) r = true)
                     (inventory_deduct_log db)) as [|r0 l0] eqn:Hfilter;
      cbn [length Nat.ltb Nat.leb]; [|exact Huniq].
    destruct (exec_deduct (ProductID ctx) (Quantity ctx) (seckill_inventory db))
      as [inv rows].
    destruct (rows =? 0); cbn [fst]; [exact Huniq|].
    intros tx. cbn [inventory_deduct_log].
    rewrite filter_app, length_app, filter_cons, filter_nil.
    destruct (decide (of_tx tx _ = true)) as [Htx|Htx].
    + unfold of_tx in Htx. cbn [transaction_id] in Htx.
      apply String.eqb_eq in Htx. subst tx. rewrite Hfilter. cbn [length]. lia.
    + cbn [length]. specialize (Huniq tx). lia.
  - unfold Confirm. destruct (latest _) as [r|]; [|exact Huniq].
    destruct (operation_type r); cbn [fst]; [|exact Huniq|exact Huniq].
    intros tx. cbn [inventory_deduct_log].
    rewrite (filter_of_tx_map tx _ _ (confirm_update_id (TransactionID ctx))).
    rewrite length_map. apply Huniq.
  - unfold Cancel. destruct (latest _) as [r|]; [|exact Huniq].
    destruct (operation_type r); cbn [fst]; [| |exact Huniq].
    + intros tx. cbn [inventory_deduct_log].
      rewrite (filter_of_tx_map tx _ _ (cancel_update_id (TransactionID ctx))).
      rewrite length_map. apply Huniq.
    + intros tx. cbn [inventory_deduct_log].
      rewrite (filter_of_tx_map tx _ _ (cancel_update_id (TransactionID ctx))).
      rewrite length_map. apply Huniq.
Qed.

Lemma direct_log_unique_preserved_witness :
  log_unique (fst (Try (Sample.direct_ctx 1) Sample.direct_db))
  ∧ log_unique (fst (Confirm Sample.direct_latest (Sample.direct_ctx 1) Sample.direct_db))
  ∧ log_unique (fst (Cancel Sample.direct_latest (Sample.direct_ctx 1) Sample.direct_db)).
Proof.
  apply (direct_log_unique_preserved Sample.direct_latest (Sample.direct_ctx 1)
           Sample.direct_db).
  intros tx. simpl. lia.
Defined.

(** After the UPDATE of Cancel every log of the transaction is CANCELLED. *)
Lemma cancel_update_all (tx : string) (l : list DeductLog) (r : DeductLog) :
  r ∈ filter (fun r => of_tx tx r = true)
             (map (fun l => if of_tx tx l then set_type CANCELLED l else l) l) →
  operation_type r = CANCELLED.
Proof.
  rewrite (filter_of_tx_map tx _ _ (cancel_update_id tx)).
  intros Hr. apply list_elem_of_fmap in Hr as (x & -> & Hx).
  apply list_elem_of_filter in Hx as [Hx _]. rewrite Hx. reflexivity.
Qed.

(** X13. The direct prototype, inventory resource: Cancel is final.  After
    a Cancel, a second Cancel changes nothing and returns nil, and a
    Confirm changes nothing and fails, with "事务状态异常，当前状态: CANCELLED"
    or, when the transaction has no log, "未找到Try记录". *)
Theorem direct_cancel_is_final (latest : list DeductLog → option DeductLog)
    (ctx : SeckillDirectTCCContext) (db : DB) :
  picks_a_row latest →
  Cancel latest ctx (fst (Cancel latest ctx db)) = (fst (Cancel latest ctx db), None)
  ∧ (Confirm latest ctx (fst (Cancel latest ctx db))
     = (fst (Cancel latest ctx db), Some (ErrBadState CANCELLED))
     ∨ Confirm latest ctx (fst (Cancel latest ctx db))
       = (fst (Cancel latest ctx db), Some ErrNoTryRecord)).
Proof.
  intros Hpick.
  assert (Hupd : ∀ inv,
    let db1 := {| seckill_inventory := inv;
                  inventory_deduct_log :=
                    map (fun l => if of_tx (TransactionID ctx) l
                                  then set_type CANCELLED l else l)
                        (inventory_deduct_log db) |} in
    Cancel latest ctx db1 = (db1, None)
    ∧ (Confirm latest ctx db1 = (db1, Some (ErrBadState CANCELLED))
       ∨ Confirm latest ctx db1 = (db1, Some ErrNoTryRecord))).
  { intros inv db1. unfold Cancel, Confirm. subst db1. cbn [inventory_deduct_log].
    pose proof (Hpick (filter (fun r => of_tx (TransactionID ctx) r = true)
                        (map (fun l => if of_tx (TransactionID ctx) l
                                       then set_type CANCELLED l else l)
                             (inventory_deduct_log db)))) as Hp.
    destruct (latest _) as [r|].
    - rewrite (cancel_update_all _ _ _ Hp). split; [reflexivity|left; reflexivity].
    - split; [reflexivity|right; reflexivity]. }
  remember (Cancel latest ctx db) as out eqn:Hout. unfold Cancel in Hout.
  destruct (latest (filter (fun r => of_tx (TransactionID ctx) r = true)
                           (inventory_deduct_log db))) as [r|] eqn:Hlatest.
  - destruct (operation_type r) eqn:Hop; subst out; cbn [fst].
    + apply Hupd.
    + apply Hupd.
    + unfold Cancel, Confirm. rewrite Hlatest, Hop.
      split; [reflexivity|left; reflexivity].
  - subst out. cbn [fst]. unfold Cancel, Confirm. rewrite Hlatest.
    split; [reflexivity|right; reflexivity].
Qed.

Lemma direct_cancel_is_final_witness :
  Cancel Sample.direct_latest (Sample.direct_ctx 1)
    (fst (Cancel Sample.direct_latest (Sample.direct_ctx 1)
            (fst (Try (Sample.direct_ctx 1) Sample.direct_db))))
  = (fst (Cancel Sample.direct_latest (Sample.direct_ctx 1)
            (fst (Try (Sample.direct_ctx 1) Sample.direct_db))), None)
  ∧ (Confirm Sample.direct_latest (Sample.direct_ctx 1)
       (fst (Cancel Sample.direct_latest (Sample.direct_ctx 1)
               (fst (Try (Sample.direct_ctx 1) Sample.direct_db))))
     = (fst (Cancel Sample.direct_latest (Sample.direct_ctx 1)
               (fst (Try (Sample.direct_ctx 1) Sample.direct_db))),
        Some (ErrBadState CANCELLED))
     ∨ Confirm Sample.direct_latest (Sample.direct_ctx 1)
         (fst (Cancel Sample.direct_latest (Sample.direct_ctx 1)
                 (fst (Try (Sample.direct_ctx 1) Sample.direct_db))))
       = (fst (Cancel Sample.direct_latest (Sample.direct_ctx 1)
                 (fst (Try (Sample.direct_ctx 1) Sample.direct_db))),
          Some ErrNoTryRecord)).
Proof.
  apply (direct_cancel_is_final Sample.direct_latest (Sample.direct_ctx 1)
           (fst (Try (Sample.direct_ctx 1) Sample.direct_db))).
  exact direct_latest_picks.
Defined.

Lemma map_fresh_log (tx : string) (f : DeductLog → DeductLog) (l : list DeductLog) :
  (∀ r, r ∈ l → of_tx tx r = false) →
  (∀ x, of_tx tx x = false → f x = x) →
  map f l = l.
Proof.
  intros Hl Hf. induction l as [|x l IH]; [reflexivity|].
  cbn [map]. rewrite Hf by (apply Hl; left). f_equal.
  apply IH. intros y Hy. apply Hl. right. exact Hy.
Qed.

(** X14. The direct prototype, inventory Confirm: when a transaction has at
    most one deduct log, a Confirm that returned nil can be repeated: the
    second one changes nothing and returns nil. *)
Theorem direct_confirm_idempotent (latest : list DeductLog → option DeductLog)
    (ctx : SeckillDirectTCCContext) (db db1 : DB) :
  picks_a_row latest →
  log_unique db →
  Confirm latest ctx db = (db1, None) →
  Confirm latest ctx db1 = (db1, None).
Proof.
  intros Hpick Huniq Hconfirm. pose proof Hconfirm as Hfirst. unfold Confirm in Hfirst.
  pose proof (Hpick (filter (fun r => of_tx (TransactionID ctx) r = true)
                            (inventory_deduct_log db))) as Hp.
  specialize (Huniq (TransactionID ctx)).
  destruct (latest _) as [r|]; [|discriminate].
  destruct (operation_type r) eqn:Hop; [| |discriminate].
  - injection Hfirst as <-. unfold Confirm. cbn [inventory_deduct_log].
    rewrite (filter_of_tx_map _ _ _ (confirm_update_id (TransactionID ctx))).
    destruct (filter (fun r => of_tx (TransactionID ctx) r = true)
                     (inventory_deduct_log db)) as [|x [|y l]] eqn:Hfilter.
    + inversion Hp.
    + apply list_elem_of_singleton in Hp. subst x.
      assert (Hr : of_tx (TransactionID ctx) r = true).
      { assert (Hin : r ∈ filter (fun r => of_tx (TransactionID ctx) r = true)
                                 (inventory_deduct_log db))
          by (rewrite Hfilter; left).
        apply list_elem_of_filter in Hin. apply Hin. }
      cbn [map]. rewrite Hr, Hop. rewrite (latest_singleton _ _ Hpick).
      reflexivity.
    + cbn [length] in Huniq. lia.
  - injection Hfirst as <-. exact Hconfirm.
Qed.

Lemma direct_confirm_idempotent_witness :
  Confirm Sample.direct_latest (Sample.direct_ctx 1)
    (fst (Confirm Sample.direct_latest (Sample.direct_ctx 1)
            (fst (Try (Sample.direct_ctx 1) Sample.direct_db))))
  = (fst (Confirm Sample.direct_latest (Sample.direct_ctx 1)
            (fst (Try (Sample.direct_ctx 1) Sample.direct_db))), None).
Proof.
  apply (direct_confirm_idempotent Sample.direct_latest (Sample.direct_ctx 1)
           (fst (Try (Sample.direct_ctx 1) Sample.direct_db))).
  - exact direct_latest_picks.
  - intros tx.
    assert (inventory_deduct_log (fst (Try (Sample.direct_ctx 1) Sample.direct_db))
            = [deduct_log (Sample.direct_ctx 1) TRY_DEDUCT]) as ->
      by (vm_compute; reflexivity).
    rewrite filter_cons, filter_nil. destruct (decide _); cbn [length]; lia.
  - vm_compute. reflexivity.
Defined.

(** X15. The direct prototype, inventory Try, Confirm, Cancel in a row on a
    transaction with no deduct log, an active item, a positive quantity and
    enough stock: all return nil; Confirm leaves the inventory as Try left it (the stock was
    deducted in Try), and Cancel after the Confirm still gives the stock
    back: the inventory table ends as it began and the log ends
    CANCELLED. *)
Theorem direct_try_confirm_cancel_restores (latest : list DeductLog → option DeductLog)
    (ctx : SeckillDirectTCCContext) (db : DB) (row : InventoryRow) :
  picks_a_row latest →
  fresh ctx db →
  seckill_inventory db !! ProductID ctx = Some row →
  0 < Quantity ctx →
  Quantity ctx ≤ stock row →
  status row = ACTIVE →
  ∃ db1 db2,
    Try ctx db = (db1, None)
    ∧ seckill_inventory db1 !! ProductID ctx
      = Some {| stock := stock row - Quantity ctx;
                sold_count := sold_count row + Quantity ctx; status := ACTIVE |}
    ∧ Confirm latest ctx db1 = (db2, None)
    ∧ seckill_inventory db2 = seckill_inventory db1
    ∧ Cancel latest ctx db2
      = ({| seckill_inventory := seckill_inventory db;
            inventory_deduct_log :=
              inventory_deduct_log db ++ [deduct_log ctx CANCELLED] |}, None).
Proof.
  intros Hpick Hfresh Hrow Hpos Hle Hactive.
  assert (Hself : ∀ t, of_tx (TransactionID ctx) (deduct_log ctx t) = true)
    by (intros t; unfold of_tx, deduct_log; cbn [transaction_id]; apply String.eqb_refl).
  assert (Hfilter : ∀ t,
    filter (fun r => of_tx (TransactionID ctx) r = true)
           (inventory_deduct_log db ++ [deduct_log ctx t]) = [deduct_log ctx t]).
  { intros t. rewrite filter_app, (fresh_no_log _ _ Hfresh), filter_cons, filter_nil.
    rewrite decide_True by apply Hself. reflexivity. }
  assert (Hmap : ∀ (f : DeductLog → DeductLog),
    (∀ x, of_tx (TransactionID ctx) x = false → f x = x) →
    map f (inventory_deduct_log db) = inventory_deduct_log db).
  { intros f Hf. exact (map_fresh_log _ f _ Hfresh Hf). }
  eexists _, _. split.
  { unfold Try, exec_deduct. rewrite (fresh_no_log _ _ Hfresh). cbn [length Nat.ltb Nat.leb].
    rewrite Hrow, Hactive.
    assert ((Quantity ctx <=? stock row) = true) as -> by (apply Z.leb_le; lia).
    cbn [andb is_active Z.eqb]. fold (deduct_log ctx TRY_DEDUCT). reflexivity. }
  split; [cbn [seckill_inventory]; apply lookup_insert_eq|].
  split.
  { unfold Confirm. cbn [inventory_deduct_log seckill_inventory].
    rewrite Hfilter, (latest_singleton _ _ Hpick).
    cbn [operation_type deduct_log]. reflexivity. }
  split; [reflexivity|].
  unfold Cancel. cbn [inventory_deduct_log seckill_inventory].
  rewrite map_app, Hmap
    by (intros x Hx; rewrite Hx; reflexivity).
  cbn [map]. fold (deduct_log ctx TRY_DEDUCT). rewrite Hself.
  change (operation_type (deduct_log ctx TRY_DEDUCT)) with TRY_DEDUCT. cbv iota.
  change (set_type CONFIRMED (deduct_log ctx TRY_DEDUCT)) with (deduct_log ctx CONFIRMED).
  rewrite Hfilter, (latest_singleton _ _ Hpick).
  cbn [operation_type deduct_log quantity]. f_equal. f_equal.
  - rewrite alter_insert_eq. cbn [stock sold_count status].
    replace (stock row - Quantity ctx + Quantity ctx) with (stock row) by lia.
    replace (sold_count row + Quantity ctx - Quantity ctx) with (sold_count row) by lia.
    rewrite <- Hactive. destruct row. apply insert_id. exact Hrow.
  - rewrite map_app, Hmap by (intros x Hx; rewrite Hx; reflexivity).
    cbn [map]. rewrite Hself. reflexivity.
Qed.

Lemma direct_try_confirm_cancel_restores_witness :
  ∃ db1 db2,
    Try (Sample.direct_ctx 1) Sample.direct_db = (db1, None)
    ∧ seckill_inventory db1 !! ProductID (Sample.direct_ctx 1)
      = Some {| stock := 1 - Quantity (Sample.direct_ctx 1);
                sold_count := 99 + Quantity (Sample.direct_ctx 1); status := ACTIVE |}
    ∧ Confirm Sample.direct_latest (Sample.direct_ctx 1) db1 = (db2, None)
    ∧ seckill_inventory db2 = seckill_inventory db1
    ∧ Cancel Sample.direct_latest (Sample.direct_ctx 1) db2
      = ({| seckill_inventory := seckill_inventory Sample.direct_db;
            inventory_deduct_log :=
              inventory_deduct_log Sample.direct_db
              ++ [deduct_log (Sample.direct_ctx 1) CANCELLED] |}, None).
Proof.
  apply (direct_try_confirm_cancel_restores Sample.direct_latest (Sample.direct_ctx 1)
           Sample.direct_db {| stock := 1; sold_count := 99; status := ACTIVE |}).
  - exact direct_latest_picks.
  - intros r Hr. vm_compute in Hr. inversion Hr.
  - vm_compute. reflexivity.
  - vm_compute. reflexivity.
  - vm_compute. discriminate.
  - reflexivity.
Defined.

End DirectLifecycle.

Section DirectRecoveryFacts.
Import Go Direct DirectSpec DirectRecovery.
Context {St : Type}.
Implicit Types (rs : list (DirectTCCResource St)) (ctx : SeckillDirectTCCContext)
               (st : State St).

Lemma run_status (f : SeckillDirectTCCContext → St → St * option error) ctx st :
  tcc_resource_status (fst (run f ctx st)) = tcc_resource_status st.
Proof. unfold run. destruct (f ctx (resource_tables st)). reflexivity. Qed.

Lemma phase_eqb_sym (a b : phase) : phase_eqb a b = phase_eqb b a.
Proof. destruct a, b; reflexivity. Qed.

Lemma phase_eqb_eq (a b : phase) : phase_eqb a b = true → a = b.
Proof. destruct a, b; simpl; congruence. Qed.

(** What a mark adds to tcc_resource_status: its own slot, nothing else. *)
Lemma mark_status (ph : phase) (tx : string) (i : nat) st st' :
  markResourceCompleted ph tx i st = Done st' →
  ∀ ph' j, isResourceCompleted ph' tx j st'
           = isResourceCompleted ph' tx j st || (Nat.eqb j i && phase_eqb ph' ph).
Proof.
  unfold markResourceCompleted, isResourceCompleted.
  destruct (resourceTypes !! i) as [ty|]; [|discriminate].
  intros H ph' j. injection H as <-. cbn [tcc_resource_status].
  destruct (existsb (same_slot tx i ph) (tcc_resource_status st)) eqn:Hex.
  - destruct (Nat.eqb j i && phase_eqb ph' ph) eqn:Hji.
    + apply andb_prop in Hji as [Hj Hp]. apply Nat.eqb_eq in Hj.
      apply phase_eqb_eq in Hp. subst. rewrite Hex. reflexivity.
    + rewrite orb_false_r. reflexivity.
  - rewrite existsb_app. f_equal. cbn [existsb]. rewrite orb_false_r.
    unfold same_slot. cbn [rs_transaction_id rs_resource_index rs_phase].
    rewrite String.eqb_refl, (Nat.eqb_sym i j), (phase_eqb_sym ph ph'). reflexivity.
Qed.

Lemma log_status (tx : string) (s : TCCTransactionStatus) (ph : phase) (j : nat) st :
  isResourceCompleted ph tx j (logTCCTransaction tx s st) = isResourceCompleted ph tx j st.
Proof. reflexivity. Qed.

Lemma cancelFrom_log rs i ctx st st' evs :
  cancelFrom rs i ctx st = Done (st', evs) →
  tcc_transaction_log st' = tcc_transaction_log st.
Proof.
  revert i st st' evs. induction rs as [|r rs IH]; intros i st st' evs; simpl.
  - intros H. injection H as <- _. reflexivity.
  - pose proof (run_log (rCancel r) ctx st) as Hlog.
    destruct (run (rCancel r) ctx st) as [st1 [e|]]; cbn [fst] in Hlog.
    + destruct (cancelFrom rs (S i) ctx st1) as [[st2 evs2]|] eqn:Hrest; [|discriminate].
      simpl. intros H. injection H as <- _.
      rewrite (IH _ _ _ _ Hrest). exact Hlog.
    + destruct (markResourceCompleted PhaseCancel (TransactionID ctx) i st1)
        as [st1'|] eqn:Hmark; [|discriminate]. simpl.
      destruct (cancelFrom rs (S i) ctx st1') as [[st2 evs2]|] eqn:Hrest; [|discriminate].
      simpl. intros H. injection H as <- _.
      rewrite (IH _ _ _ _ Hrest), (mark_log _ _ _ _ _ Hmark). exact Hlog.
Qed.

(** A Confirm phase that succeeded marked every resource it visited and
    kept the marks it found. *)
Lemma confirmFrom_marks rs i ctx st st' evs :
  confirmFrom rs i ctx st = Done (st', evs, None) →
  tcc_transaction_log st' = tcc_transaction_log st
  ∧ ∀ j, isResourceCompleted PhaseConfirm (TransactionID ctx) j st'
         = isResourceCompleted PhaseConfirm (TransactionID ctx) j st
           || ((i <=? j)%nat && (j <? i + length rs)%nat).
Proof.
  revert i st st' evs. induction rs as [|r rs IH]; intros i st st' evs; simpl.
  - intros H. injection H as <- _. split; [reflexivity|]. intros j.
    replace (j <? i + 0)%nat with (j <? i)%nat by (f_equal; lia).
    destruct (Nat.leb_spec i j), (Nat.ltb_spec j i); try lia;
      cbn [andb]; rewrite orb_false_r; reflexivity.
  - pose proof (run_log (rConfirm r) ctx st) as Hlog.
    pose proof (run_status (rConfirm r) ctx st) as Hstatus.
    destruct (run (rConfirm r) ctx st) as [st1 [e|]]; cbn [fst] in Hlog, Hstatus;
      [discriminate|].
    destruct (markResourceCompleted PhaseConfirm (TransactionID ctx) i st1)
      as [st1'|] eqn:Hmark; [|discriminate]. simpl.
    destruct (confirmFrom rs (S i) ctx st1') as [[[st2 evs2] res]|] eqn:Hrest;
      [|discriminate].
    simpl. intros H. injection H as <- _ ->.
    destruct (IH _ _ _ _ Hrest) as [Hlog2 Hmarks]. split.
    + rewrite Hlog2, (mark_log _ _ _ _ _ Hmark). exact Hlog.
    + intros j. rewrite Hmarks, (mark_status _ _ _ _ _ Hmark).
      unfold isResourceCompleted. rewrite Hstatus. cbn [phase_eqb].
      rewrite andb_true_r, <- orb_assoc. f_equal.
      destruct (Nat.eqb_spec j i), (Nat.leb_spec (S i) j), (Nat.leb_spec i j),
        (Nat.ltb_spec j (S i + length rs)), (Nat.ltb_spec j (i + S (length rs)));
        try lia; reflexivity.
Qed.

(** The Confirm recovery skips what is marked. *)
Lemma recoverConfirmFrom_skip rs i ctx st :
  (∀ j, (i ≤ j < i + length rs)%nat →
        isResourceCompleted PhaseConfirm (TransactionID ctx) j st = true) →
  recoverConfirmFrom rs i ctx st = Done (st, [], None).
Proof.
  revert i. induction rs as [|r rs IH]; intros i Hall; simpl; [reflexivity|].
  rewrite (Hall i) by (simpl; lia).
  apply IH. intros j Hj. apply Hall. simpl. lia.
Qed.

(** The Try recovery skips what is marked and goes on to the Confirm
    recovery. *)
Lemma recoverTryFrom_skip (all : list (DirectTCCResource St)) rs i ctx st :
  (∀ j, (i ≤ j < i + length rs)%nat →
        isResourceCompleted PhaseTry (TransactionID ctx) j st = true) →
  recoverTryFrom all rs i ctx st
  = recoverFromConfirmPhase all ctx
      (logTCCTransaction (TransactionID ctx) TCCStatusConfirmed st).
Proof.
  revert i. induction rs as [|r rs IH]; intros i Hall; simpl; [reflexivity|].
  rewrite (Hall i) by (simpl; lia).
  apply IH. intros j Hj. apply Hall. simpl. lia.
Qed.

(** A Try phase that succeeded marked every resource it visited. *)
Lemma tryFrom_marks (visited : list (nat * DirectTCCResource St)) rs i ctx st st' evs :
  tryFrom visited rs i ctx st = Done (st', evs, None) →
  ∀ j, isResourceCompleted PhaseTry (TransactionID ctx) j st'
       = isResourceCompleted PhaseTry (TransactionID ctx) j st
         || ((i <=? j)%nat && (j <? i + length rs)%nat).
Proof.
  revert visited i st st' evs.
  induction rs as [|r rs IH]; intros visited i st st' evs; simpl.
  - intros H. injection H as <- _. intros j.
    destruct (Nat.leb_spec i j), (Nat.ltb_spec j (i + 0)); try lia;
      cbn [andb]; rewrite orb_false_r; reflexivity.
  - pose proof (run_status (rTry r) ctx st) as Hstatus.
    destruct (run (rTry r) ctx st) as [st1 [e|]]; cbn [fst] in Hstatus.
    { destruct (compensate visited ctx st1) as [[st2 evs2]|]; discriminate. }
    destruct (markResourceCompleted PhaseTry (TransactionID ctx) i st1)
      as [st1'|] eqn:Hmark; [|discriminate]. simpl.
    destruct (tryFrom ((i, r) :: visited) rs (S i) ctx st1')
      as [[[st2 evs2] res]|] eqn:Hrest; [|discriminate].
    simpl. intros H. injection H as <- _ ->.
    intros j. rewrite (IH _ _ _ _ _ Hrest), (mark_status _ _ _ _ _ Hmark).
    unfold isResourceCompleted. rewrite Hstatus. cbn [phase_eqb].
    rewrite andb_true_r, <- orb_assoc. f_equal.
    destruct (Nat.eqb_spec j i), (Nat.leb_spec (S i) j), (Nat.leb_spec i j),
      (Nat.ltb_spec j (S i + length rs)), (Nat.ltb_spec j (i + S (length rs)));
      try lia; reflexivity.
Qed.

(** The indices from [i] on that the Cancel recovery still has to visit. *)
Lemma recoverCancelFrom_spec rs i ctx st :
  (i + length rs ≤ 3)%nat →
  ∃ st' evs,
    recoverCancelFrom rs i ctx st = Done (st', evs)
    ∧ calls evs
      = on_each OpCancel
          (List.filter (fun j => negb (isResourceCompleted PhaseCancel
                                         (TransactionID ctx) j st))
                       (seq i (length rs)))
    ∧ tcc_transaction_log st' = tcc_transaction_log st
    ∧ ∀ j, isResourceCompleted PhaseCancel (TransactionID ctx) j st'
           = isResourceCompleted PhaseCancel (TransactionID ctx) j st
             || ((i <=? j)%nat && (j <? i + length rs)%nat).
Proof.
  revert i st. induction rs as [|r rs IH]; intros i st Hlen; simpl in *.
  - exists st, []. split; [reflexivity|]. split; [reflexivity|]. split; [reflexivity|].
    intros j. destruct (Nat.leb_spec i j), (Nat.ltb_spec j (i + 0)); try lia;
      cbn [andb]; rewrite orb_false_r; reflexivity.
  - destruct (isResourceCompleted PhaseCancel (TransactionID ctx) i st) eqn:Hi; cbn [negb].
    + destruct (IH (S i) st ltac:(lia)) as (st' & evs & Hrun & Hcalls & Hlog & Hmarks).
      exists st', evs. split; [exact Hrun|]. split; [exact Hcalls|].
      split; [exact Hlog|]. intros j. rewrite Hmarks.
      destruct (Nat.eqb_spec j i) as [->|Hne].
      * rewrite Hi. reflexivity.
      * f_equal.
        destruct (Nat.leb_spec (S i) j), (Nat.leb_spec i j),
          (Nat.ltb_spec j (S i + length rs)), (Nat.ltb_spec j (i + S (length rs)));
          try lia; reflexivity.
    + pose proof (run_log (rCancel r) ctx st) as Hlog1.
      pose proof (run_status (rCancel r) ctx st) as Hstatus.
      destruct (run (rCancel r) ctx st) as [st1 res]; cbn [fst] in Hlog1, Hstatus.
      destruct (mark_in_range PhaseCancel (TransactionID ctx) i st1 ltac:(lia))
        as (st1' & Hmark).
      rewrite Hmark. cbn [mbind outcome_bind].
      destruct (IH (S i) st1' ltac:(lia)) as (st' & evs & Hrun & Hcalls & Hlog & Hmarks).
      rewrite Hrun. cbn [mbind outcome_bind].
      eexists _, _. split; [reflexivity|].
      assert (Hsame : ∀ j, isResourceCompleted PhaseCancel (TransactionID ctx) j st1'
                           = isResourceCompleted PhaseCancel (TransactionID ctx) j st
                             || Nat.eqb j i).
      { intros j. rewrite (mark_status _ _ _ _ _ Hmark).
        unfold isResourceCompleted. rewrite Hstatus. cbn [phase_eqb].
        rewrite andb_true_r. reflexivity. }
      split; [|split].
      * cbn [calls]. rewrite Hcalls. unfold on_each. cbn [map]. f_equal. f_equal.
        apply filter_ext_in. intros j Hj. apply in_seq in Hj. rewrite Hsame.
        destruct (Nat.eqb_spec j i); [lia|]. rewrite orb_false_r. reflexivity.
      * rewrite Hlog, (mark_log _ _ _ _ _ Hmark). exact Hlog1.
      * intros j. rewrite Hmarks, Hsame, <- orb_assoc. f_equal.
        destruct (Nat.eqb_spec j i), (Nat.leb_spec (S i) j), (Nat.leb_spec i j),
          (Nat.ltb_spec j (S i + length rs)), (Nat.ltb_spec j (i + S (length rs)));
          try lia; reflexivity.
Qed.

End DirectRecoveryFacts.

Section DirectRecoveryRuns.
Import Go Direct DirectSpec DirectRecovery.

Lemma recoverCancelFrom_skip {St : Type} (rs : list (DirectTCCResource St)) (i : nat)
    (ctx : SeckillDirectTCCContext) (st : State St) :
  (∀ j, (i ≤ j < i + length rs)%nat →
        isResourceCompleted PhaseCancel (TransactionID ctx) j st = true) →
  recoverCancelFrom rs i ctx st = Done (st, []).
Proof.
  revert i. induction rs as [|r rs IH]; intros i Hall; simpl; [reflexivity|].
  rewrite (Hall i) by (simpl; lia).
  apply IH. intros j Hj. apply Hall. simpl. lia.
Qed.

(** X16. The direct prototype, ExecuteSeckill runs a transaction once: after
    a run that came back, whatever its result, a second ExecuteSeckill of
    the same transaction calls no resource and changes nothing; it returns
    nil if the first run returned nil and "事务已取消" if it returned an
    error. *)
Theorem direct_execute_once {St : Type} (rs : list (DirectTCCResource St))
    (ctx : SeckillDirectTCCContext) (st st' : State St) (tr : list event)
    (res : option error) :
  ExecuteSeckill rs ctx st = Done (st', tr, res) →
  ExecuteSeckill rs ctx st'
  = Done (st', [], match res with
                   | None => None
                   | Some _ => Some ErrAlreadyCancelled
                   end).
Proof.
  intros Hrun.
  assert (Hend : match res with
                 | None => tcc_transaction_log st' !! TransactionID ctx
                           = Some TCCStatusConfirmed
                 | Some _ => tcc_transaction_log st' !! TransactionID ctx
                             = Some TCCStatusCancelled
                 end).
  { unfold ExecuteSeckill in Hrun.
    assert (Hbody :
      ('(st1, ev1, r1) ← tryResources rs ctx st;
       match r1 with
       | Some e =>
           '(st2, ev2) ← cancelFrom rs 0%nat ctx
                            (logTCCTransaction (TransactionID ctx) TCCStatusCancelled st1);
           Done (st2, ev1 ++ ev2, Some (ErrSeckill e))
       | None =>
           '(st2, ev2, r2) ← confirmFrom rs 0%nat ctx
                                (logTCCTransaction (TransactionID ctx) TCCStatusTried st1);
           match r2 with
           | Some e =>
               '(st3, ev3) ← cancelFrom rs 0%nat ctx
                                (logTCCTransaction (TransactionID ctx)
                                                   TCCStatusCancelled st2);
               Done (st3, ev1 ++ ev2 ++ ev3, Some (ErrConfirm e))
           | None =>
               Done (logTCCTransaction (TransactionID ctx) TCCStatusConfirmed st2,
                     ev1 ++ ev2, None)
           end
       end) = Done (st', tr, res) →
      match res with
      | None => tcc_transaction_log st' !! TransactionID ctx = Some TCCStatusConfirmed
      | Some _ => tcc_transaction_log st' !! TransactionID ctx = Some TCCStatusCancelled
      end).
    { clear Hrun. intros Hrun.
      destruct (tryResources rs ctx st) as [[[st1 ev1] [e|]]|]; simpl in Hrun;
        [| |discriminate].
      - destruct (cancelFrom rs 0 ctx _) as [[st2 ev2]|] eqn:Hcancel; simpl in Hrun;
          [|discriminate].
        injection Hrun as <- _ <-.
        rewrite (cancelFrom_log _ _ _ _ _ _ Hcancel). apply lookup_insert_eq.
      - destruct (confirmFrom rs 0 ctx _) as [[[st2 ev2] [e|]]|]; simpl in Hrun;
          [| |discriminate].
        + destruct (cancelFrom rs 0 ctx _) as [[st3 ev3]|] eqn:Hcancel; simpl in Hrun;
            [|discriminate].
          injection Hrun as <- _ <-.
          rewrite (cancelFrom_log _ _ _ _ _ _ Hcancel). apply lookup_insert_eq.
        + injection Hrun as <- _ <-. apply lookup_insert_eq. }
    destruct (tcc_transaction_log st !! TransactionID ctx) as [[| |]|] eqn:Hentry.
    - apply Hbody. exact Hrun.
    - injection Hrun as <- _ <-. exact Hentry.
    - injection Hrun as <- _ <-. exact Hentry.
    - apply Hbody. exact Hrun. }
  unfold ExecuteSeckill. destruct res as [e|]; rewrite Hend; reflexivity.
Qed.

Lemma direct_execute_once_witness :
  ExecuteSeckill MoreSample.direct_resources (Sample.direct_ctx 1)
    (MoreSample.direct_after MoreSample.direct_resources (Sample.direct_ctx 1)
       Sample.direct_state)
  = Done (MoreSample.direct_after MoreSample.direct_resources (Sample.direct_ctx 1)
            Sample.direct_state, [], None).
Proof.
  apply (direct_execute_once MoreSample.direct_resources (Sample.direct_ctx 1)
           Sample.direct_state
           (MoreSample.direct_after MoreSample.direct_resources (Sample.direct_ctx 1)
              Sample.direct_state)
           [Call OpTry 0; Call OpConfirm 0] None).
  vm_compute. reflexivity.
Defined.

(** X17. The direct prototype, recovery of a finished transaction:
    RecoverTransactions also selects the transactions logged CONFIRMED;
    for one that ExecuteSeckill completed, every resource is marked
    confirm-completed, so the recovery calls no resource, changes nothing
    and returns nil. *)
Theorem direct_recovery_after_success {St : Type} (rs : list (DirectTCCResource St))
    (ctx : SeckillDirectTCCContext) (st st' : State St) (tr : list event) :
  unfinished ctx st →
  ExecuteSeckill rs ctx st = Done (st', tr, None) →
  tcc_transaction_log st' !! TransactionID ctx = Some TCCStatusConfirmed
  ∧ recoverByStatus rs TCCStatusConfirmed ctx st' = Done (st', [], None).
Proof.
  intros [Hnc Hnx] Hrun. unfold ExecuteSeckill in Hrun.
  assert (Hbody :
    ('(st1, ev1, r1) ← tryResources rs ctx st;
     match r1 with
     | Some e =>
         '(st2, ev2) ← cancelFrom rs 0%nat ctx
                          (logTCCTransaction (TransactionID ctx) TCCStatusCancelled st1);
         Done (st2, ev1 ++ ev2, Some (ErrSeckill e))
     | None =>
         '(st2, ev2, r2) ← confirmFrom rs 0%nat ctx
                              (logTCCTransaction (TransactionID ctx) TCCStatusTried st1);
         match r2 with
         | Some e =>
             '(st3, ev3) ← cancelFrom rs 0%nat ctx
                              (logTCCTransaction (TransactionID ctx)
                                                 TCCStatusCancelled st2);
             Done (st3, ev1 ++ ev2 ++ ev3, Some (ErrConfirm e))
         | None =>
             Done (logTCCTransaction (TransactionID ctx) TCCStatusConfirmed st2,
                   ev1 ++ ev2, None)
         end
     end) = Done (st', tr, None)).
  { destruct (tcc_transaction_log st !! TransactionID ctx) as [[| |]|];
      [exact Hrun|congruence|congruence|exact Hrun]. }
  clear Hrun.
  destruct (tryResources rs ctx st) as [[[st1 ev1] [e|]]|]; simpl in Hbody;
    [| |discriminate].
  { destruct (cancelFrom rs 0 ctx _) as [[st2 ev2]|]; simpl in Hbody; discriminate. }
  destruct (confirmFrom rs 0 ctx _) as [[[st2 ev2] [e|]]|] eqn:Hconfirm; simpl in Hbody;
    [| |discriminate].
  { destruct (cancelFrom rs 0 ctx _) as [[st3 ev3]|]; simpl in Hbody; discriminate. }
  injection Hbody as <- _.
  split; [apply lookup_insert_eq|].
  cbn [recoverByStatus]. unfold recoverFromConfirmPhase.
  apply recoverConfirmFrom_skip. intros j Hj.
  destruct (confirmFrom_marks _ _ _ _ _ _ Hconfirm) as [_ Hmarks].
  rewrite log_status, Hmarks.
  destruct (Nat.leb_spec 0 j), (Nat.ltb_spec j (0 + length rs)); try lia;
    apply orb_true_r.
Qed.

Lemma direct_recovery_after_success_witness :
  tcc_transaction_log
    (MoreSample.direct_after MoreSample.direct_resources (Sample.direct_ctx 1)
       Sample.direct_state) !! TransactionID (Sample.direct_ctx 1)
  = Some TCCStatusConfirmed
  ∧ recoverByStatus MoreSample.direct_resources TCCStatusConfirmed (Sample.direct_ctx 1)
      (MoreSample.direct_after MoreSample.direct_resources (Sample.direct_ctx 1)
         Sample.direct_state)
    = Done (MoreSample.direct_after MoreSample.direct_resources (Sample.direct_ctx 1)
              Sample.direct_state, [], None).
Proof.
  apply (direct_recovery_after_success MoreSample.direct_resources (Sample.direct_ctx 1)
           Sample.direct_state
           (MoreSample.direct_after MoreSample.direct_resources (Sample.direct_ctx 1)
              Sample.direct_state)
           [Call OpTry 0; Call OpConfirm 0]).
  - split; vm_compute; discriminate.
  - vm_compute. reflexivity.
Defined.

(** X18. The direct prototype, recoverFromCancelPhase with at most three
    resources: it calls Cancel on exactly the resources not yet marked
    cancel-completed, in slice order, marks them whatever their Cancel
    returned, and leaves tcc_transaction_log alone; a second recovery then
    calls no resource and changes nothing. *)
Theorem direct_cancel_recovery_converges {St : Type} (rs : list (DirectTCCResource St))
    (ctx : SeckillDirectTCCContext) (st : State St) :
  (length rs ≤ 3)%nat →
  ∃ st1 evs,
    recoverFromCancelPhase rs ctx st = Done (st1, evs)
    ∧ calls evs
      = on_each OpCancel
          (List.filter (fun j => negb (isResourceCompleted PhaseCancel
                                         (TransactionID ctx) j st))
                       (seq 0 (length rs)))
    ∧ tcc_transaction_log st1 = tcc_transaction_log st
    ∧ recoverFromCancelPhase rs ctx st1 = Done (st1, []).
Proof.
  intros Hlen. unfold recoverFromCancelPhase.
  destruct (recoverCancelFrom_spec rs 0 ctx st ltac:(lia))
    as (st1 & evs & Hrun & Hcalls & Hlog & Hmarks).
  exists st1, evs. split; [exact Hrun|]. split; [exact Hcalls|]. split; [exact Hlog|].
  apply recoverCancelFrom_skip. intros j Hj. rewrite Hmarks.
  destruct (Nat.leb_spec 0 j), (Nat.ltb_spec j (0 + length rs)); try lia;
    apply orb_true_r.
Qed.

Lemma direct_cancel_recovery_converges_witness :
  ∃ st1 evs,
    recoverFromCancelPhase
      [DirectInventoryResource Sample.direct_latest;
       DirectInventoryResource Sample.direct_latest]
      (Sample.direct_ctx 1) MoreSample.direct_half_cancelled = Done (st1, evs)
    ∧ calls evs
      = on_each OpCancel
          (List.filter (fun j => negb (isResourceCompleted PhaseCancel
                                         (TransactionID (Sample.direct_ctx 1)) j
                                         MoreSample.direct_half_cancelled))
                       (seq 0 2))
    ∧ tcc_transaction_log st1 = tcc_transaction_log MoreSample.direct_half_cancelled
    ∧ recoverFromCancelPhase
        [DirectInventoryResource Sample.direct_latest;
         DirectInventoryResource Sample.direct_latest]
        (Sample.direct_ctx 1) st1 = Done (st1, []).
Proof.
  apply (direct_cancel_recovery_converges
           [DirectInventoryResource Sample.direct_latest;
            DirectInventoryResource Sample.direct_latest]
           (Sample.direct_ctx 1) MoreSample.direct_half_cancelled).
  simpl. lia.
Defined.

(** X19. The direct prototype, recovery of a transaction logged TRIED whose
    Try phase had completed: no Try is run again; the recovery logs
    CONFIRMED and goes on as the Confirm recovery does. *)
Theorem direct_recovery_skips_completed_try {St : Type} (rs : list (DirectTCCResource St))
    (ctx : SeckillDirectTCCContext) (st st1 : State St) (ev1 : list event) :
  tryResources rs ctx st = Done (st1, ev1, None) →
  recoverByStatus rs TCCStatusTried ctx
    (logTCCTransaction (TransactionID ctx) TCCStatusTried st1)
  = recoverFromConfirmPhase rs ctx
      (logTCCTransaction (TransactionID ctx) TCCStatusConfirmed
         (logTCCTransaction (TransactionID ctx) TCCStatusTried st1)).
Proof.
  intros Htry. cbn [recoverByStatus]. unfold recoverFromTryPhase.
  apply recoverTryFrom_skip. intros j Hj.
  rewrite log_status, (tryFrom_marks _ _ _ _ _ _ _ Htry).
  destruct (Nat.leb_spec 0 j), (Nat.ltb_spec j (0 + length rs)); try lia;
    apply orb_true_r.
Qed.

Lemma direct_recovery_skips_completed_try_witness :
  recoverByStatus MoreSample.direct_resources TCCStatusTried (Sample.direct_ctx 1)
    (logTCCTransaction (TransactionID (Sample.direct_ctx 1)) TCCStatusTried
       MoreSample.direct_tried)
  = recoverFromConfirmPhase MoreSample.direct_resources (Sample.direct_ctx 1)
      (logTCCTransaction (TransactionID (Sample.direct_ctx 1)) TCCStatusConfirmed
         (logTCCTransaction (TransactionID (Sample.direct_ctx 1)) TCCStatusTried
            MoreSample.direct_tried)).
Proof.
  apply (direct_recovery_skips_completed_try MoreSample.direct_resources
           (Sample.direct_ctx 1) Sample.direct_state MoreSample.direct_tried
           [Call OpTry 0]).
  vm_compute. reflexivity.
Defined.

End DirectRecoveryRuns.

Section DirectOrderLifecycle.
Import Go Direct DirectRecovery.

(** X20. The direct prototype, order resource: Cancel is final.  Once the
    order of a transaction exists, Cancel leaves it CANCELLED with its other
    columns unchanged; after that a second Cancel and a repeated Try change
    nothing and return nil, and Confirm changes nothing and fails with
    "订单状态异常，当前状态: CANCELLED". *)
Theorem direct_order_cancel_is_final (ctx : SeckillDirectTCCContext)
    (orders : gmap string OrderRow) (r : OrderRow) :
  orders !! TransactionID ctx = Some r →
  let cancelled := fst (Order_Cancel ctx orders) in
  snd (Order_Cancel ctx orders) = None
  ∧ cancelled !! TransactionID ctx = Some (set_order_status ORDER_CANCELLED r)
  ∧ (∀ tx, tx ≠ TransactionID ctx → cancelled !! tx = orders !! tx)
  ∧ Order_Cancel ctx cancelled = (cancelled, None)
  ∧ Order_Try ctx cancelled = (cancelled, None)
  ∧ Order_Confirm ctx cancelled = (cancelled, Some (ErrOrderState ORDER_CANCELLED)).
Proof.
  intros Hr cancelled.
  assert (Hc : snd (Order_Cancel ctx orders) = None
               ∧ cancelled !! TransactionID ctx = Some (set_order_status ORDER_CANCELLED r)
               ∧ ∀ tx, tx ≠ TransactionID ctx → cancelled !! tx = orders !! tx).
  { subst cancelled. unfold Order_Cancel. rewrite Hr.
    destruct (o_status r) eqn:Hst; cbn [fst snd].
    - split; [reflexivity|]. split; [apply lookup_insert_eq|].
      intros tx Htx. apply lookup_insert_ne. congruence.
    - split; [reflexivity|]. split; [apply lookup_insert_eq|].
      intros tx Htx. apply lookup_insert_ne. congruence.
    - split; [reflexivity|]. split; [|reflexivity].
      rewrite Hr. f_equal. destruct r. cbn in Hst. subst. reflexivity. }
  destruct Hc as (Hres & Hrow & Hother).
  split; [exact Hres|]. split; [exact Hrow|]. split; [exact Hother|].
  unfold Order_Cancel, Order_Try, Order_Confirm. rewrite Hrow.
  cbn [o_status set_order_status]. auto.
Qed.

Lemma direct_order_cancel_is_final_witness :
  let cancelled := fst (Order_Cancel (Sample.direct_ctx 1) MoreSample.direct_orders) in
  snd (Order_Cancel (Sample.direct_ctx 1) MoreSample.direct_orders) = None
  ∧ cancelled !! TransactionID (Sample.direct_ctx 1)
    = Some (set_order_status ORDER_CANCELLED
              {| o_user_id := 10001; o_product_id := 1001; o_quantity := 1;
                 o_status := PENDING |})
  ∧ (∀ tx, tx ≠ TransactionID (Sample.direct_ctx 1) →
           cancelled !! tx = MoreSample.direct_orders !! tx)
  ∧ Order_Cancel (Sample.direct_ctx 1) cancelled = (cancelled, None)
  ∧ Order_Try (Sample.direct_ctx 1) cancelled = (cancelled, None)
  ∧ Order_Confirm (Sample.direct_ctx 1) cancelled
    = (cancelled, Some (ErrOrderState ORDER_CANCELLED)).
Proof.
  apply (direct_order_cancel_is_final (Sample.direct_ctx 1) MoreSample.direct_orders
           {| o_user_id := 10001; o_product_id := 1001; o_quantity := 1;
              o_status := PENDING |}).
  vm_compute. reflexivity.
Defined.

(** X21. The direct prototype, buildRecoveryContext: the recovery reads
    the context back from the order row.  After the Try of the order
    resource, and after its Confirm or Cancel as well, the transaction id,
    user, product and quantity of the context are read back as Try stored
    them; as long as no order of the transaction exists, no context can be
    built. *)
Theorem direct_recovery_context_roundtrip (ctx : SeckillDirectTCCContext)
    (orders : gmap string OrderRow) :
  orders !! TransactionID ctx = None →
  buildRecoveryContext (TransactionID ctx) orders = None
  ∧ buildRecoveryContext (TransactionID ctx) (fst (Order_Try ctx orders)) = Some ctx
  ∧ buildRecoveryContext (TransactionID ctx)
      (fst (Order_Confirm ctx (fst (Order_Try ctx orders)))) = Some ctx
  ∧ buildRecoveryContext (TransactionID ctx)
      (fst (Order_Cancel ctx (fst (Order_Try ctx orders)))) = Some ctx.
Proof.
  intros Hnone. unfold buildRecoveryContext, Order_Try. rewrite Hnone. cbn [fst].
  split; [reflexivity|].
  unfold Order_Confirm, Order_Cancel. rewrite !lookup_insert_eq.
  cbn [o_status fst]. rewrite !lookup_insert_eq.
  destruct ctx; repeat split; reflexivity.
Qed.

Lemma direct_recovery_context_roundtrip_witness :
  buildRecoveryContext (TransactionID (Sample.direct_ctx 1)) ∅ = None
  ∧ buildRecoveryContext (TransactionID (Sample.direct_ctx 1))
      (fst (Order_Try (Sample.direct_ctx 1) ∅)) = Some (Sample.direct_ctx 1)
  ∧ buildRecoveryContext (TransactionID (Sample.direct_ctx 1))
      (fst (Order_Confirm (Sample.direct_ctx 1) (fst (Order_Try (Sample.direct_ctx 1) ∅))))
    = Some (Sample.direct_ctx 1)
  ∧ buildRecoveryContext (TransactionID (Sample.direct_ctx 1))
      (fst (Order_Cancel (Sample.direct_ctx 1) (fst (Order_Try (Sample.direct_ctx 1) ∅))))
    = Some (Sample.direct_ctx 1).
Proof.
  apply (direct_recovery_context_roundtrip (Sample.direct_ctx 1) ∅).
  reflexivity.
Defined.

End DirectOrderLifecycle.

Section StandardLifecycle.
Import Go Standard MoreSpec.

Lemma assert_int_done (args : Args) (k : string) (n : Z) :
  args !! k = Some (VInt n) → assert_int args k = Done n.
Proof. intros H. unfold assert_int. rewrite H. reflexivity. Qed.

Lemma assert_int_inv (args : Args) (k : string) (n : Z) :
  assert_int args k = Done n → args !! k = Some (VInt n).
Proof.
  unfold assert_int. destruct (args !! k) as [[m|s|m e]|]; try discriminate.
  intros H. injection H as ->. reflexivity.
Qed.

(** The versioned UPDATE, with the version just read from the row. *)
Lemma update_inventory_row (f : InventoryRow → InventoryRow) (itemID : Z)
    (inv : gmap Z InventoryRow) (row : InventoryRow) :
  inv !! itemID = Some row →
  update_inventory f itemID (i_version row) inv = <[itemID := f row]> inv.
Proof.
  intros Hrow. unfold update_inventory. apply map_eq. intros k.
  destruct (decide (k = itemID)) as [->|Hne].
  - rewrite lookup_alter_eq, lookup_insert_eq, Hrow. cbn [fmap option_fmap option_map].
    rewrite Z.eqb_refl. reflexivity.
  - rewrite lookup_alter_ne, lookup_insert_ne by congruence. reflexivity.
Qed.

Lemma balanced_insert (t : Tables) (itemID : Z) (row : InventoryRow) :
  balanced t → available row + frozen row = total row →
  balanced (set_inventory (<[itemID := row]> (seckill_inventory t)) t).
Proof.
  intros Hb Hrow k r. cbn [seckill_inventory set_inventory].
  destruct (decide (k = itemID)) as [->|Hne].
  - rewrite lookup_insert_eq. intros H. injection H as <-. exact Hrow.
  - rewrite lookup_insert_ne by congruence. apply Hb.
Qed.

(** X22. seckill_standard.go, InventoryRM: Try moves the quantity from
    available to frozen, Confirm takes it from frozen and total, Cancel
    moves it back; so whatever the arguments, each of the three keeps
    "available + frozen = total" for every item. *)
Theorem standard_inventory_balanced (args : Args) (t : Tables) :
  balanced t →
  (∀ t' res, InventoryRM_Try args t = Done (t', res) → balanced t')
  ∧ (∀ t' res, InventoryRM_Confirm args t = Done (t', res) → balanced t')
  ∧ (∀ t' res, InventoryRM_Cancel args t = Done (t', res) → balanced t').
Proof.
  intros Hb.
  unfold InventoryRM_Try, InventoryRM_Confirm, InventoryRM_Cancel.
  destruct (assert_int args "item_id") as [itemID|];
    [|repeat split; discriminate].
  destruct (assert_int args "quantity") as [q|]; [|repeat split; discriminate].
  cbn [mbind outcome_bind].
  destruct (seckill_inventory t !! itemID) as [row|] eqn:Hrow.
  - rewrite !(update_inventory_row _ _ _ _ Hrow). pose proof (Hb _ _ Hrow) as Hsum.
    repeat split; intros t' res H; injection H as <- _;
      apply balanced_insert; try exact Hb; cbn [available frozen total]; lia.
  - repeat split; intros t' res H; injection H as <- _; exact Hb.
Qed.

Lemma standard_inventory_balanced_witness :
  (∀ t' res, InventoryRM_Try (MoreSample.standard_item_args 9) Sample.standard_tables
             = Done (t', res) → balanced t')
  ∧ (∀ t' res, InventoryRM_Confirm (MoreSample.standard_item_args 9) Sample.standard_tables
               = Done (t', res) → balanced t')
  ∧ (∀ t' res, InventoryRM_Cancel (MoreSample.standard_item_args 9) Sample.standard_tables
               = Done (t', res) → balanced t').
Proof.
  apply (standard_inventory_balanced (MoreSample.standard_item_args 9)
           Sample.standard_tables).
  intros itemID row Hrow. cbn [Sample.standard_tables seckill_inventory] in Hrow.
  apply lookup_singleton_Some in Hrow as [_ <-]. reflexivity.
Defined.

(** X23. seckill_standard.go, InventoryRM on an item that exists: Try
    makes no stock check, it succeeds for any quantity (available may go
    below zero); a Cancel after it restores frozen and available, a
    Confirm after it takes the quantity from frozen and total; each call
    raises the version by one. *)
Theorem standard_inventory_try_then_finish (args : Args) (t : Tables)
    (itemID q : Z) (row : InventoryRow) :
  args !! "item_id" = Some (VInt itemID) →
  args !! "quantity" = Some (VInt q) →
  seckill_inventory t !! itemID = Some row →
  ∃ t1 t2 t3,
    InventoryRM_Try args t = Done (t1, None)
    ∧ seckill_inventory t1 !! itemID
      = Some {| frozen := frozen row + q; available := available row - q;
                total := total row; i_version := i_version row + 1 |}
    ∧ InventoryRM_Cancel args t1 = Done (t2, None)
    ∧ seckill_inventory t2 !! itemID
      = Some {| frozen := frozen row; available := available row;
                total := total row; i_version := i_version row + 2 |}
    ∧ InventoryRM_Confirm args t1 = Done (t3, None)
    ∧ seckill_inventory t3 !! itemID
      = Some {| frozen := frozen row; available := available row - q;
                total := total row - q; i_version := i_version row + 2 |}.
Proof.
  intros Hid Hq Hrow.
  unfold InventoryRM_Try, InventoryRM_Cancel, InventoryRM_Confirm.
  rewrite (assert_int_done _ _ _ Hid), (assert_int_done _ _ _ Hq).
  cbn [mbind outcome_bind]. rewrite Hrow, (update_inventory_row _ _ _ _ Hrow).
  eexists _, _, _. split; [reflexivity|].
  cbn [seckill_inventory set_inventory]. split; [apply lookup_insert_eq|].
  rewrite lookup_insert_eq.
  rewrite !(update_inventory_row _ itemID _ _ (lookup_insert_eq _ _ _)).
  cbn [frozen available total i_version].
  split; [reflexivity|]. split.
  { cbn [seckill_inventory set_inventory]. rewrite lookup_insert_eq.
    f_equal. f_equal; lia. }
  split; [reflexivity|].
  cbn [seckill_inventory set_inventory]. rewrite lookup_insert_eq.
  f_equal. f_equal; lia.
Qed.

Lemma standard_inventory_try_then_finish_witness :
  ∃ t1 t2 t3,
    InventoryRM_Try (MoreSample.standard_item_args 9) Sample.standard_tables
    = Done (t1, None)
    ∧ seckill_inventory t1 !! 1
      = Some {| frozen := 1 + 9; available := 4 - 9; total := 5; i_version := 1 + 1 |}
    ∧ InventoryRM_Cancel (MoreSample.standard_item_args 9) t1 = Done (t2, None)
    ∧ seckill_inventory t2 !! 1
      = Some {| frozen := 1; available := 4; total := 5; i_version := 1 + 2 |}
    ∧ InventoryRM_Confirm (MoreSample.standard_item_args 9) t1 = Done (t3, None)
    ∧ seckill_inventory t3 !! 1
      = Some {| frozen := 1; available := 4 - 9; total := 5 - 9; i_version := 1 + 2 |}.
Proof.
  apply (standard_inventory_try_then_finish (MoreSample.standard_item_args 9)
           Sample.standard_tables 1 9
           {| frozen := 1; available := 4; total := 5; i_version := 1 |}).
  - reflexivity.
  - reflexivity.
  - reflexivity.
Defined.

Lemma redrive_rows_stuck (resources : gmap string ResourceManager)
    (order_of : string → list string) (now : Z) (st : State)
    (rows : list (string * Tx.status)) :
  (∀ txID s, (txID, s) ∈ rows →
             ∃ r, tcc_transaction st !! txID = Some r ∧ TxTable.status r = s
                  ∧ s ≠ Tx.TRIED) →
  ∃ evs, redrive_rows resources order_of now rows st = Done (st, evs)
         ∧ ∀ ev, ev ∈ evs →
                 (ev.1.2 = CallConfirm ∧ ev.2 = Some ErrInvalidConfirm)
                 ∨ (ev.1.2 = CallCancel ∧ ev.2 = Some ErrInvalidCancel).
Proof.
  induction rows as [|[txID s] rows IH]; intros Hrows; cbn [redrive_rows].
  - exists []. split; [reflexivity|]. intros ev Hev. inversion Hev.
  - destruct IH as (evs & Hrest & Hevs).
    { intros tx s' Hin. apply Hrows. right. exact Hin. }
    destruct (Hrows txID s ltac:(left)) as (r & Hr & Hs & Hne).
    assert (Hnt : TxTable.status r ≠ Tx.TRIED) by congruence.
    destruct (redrive s) as [[|]|] eqn:Hre.
    + rewrite (Confirm_needs_tried _ _ _ _ _ _ _ Hr Hnt). cbn [mbind outcome_bind].
      rewrite Hrest. cbn [mbind outcome_bind].
      eexists. split; [reflexivity|]. intros ev Hev.
      apply elem_of_cons in Hev as [->|Hev]; [left; split; reflexivity|apply Hevs, Hev].
    + rewrite (Cancel_needs_tried _ _ _ _ _ _ _ Hr Hnt). cbn [mbind outcome_bind].
      rewrite Hrest. cbn [mbind outcome_bind].
      eexists. split; [reflexivity|]. intros ev Hev.
      apply elem_of_cons in Hev as [->|Hev]; [right; split; reflexivity|apply Hevs, Hev].
    + exists evs. split; [exact Hrest|exact Hevs].
Qed.

(** X24. seckill_standard.go, Compensate: Confirm and Cancel accept only a
    transaction in TRIED, so the sweeper re-drives TRYING, CONFIRMING and
    CANCELLING transactions in vain.  In a round where no due transaction
    is TRIED, every call fails with "invalid state for confirm" or "invalid
    state for cancel", no manager is reached and nothing changes. *)
Theorem standard_sweeper_moves_only_tried (resources : gmap string ResourceManager)
    (order_of : string → list string) (now : Z) (st : State) :
  (∀ txID r, tcc_transaction st !! txID = Some r → due now r = true →
             TxTable.status r ≠ Tx.TRIED) →
  ∃ evs, Compensate_round resources order_of now st = Done (st, evs)
         ∧ evs.*1 = map (fun row => (row.1, StandardSpec.expected_action row.2))
                        (select_due now (tcc_transaction st))
         ∧ ∀ ev, ev ∈ evs →
                 (ev.1.2 = CallConfirm ∧ ev.2 = Some ErrInvalidConfirm)
                 ∨ (ev.1.2 = CallCancel ∧ ev.2 = Some ErrInvalidCancel).
Proof.
  intros Hnone. unfold Compensate_round.
  destruct (redrive_rows_stuck resources order_of now st
              (select_due now (tcc_transaction st))) as (evs & Hrun & Hevs).
  { intros txID s Hin. apply select_due_spec in Hin as (r & Hr & Hs & Hnt & Hold).
    exists r. split; [exact Hr|]. split; [exact Hs|].
    rewrite <- Hs. apply (Hnone txID r Hr).
    unfold due. rewrite Hs, Hnt. cbn [andb]. apply Z.ltb_lt. exact Hold. }
  exists evs. split; [exact Hrun|]. split; [|exact Hevs].
  rewrite (redrive_rows_dispatch _ _ _ _ _ _ _ Hrun).
  apply dispatch_non_terminal. intros [txID s] Hin.
  apply select_due_spec in Hin as (r & _ & _ & Hnt & _). exact Hnt.
Qed.

Lemma standard_sweeper_moves_only_tried_witness :
  ∃ evs, Compensate_round Sample.standard_resources (fun _ => ["inventory"%string]) 1000
           MoreSample.standard_stuck = Done (MoreSample.standard_stuck, evs)
         ∧ evs.*1 = map (fun row => (row.1, StandardSpec.expected_action row.2))
                        (select_due 1000 (tcc_transaction MoreSample.standard_stuck))
         ∧ ∀ ev, ev ∈ evs →
                 (ev.1.2 = CallConfirm ∧ ev.2 = Some ErrInvalidConfirm)
                 ∨ (ev.1.2 = CallCancel ∧ ev.2 = Some ErrInvalidCancel).
Proof.
  apply (standard_sweeper_moves_only_tried Sample.standard_resources
           (fun _ => ["inventory"%string]) 1000 MoreSample.standard_stuck).
  intros txID r Hr _.
  cbn [MoreSample.standard_stuck tcc_transaction] in Hr.
  apply lookup_singleton_Some in Hr as [_ <-]. discriminate.
Defined.

(** X25. seckill_standard.go, AccountRM: a bundle without an int under
    "account_id" makes the type assertion of Try, Confirm and Cancel panic;
    the coordinator does not recover, so Confirm and Cancel of a TRIED
    transaction panic as soon as the account manager is the first one
    visited.  The bundle of recoverArgs is such a bundle. *)
Theorem standard_account_bundle_panics (args : Args) (t : Tables) :
  assert_int args "account_id" = Panic →
  AccountRM_Try args t = Panic
  ∧ AccountRM_Confirm args t = Panic
  ∧ AccountRM_Cancel args t = Panic
  ∧ ∀ (resources : gmap string ResourceManager) (rest : list string) (now : Z)
      (txID : string) (st : State) (r : TxTable.Row),
      resources !! "account"%string = Some AccountRM →
      tcc_transaction st !! txID = Some r →
      TxTable.status r = Tx.TRIED →
      Confirm resources ("account"%string :: rest) now txID args st = Panic
      ∧ Cancel resources ("account"%string :: rest) now txID args st = Panic.
Proof.
  intros Hpanic.
  assert (Htry : AccountRM_Try args t = Panic)
    by (unfold AccountRM_Try; rewrite Hpanic; reflexivity).
  assert (Hconfirm : ∀ t0, AccountRM_Confirm args t0 = Panic)
    by (intros t0; unfold AccountRM_Confirm; rewrite Hpanic; reflexivity).
  assert (Hcancel : ∀ t0, AccountRM_Cancel args t0 = Panic)
    by (intros t0; unfold AccountRM_Cancel; rewrite Hpanic; reflexivity).
  split; [exact Htry|]. split; [apply Hconfirm|]. split; [apply Hcancel|].
  intros resources rest now txID st r Hrm Hr Hst. split.
  - unfold Confirm, TxTable.update_status. rewrite Hr, Hst.
    cbn [existsb Tx.eqb orb Z.eqb range_resources]. rewrite Hrm.
    cbn [rmConfirm AccountRM]. rewrite Hconfirm. reflexivity.
  - unfold Cancel, TxTable.update_status. rewrite Hr, Hst.
    cbn [existsb Tx.eqb orb Z.eqb range_resources]. rewrite Hrm.
    cbn [rmCancel AccountRM]. rewrite Hcancel. reflexivity.
Qed.

Lemma standard_account_bundle_panics_witness :
  AccountRM_Try (recoverArgs "tx9") Sample.standard_tables = Panic
  ∧ AccountRM_Confirm (recoverArgs "tx9") Sample.standard_tables = Panic
  ∧ AccountRM_Cancel (recoverArgs "tx9") Sample.standard_tables = Panic
  ∧ ∀ (resources : gmap string ResourceManager) (rest : list string) (now : Z)
      (txID : string) (st : State) (r : TxTable.Row),
      resources !! "account"%string = Some AccountRM →
      tcc_transaction st !! txID = Some r →
      TxTable.status r = Tx.TRIED →
      Confirm resources ("account"%string :: rest) now txID (recoverArgs "tx9") st = Panic
      ∧ Cancel resources ("account"%string :: rest) now txID (recoverArgs "tx9") st = Panic.
Proof.
  apply (standard_account_bundle_panics (recoverArgs "tx9") Sample.standard_tables).
  vm_compute. reflexivity.
Defined.

End StandardLifecycle.

Section DesignScriptSweep.
Import DesignScript MoreSpec.

Lemma insert_by_update_time_sorted (x : string * TxTable.Row)
    (l : list (string * TxTable.Row)) :
  StronglySorted older l → StronglySorted older (insert_by_update_time x l).
Proof.
  induction 1 as [|y l Hl IH Hy]; cbn [insert_by_update_time].
  - constructor; constructor.
  - destruct (Z.leb_spec (TxTable.update_time x.2) (TxTable.update_time y.2)) as [Hle|Hgt].
    + constructor; [constructor; assumption|].
      constructor; [exact Hle|].
      apply Forall_forall. intros z Hz.
      pose proof (proj1 (Forall_forall _ _) Hy z Hz) as Hyz.
      unfold older in *. lia.
    + constructor; [exact IH|].
      apply Forall_forall. intros z Hz.
      apply insert_by_update_time_elem in Hz as [->|Hz].
      * unfold older. lia.
      * exact (proj1 (Forall_forall _ _) Hy z Hz).
Qed.

Lemma order_by_update_time_sorted (l : list (string * TxTable.Row)) :
  StronglySorted older (order_by_update_time l).
Proof.
  induction l as [|x l IH]; [constructor|].
  apply insert_by_update_time_sorted. exact IH.
Qed.

Lemma insert_by_update_time_length (x : string * TxTable.Row)
    (l : list (string * TxTable.Row)) :
  length (insert_by_update_time x l) = S (length l).
Proof.
  induction l as [|y l IH]; cbn [insert_by_update_time]; [reflexivity|].
  destruct (_ <=? _); cbn [length]; [reflexivity|]. rewrite IH. reflexivity.
Qed.

Lemma order_by_update_time_length (l : list (string * TxTable.Row)) :
  length (order_by_update_time l) = length l.
Proof.
  induction l as [|x l IH]; [reflexivity|].
  unfold order_by_update_time in *. cbn [foldr length].
  rewrite insert_by_update_time_length, IH. reflexivity.
Qed.

Lemma StronglySorted_take_older (n : nat) (l : list (string * TxTable.Row)) :
  StronglySorted older l → StronglySorted older (take n l).
Proof.
  intros Hl. revert n. induction Hl as [|y l Hl IH Hy]; intros [|n]; cbn [take];
    try constructor.
  - apply IH.
  - apply Forall_forall. intros z Hz. apply (subseteq_take n) in Hz.
    exact (proj1 (Forall_forall _ _) Hy z Hz).
Qed.

Lemma StronglySorted_lookup_older (l : list (string * TxTable.Row)) :
  StronglySorted older l → by_update_time l.
Proof.
  induction 1 as [|y l Hl IH Hy]; intros i j a b Ha Hb Hij.
  - rewrite lookup_nil in Ha. discriminate.
  - destruct i as [|i], j as [|j]; cbn in Ha, Hb.
    + injection Ha as <-. injection Hb as <-. lia.
    + injection Ha as <-.
      apply (proj1 (Forall_forall _ _) Hy b). eapply list_elem_of_lookup_2. exact Hb.
    + lia.
    + apply (IH i j a b Ha Hb). lia.
Qed.

(** X26. The design script, the sweep query: its rows come in ascending
    order of update_time (the least recently updated first), and when at
    most 100 rows are selectable the LIMIT cuts nothing: every selectable
    row of the table is returned. *)
Theorem design_sweep_sorted_and_complete (now : Z) (tbl : gmap string TxTable.Row) :
  by_update_time (sweep_query now tbl)
  ∧ ((length (filter (fun p => selectable now (snd p) = true) (map_to_list tbl)) ≤ 100)%nat →
     ∀ txID r, tbl !! txID = Some r → selectable now r = true →
               (txID, r) ∈ sweep_query now tbl).
Proof.
  split.
  - apply StronglySorted_lookup_older, StronglySorted_take_older,
      order_by_update_time_sorted.
  - intros Hlen txID r Hr Hsel. unfold sweep_query.
    rewrite take_ge by (rewrite order_by_update_time_length; exact Hlen).
    apply order_by_update_time_elem, list_elem_of_filter.
    split; [exact Hsel|]. apply elem_of_map_to_list. exact Hr.
Qed.

(** X27. The design script, sweep query against the timeout statement: the
    query keeps the rows with NOW() < timeout_time and the statement marks
    those with NOW() > timeout_time, so at one instant a row the sweep
    returns is never the one the timeout statement fails: run for its
    tx_id, the statement changes nothing. *)
Theorem design_swept_row_not_timed_out (now : Z) (tbl : gmap string TxTable.Row)
    (txID : string) (r : TxTable.Row) :
  (txID, r) ∈ sweep_query now tbl →
  mark_timeout now txID tbl = tbl.
Proof.
  intros Hin.
  destruct (sweep_query_sound now tbl) as [_ Hsound].
  destruct (Hsound txID r Hin) as (Hr & _ & _ & t & Ht & Hlt).
  unfold mark_timeout. apply alter_id. intros r' Hr'.
  rewrite Hr in Hr'. injection Hr' as <-. rewrite Ht.
  assert ((t <? now) = false) as -> by (apply Z.ltb_ge; lia). reflexivity.
Qed.

Lemma design_swept_row_not_timed_out_witness :
  mark_timeout 50 "tx7" MoreSample.live_table = MoreSample.live_table.
Proof.
  apply (design_swept_row_not_timed_out 50 MoreSample.live_table "tx7"
           MoreSample.live_row).
  vm_compute. left.
Defined.

End DesignScriptSweep.
